(** * PHOTON feature selection wrappers and investigator controller:
      a shallow embedding and the properties stated about them.

    Sources embedded here:
    - [photonai/modelwrapper/feature_selection.py]
    - [photonai/investigator/app/controller/configuration.py]

    Python floats and numpy [float64] entries are IEEE binary64 numbers;
    they are modelled by the Standard Library's [spec_float] at precision
    53 and maximal exponent 1024, with its correctly rounded operations. *)

From Stdlib Require Import ZArith Lia.
From Stdlib Require Import Floats.SpecFloat.
From stdpp Require Import base option list sorting strings gmap.

Local Open Scope string_scope.
Local Open Scope list_scope.
Local Open Scope Z_scope.

(* ===================================================================== *)
(** * Binary64 arithmetic *)
(* ===================================================================== *)

Module F64.

Definition prec : Z := 53.
Definition emax : Z := 1024.

Definition float64 : Type := spec_float.

Definition valid (x : float64) : bool := valid_binary prec emax x.

(** Conversion of a Python [int] to [float] (round to nearest even). *)
Definition of_Z (z : Z) : float64 := binary_normalize prec emax z 0 false.

Definition zero : float64 := S754_zero false.
Definition one : float64 := of_Z 1.

Definition add : float64 → float64 → float64 := SFadd prec emax.
Definition sub : float64 → float64 → float64 := SFsub prec emax.
Definition mul : float64 → float64 → float64 := SFmul prec emax.
Definition div : float64 → float64 → float64 := SFdiv prec emax.
Definition abs : float64 → float64 := SFabs.

(** The float nearest to the decimal literal [n / d]: both integers are
    exact in binary64 for the literals of the source, and the division
    is correctly rounded. *)
Definition of_ratio (n d : Z) : float64 := div (of_Z n) (of_Z d).

(** Comparisons; every comparison with a NaN is [false]. *)
Definition ltb (x y : float64) : bool := SFltb x y.
Definition leb (x y : float64) : bool := SFleb x y.
Definition gtb (x y : float64) : bool := SFltb y x.
Definition geb (x y : float64) : bool := SFleb y x.

(** [2^-53], half the distance from one to the next float below it. *)
Definition pow2_m54 : float64 := S754_finite false 4503599627370496 (-106).

Definition is_nan (x : float64) : bool :=
  match x with S754_nan => true | _ => false end.

(** [np.floor] on a finite float, as an integer: the value is
    [(-1)^s * m * 2^e]; shifting rounds towards minus infinity. *)
Definition floor_finite (s : bool) (m : positive) (e : Z) : Z :=
  Z.shiftl (cond_Zopp s (Z.pos m)) e.

End F64.

Export F64.

(** The quantities by which the rounding of [SpecFloat] is described. *)
Module Rounding.

Definition fexp64 : Z → Z := fexp prec emax.
Definition emin64 : Z := emin prec emax.

(** [M / 2^k] rounded to the nearest integer, ties to even. *)
Definition rne (M k : Z) : Z :=
  let q := M / 2 ^ k in
  let r := M mod 2 ^ k in
  match Z.compare (2 * r) (2 ^ k) with
  | Lt => q
  | Gt => q + 1
  | Eq => if Z.even q then q else q + 1
  end.

(** The state of the right shift of [M] after [k] steps: the quotient,
    and the position of the remainder relative to half a unit. *)
Definition shr_inv (M k : Z) (x : shr_record) : Prop :=
  let rem := M - shr_m x * 2 ^ k in
  0 ≤ shr_m x ∧ 0 ≤ rem < 2 ^ k ∧
  match shr_r x, shr_s x with
  | false, false => rem = 0
  | false, true => 0 < rem ∧ 2 * rem < 2 ^ k
  | true, false => 2 * rem = 2 ^ k
  | true, true => 2 * rem > 2 ^ k
  end.

(** What [binary_round_aux] computes from an exact mantissa [M] and
    exponent [E]: a shift to the exponent of the format, the rounding,
    and a second shift when the rounding carried. *)
Definition round_result (s : bool) (M E : Z) : float64 :=
  let k := Z.max 0 (fexp64 (Zdigits2 M + E) - E) in
  let m2 := rne M k in
  let e2 := E + k in
  let k2 := Z.max 0 (fexp64 (Zdigits2 m2 + e2) - e2) in
  match m2 / 2 ^ k2 with
  | Z0 => S754_zero s
  | Z.pos m => if e2 + k2 <=? emax - prec then S754_finite s m (e2 + k2)
               else S754_infinity s
  | Z.neg _ => S754_nan
  end.

End Rounding.

Export Rounding.

(** The order of the float comparisons, read on integers. *)
Module FloatOrder.

(** The place of a float that is not NaN: first its sign and kind, then
    exponent and mantissa, reversed for the negative numbers. *)
Definition key (x : float64) : Z * Z * Z :=
  match x with
  | S754_infinity true => (-2, 0, 0)
  | S754_finite true m e => (-1, - e, - Z.pos m)
  | S754_zero _ | S754_nan => (0, 0, 0)
  | S754_finite false m e => (1, e, Z.pos m)
  | S754_infinity false => (2, 0, 0)
  end.

Definition key_le (a b : Z * Z * Z) : Prop :=
  a.1.1 < b.1.1 ∨
  (a.1.1 = b.1.1 ∧ (a.1.2 < b.1.2 ∨ (a.1.2 = b.1.2 ∧ a.2 ≤ b.2))).

Definition key_lt (a b : Z * Z * Z) : Prop :=
  a.1.1 < b.1.1 ∨
  (a.1.1 = b.1.1 ∧ (a.1.2 < b.1.2 ∨ (a.1.2 = b.1.2 ∧ a.2 < b.2))).

End FloatOrder.

Export FloatOrder.

(* ===================================================================== *)
(** * Exceptions and the state-and-error monad of method calls *)
(* ===================================================================== *)

Inductive exn_class : Type :=
  | ValueError | IndexError | TypeError | AttributeError | OverflowError
  | ValidationError | ConnectionError | DoesNotExist
  | OtherError (name : string).

Record exn : Type := Exn { exn_cls : exn_class; exn_message : string }.

Inductive result (A : Type) : Type :=
  | Ok (a : A)
  | Raise (e : exn).
Arguments Ok {A} a.
Arguments Raise {A} e.

(** A method of an object with attributes [S]: it reads and mutates the
    object and either returns or raises; mutations made before a raise
    stay. *)
Definition M (S A : Type) : Type := S → result A * S.

Definition m_ret {S A} (a : A) : M S A := λ s, (Ok a, s).
Definition m_bind {S A B} (m : M S A) (k : A → M S B) : M S B :=
  λ s, match m s with
       | (Ok a, s') => k a s'
       | (Raise e, s') => (Raise e, s')
       end.
Definition m_raise {S A} (c : exn_class) (msg : string) : M S A :=
  λ s, (Raise (Exn c msg), s).
Definition m_get {S} : M S S := λ s, (Ok s, s).
Definition m_modify {S} (f : S → S) : M S unit := λ s, (Ok tt, f s).
Definition m_lift {S A} (r : result A) : M S A := λ s, (r, s).

(** Run a method of a sub-object stored in an attribute. *)
Definition m_zoom {S T A} (get : S → T) (set : T → S → S) (m : M T A) : M S A :=
  λ s, let '(r, t) := m (get s) in (r, set t s).

Declare Scope method_scope.
Delimit Scope method_scope with method.
Notation "x <- m ;; k" := (m_bind m (λ x, k))
  (at level 100, m at next level, right associativity) : method_scope.
Notation "m ;;; k" := (m_bind m (λ _, k))
  (at level 100, right associativity) : method_scope.

Definition r_bind {A B} (r : result A) (k : A → result B) : result B :=
  match r with Ok a => k a | Raise e => Raise e end.

(* ===================================================================== *)
(** * The numpy operations used by the wrappers *)
(* ===================================================================== *)

Module Np.

(** A two-dimensional [float64] array: [shape1] is [X.shape[1]]; the
    number of rows [X.shape[0]] is the length of [rows]. *)
Record ndarray : Type := NdArray { shape1 : nat; rows : list (list float64) }.

Definition shape0 (X : ndarray) : nat := length (rows X).

Definition wf (X : ndarray) : Prop :=
  Forall (λ r, length r = shape1 X) (rows X).

(** [X[r, c]] *)
Definition entry (X : ndarray) (r c : nat) : option float64 :=
  rows X !! r ≫= λ row, row !! c.

(** [np.zeros((n, d))] *)
Definition zeros (n d : nat) : ndarray :=
  {| shape1 := d; rows := replicate n (replicate d zero) |}.

(** [np.where(mask)[0]] for a one-dimensional boolean array. *)
Fixpoint where_from (i : nat) (mask : list bool) : list nat :=
  match mask with
  | [] => []
  | b :: mask' =>
      if b then i :: where_from (S i) mask' else where_from (S i) mask'
  end.
Definition where_ (mask : list bool) : list nat := where_from 0 mask.

Definition pick (row : list float64) (idx : list nat) : list float64 :=
  (λ i, default zero (row !! i)) <$> idx.

(** [X[:, idx]] with an integer index array: numpy checks every index
    against [X.shape[1]] and raises [IndexError] otherwise. *)
Definition getitem_cols (X : ndarray) (idx : list nat) : result ndarray :=
  if decide (Forall (λ i, (i < shape1 X)%nat) idx)
  then Ok {| shape1 := length idx; rows := (λ r, pick r idx) <$> rows X |}
  else Raise (Exn IndexError "index is out of bounds for axis 1").

(** One row of [Xt[:, idx] = X]: the values are stored from left to
    right, so a repeated index keeps the last value. *)
Definition assign_row (rt : list float64) (idx : list nat) (rx : list float64)
  : list float64 :=
  foldl (λ acc iv, <[iv.1 := iv.2]> acc) rt (zip idx rx).

(** [Xt[:, idx] = X] for [X] of the shape of the selection. *)
Definition setitem_cols (Xt : ndarray) (idx : list nat) (X : ndarray)
  : result ndarray :=
  if decide (Forall (λ i, (i < shape1 Xt)%nat) idx) then
    if decide (shape0 X = shape0 Xt ∧ shape1 X = length idx) then
      Ok {| shape1 := shape1 Xt;
            rows := zip_with (λ rt rx, assign_row rt idx rx) (rows Xt) (rows X) |}
    else Raise (Exn ValueError "shape mismatch: value array could not be broadcast to indexing result")
  else Raise (Exn IndexError "index is out of bounds for axis 1").

(** The order of [np.sort] on floats: ascending, NaN last. *)
Definition sort_leb (x y : float64) : bool :=
  match x, y with
  | _, S754_nan => true
  | S754_nan, _ => false
  | _, _ => leb x y
  end.
Definition sort_le (x y : float64) : Prop := sort_leb x y = true.
#[export] Instance sort_le_dec : RelDecision sort_le.
Proof. intros x y. unfold sort_le. apply _. Defined.

(** [np.sort]; where equal keys (the two zeros) end up does not show in
    a comparison with an entry of the result. *)
Definition sort (l : list float64) : list float64 := merge_sort sort_le l.

(** [int(np.floor(x))] *)
Definition int_floor (x : float64) : result Z :=
  match x with
  | S754_zero _ => Ok 0
  | S754_finite s m e => Ok (floor_finite s m e)
  | S754_nan => Raise (Exn ValueError "cannot convert float NaN to integer")
  | S754_infinity _ => Raise (Exn OverflowError "cannot convert float infinity to integer")
  end.

(** [a[i]] for a one-dimensional array and a Python integer: negative
    indices count from the end. *)
Definition getitem {A} (a : list A) (i : Z) : result A :=
  let n := Z.of_nat (length a) in
  let j := if Z.ltb i 0 then i + n else i in
  if Z.ltb j 0 then Raise (Exn IndexError "index is out of bounds for axis 0")
  else match a !! Z.to_nat j with
       | Some v => Ok v
       | None => Raise (Exn IndexError "index is out of bounds for axis 0")
       end.

End Np.

Export Np.

(* ===================================================================== *)
(** * Python values held in parameter dictionaries *)
(* ===================================================================== *)

Inductive pyval : Type :=
  | PyNone
  | PyBool (b : bool)
  | PyInt (z : Z)
  | PyFloat (f : float64)
  | PyStr (s : string).

(** The number a Python value stands for when it meets a float or a float
    array: [bool] and [int] are promoted to binary64; anything else makes
    the arithmetic or the comparison raise [TypeError]. *)
Definition as_float (v : pyval) : result float64 :=
  match v with
  | PyFloat f => Ok f
  | PyInt z => Ok (of_Z z)
  | PyBool b => Ok (of_Z (if b then 1 else 0))
  | PyNone | PyStr _ => Raise (Exn TypeError "unsupported operand type(s)")
  end.

(* ===================================================================== *)
(** * The scikit-learn interfaces the wrappers delegate to *)
(* ===================================================================== *)

Module Sklearn.

(** [estimator.coef_]: one- or two-dimensional. *)
Inductive coef : Type :=
  | Coef1 (w : list float64)
  | Coef2 (W : ndarray).

(** What [ModelSelector] uses of the wrapped estimator. *)
Class Estimator (E : Type) : Type := {
  est_fit : ndarray → option (list float64) → M E unit;
  feature_importances_ : E → option (list float64);
  coef_ : E → option coef;
  class_name : E → string;
  est_get_params : bool → E → gmap string pyval;
  est_set_params : gmap string pyval → M E unit;
}.

(** What a fitted estimator of scikit-learn guarantees: the importances
    it exposes have one entry per feature seen in [fit]; and
    [BaseEstimator.set_params] without parameters changes nothing. *)
Class EstimatorContract (E : Type) `{Estimator E} : Prop := {
  fit_importances_length : ∀ X y e e' imp,
    est_fit X y e = (Ok tt, e') →
    feature_importances_ e' = Some imp → length imp = shape1 X;
  fit_coef1_length : ∀ X y e e' w,
    est_fit X y e = (Ok tt, e') →
    coef_ e' = Some (Coef1 w) → length w = shape1 X;
  fit_coef2_shape : ∀ X y e e' W,
    est_fit X y e = (Ok tt, e') →
    coef_ e' = Some (Coef2 W) → wf W ∧ shape1 W = shape1 X;
  set_params_empty : ∀ e, est_set_params ∅ e = (Ok tt, e);
}.

(** The score functions given to [SelectPercentile]. *)
Inductive score_func : Type := f_regression_score | f_classif_score.

(** A feature selector of scikit-learn ([VarianceThreshold],
    [SelectPercentile]): [sel_fit] computes a support, [sel_transform]
    and [sel_inverse_transform] are [SelectorMixin]'s. *)
Class Selector (S : Type) : Type := {
  sel_fit : ndarray → option (list float64) → M S unit;
  sel_support : S → list nat;
  sel_transform : S → ndarray → result ndarray;
  sel_inverse_transform : S → ndarray → result ndarray;
}.

End Sklearn.

Export Sklearn.

(* ===================================================================== *)
(** * photonai/modelwrapper/feature_selection.py *)
(* ===================================================================== *)

Local Open Scope method_scope.

Definition shape_msg : string := "X has a different shape than during fitting.".

(** [np.zeros((X.shape[0], self.n_original_features))]: before [fit] the
    attribute is [None], which is not a dimension. *)
Definition zeros_like_original (n : nat) (d : option nat) : result ndarray :=
  match d with
  | Some d => Ok (zeros n d)
  | None => Raise (Exn TypeError "'NoneType' object cannot be interpreted as an integer")
  end.

Module FRegressionFilterPValue.
Section WithFRegression.

(** [sklearn.feature_selection.f_regression]: F-values and p-values. *)
Variable f_regression :
  ndarray → list float64 → result (list float64 * list float64).

Record t : Type := Build {
  p_threshold : float64;
  selected_indices : list nat;
  n_original_features : option nat;
}.

Definition set_selected_indices (v : list nat) (self : t) : t :=
  Build (p_threshold self) v (n_original_features self).
Definition set_n_original_features (v : option nat) (self : t) : t :=
  Build (p_threshold self) (selected_indices self) v.

Definition default_p_threshold : float64 := of_ratio 5 100.

Definition init (p_threshold : float64) : t := Build p_threshold [] None.

Definition fit (X : ndarray) (y : list float64) : M t unit :=
  m_modify (set_n_original_features (Some (shape1 X))) ;;;
  Fp <- m_lift (f_regression X y) ;;
  self <- m_get ;;
  m_modify (set_selected_indices
              (where_ ((λ p, ltb p (p_threshold self)) <$> Fp.2))).

Definition transform (X : ndarray) : M t ndarray :=
  self <- m_get ;;
  m_lift (getitem_cols X (selected_indices self)).

(** Before raising, the message is also given to [logger.error]; the
    log is no attribute of the transformer and is left out. *)
Definition inverse_transform (X : ndarray) : M t ndarray :=
  self <- m_get ;;
  if decide (shape1 X ≠ length (selected_indices self)) then
    m_raise ValueError shape_msg
  else
    Xt <- m_lift (zeros_like_original (shape0 X) (n_original_features self)) ;;
    m_lift (setitem_cols Xt (selected_indices self) X).

End WithFRegression.
End FRegressionFilterPValue.

(** The code shared by [FRegressionSelectPercentile] and
    [FClassifSelectPercentile], which differ in the score function given
    to [SelectPercentile] only. *)
Module SelectPercentileWrapper.
Section WithSelectors.

Context {VT SP : Type} `{Selector VT} `{Selector SP}.

(** [VarianceThreshold()] and
    [SelectPercentile(score_func=..., percentile=...)]. *)
Variable VarianceThreshold : VT.
Variable SelectPercentile : score_func → pyval → SP.
Variable score : score_func.

Record t : Type := Build {
  var_thres : VT;
  percentile : pyval;
  my_fs : option SP;
}.

Definition set_var_thres (v : VT) (self : t) : t :=
  Build v (percentile self) (my_fs self).
Definition set_my_fs (v : option SP) (self : t) : t :=
  Build (var_thres self) (percentile self) v.

Definition default_percentile : pyval := PyInt 10.

Definition init (percentile : pyval) : t :=
  Build VarianceThreshold percentile None.

(** A method of [self.my_fs]; before [fit] the attribute is [None]. *)
Definition with_my_fs {A} (self : t) (k : SP → result A) : result A :=
  match my_fs self with
  | Some fs => k fs
  | None => Raise (Exn AttributeError "'NoneType' object has no attribute")
  end.

Definition fit (X : ndarray) (y : list float64) : M t unit :=
  (* X = self.var_thres.fit_transform(X): fit(X) without y, then
     transform(X) *)
  m_zoom var_thres set_var_thres (sel_fit X None) ;;;
  self <- m_get ;;
  X' <- m_lift (sel_transform (var_thres self) X) ;;
  (* self.my_fs = SelectPercentile(...); self.my_fs.fit(X, y) *)
  let fs := SelectPercentile score (percentile self) in
  m_modify (set_my_fs (Some fs)) ;;;
  m_zoom (λ _, fs) (λ fs' self, set_my_fs (Some fs') self)
         (sel_fit X' (Some y)).

Definition transform (X : ndarray) : M t ndarray :=
  self <- m_get ;;
  X' <- m_lift (sel_transform (var_thres self) X) ;;
  m_lift (with_my_fs self (λ fs, sel_transform fs X')).

Definition inverse_transform (X : ndarray) : M t ndarray :=
  self <- m_get ;;
  Xt <- m_lift (with_my_fs self (λ fs, sel_inverse_transform fs X)) ;;
  m_lift (sel_inverse_transform (var_thres self) Xt).

End WithSelectors.
Arguments t VT SP : clear implicits.
End SelectPercentileWrapper.

Module FRegressionSelectPercentile.
Section WithSelectors.

Context {VT SP : Type} `{Selector VT} `{Selector SP}.
Variable VarianceThreshold : VT.
Variable SelectPercentile : score_func → pyval → SP.

Definition t : Type := SelectPercentileWrapper.t VT SP.
Definition init (percentile : pyval) : t :=
  SelectPercentileWrapper.init VarianceThreshold percentile.
Definition fit (X : ndarray) (y : list float64) : M t unit :=
  SelectPercentileWrapper.fit SelectPercentile f_regression_score X y.
Definition transform (X : ndarray) : M t ndarray :=
  SelectPercentileWrapper.transform X.
Definition inverse_transform (X : ndarray) : M t ndarray :=
  SelectPercentileWrapper.inverse_transform X.

End WithSelectors.
End FRegressionSelectPercentile.

Module FClassifSelectPercentile.
Section WithSelectors.

Context {VT SP : Type} `{Selector VT} `{Selector SP}.
Variable VarianceThreshold : VT.
Variable SelectPercentile : score_func → pyval → SP.

Definition t : Type := SelectPercentileWrapper.t VT SP.
Definition init (percentile : pyval) : t :=
  SelectPercentileWrapper.init VarianceThreshold percentile.
Definition fit (X : ndarray) (y : list float64) : M t unit :=
  SelectPercentileWrapper.fit SelectPercentile f_classif_score X y.
Definition transform (X : ndarray) : M t ndarray :=
  SelectPercentileWrapper.transform X.
Definition inverse_transform (X : ndarray) : M t ndarray :=
  SelectPercentileWrapper.inverse_transform X.

End WithSelectors.
End FClassifSelectPercentile.

Module ModelSelector.
Section WithEstimator.

Context {E : Type} `{Estimator E}.

Record t : Type := Build {
  threshold : pyval;
  estimator_obj : E;
  selected_indices : list nat;
  percentile : bool;
  importance_scores : list float64;
  n_original_features : option nat;
}.

Definition set_threshold (v : pyval) (self : t) : t :=
  Build v (estimator_obj self) (selected_indices self) (percentile self)
        (importance_scores self) (n_original_features self).
Definition set_estimator_obj (v : E) (self : t) : t :=
  Build (threshold self) v (selected_indices self) (percentile self)
        (importance_scores self) (n_original_features self).
Definition set_selected_indices (v : list nat) (self : t) : t :=
  Build (threshold self) (estimator_obj self) v (percentile self)
        (importance_scores self) (n_original_features self).
Definition set_importance_scores (v : list float64) (self : t) : t :=
  Build (threshold self) (estimator_obj self) (selected_indices self)
        (percentile self) v (n_original_features self).
Definition set_n_original_features (v : option nat) (self : t) : t :=
  Build (threshold self) (estimator_obj self) (selected_indices self)
        (percentile self) (importance_scores self) v.

Definition default_threshold : pyval := PyFloat (of_ratio 1 100000).

Definition init (estimator_obj : E) (threshold : pyval) (percentile : bool) : t :=
  Build threshold estimator_obj [] percentile [] None.

(** [np.linalg.norm(coef_, axis=0, ord=1)]: the sums of the absolute
    values of each column, accumulated row by row. *)
Definition norm1_axis0 (W : ndarray) : list float64 :=
  foldl (λ acc r, zip_with add acc (abs <$> r))
        (replicate (shape1 W) zero) (rows W).

Definition no_importances_msg (name : string) : string :=
  "The underlying estimator " +:+ name +:+
  " has no `coef_` or `feature_importances_` attribute. Either pass a fitted estimator to SelectFromModel or call fit before calling transform.".

Definition _get_feature_importances (estimator : E) : result (list float64) :=
  match feature_importances_ estimator with
  | Some importances => Ok importances
  | None =>
      match coef_ estimator with
      | Some (Coef1 w) => Ok (abs <$> w)
      | Some (Coef2 W) => Ok (norm1_axis0 W)
      | None => Raise (Exn ValueError (no_importances_msg (class_name estimator)))
      end
  end.

(** [np.where(self.importance_scores >= bound)[0]] *)
Definition at_least (scores : list float64) (bound : float64) : list nat :=
  where_ ((λ v, geb v bound) <$> scores).

(** The index into the sorted importances:
    [int(np.floor((1 - self.threshold) * X.shape[1]))]. *)
Definition percentile_index (thr : float64) (n_features : nat) : result Z :=
  int_floor (mul (sub one thr) (of_Z (Z.of_nat n_features))).

(** [X.shape[1]] is read first, so the input is an array: the later
    conversion of a list input is never reached. In either branch the
    first use of the threshold is a comparison with floats. *)
Definition fit (X : ndarray) (y : option (list float64)) : M t unit :=
  m_modify (set_n_original_features (Some (shape1 X))) ;;;
  m_zoom estimator_obj set_estimator_obj (est_fit X y) ;;;
  self <- m_get ;;
  scores <- m_lift (_get_feature_importances (estimator_obj self)) ;;
  m_modify (set_importance_scores scores) ;;;
  thr <- m_lift (as_float (threshold self)) ;;
  if negb (percentile self) then
    m_modify (set_selected_indices (at_least scores thr))
  else
    if gtb thr one then
      m_raise ValueError "Threshold should not be greater than 1"
    else
      let ordered_importances := sort scores in
      index <- m_lift (percentile_index thr (shape1 X)) ;;
      percentile_thres <- m_lift (getitem ordered_importances index) ;;
      m_modify (set_selected_indices (at_least scores percentile_thres)).

(** When no feature was selected, a message is printed and the input
    is returned as it is. A list input is first made an array, which is
    what [X] stands for. *)
Definition transform (X : ndarray) : M t ndarray :=
  self <- m_get ;;
  X_new <- m_lift (getitem_cols X (selected_indices self)) ;;
  if decide (shape1 X_new = 0%nat) then m_ret X else m_ret X_new.

(** As in [FRegressionFilterPValue], with the same call of
    [logger.error] before raising. *)
Definition inverse_transform (X : ndarray) : M t ndarray :=
  self <- m_get ;;
  if decide (shape1 X ≠ length (selected_indices self)) then
    m_raise ValueError shape_msg
  else
    Xt <- m_lift (zeros_like_original (shape0 X) (n_original_features self)) ;;
    m_lift (setitem_cols Xt (selected_indices self) X).

Definition set_params (params : gmap string pyval) : M t unit :=
  params' <- match params !! "threshold" with
             | Some v =>
                 m_modify (set_threshold v) ;;;
                 m_ret (delete "threshold" params)
             | None => m_ret params
             end ;;
  m_zoom estimator_obj set_estimator_obj (est_set_params params').

Definition get_params (deep : bool) (self : t) : gmap string pyval :=
  est_get_params deep (estimator_obj self).

End WithEstimator.
Arguments t E : clear implicits.
End ModelSelector.

Module LassoFeatureSelection.
Section WithLasso.

Context {E : Type} `{Estimator E}.

(** [sklearn.linear_model.Lasso(alpha=..., **kwargs)]; the constructor
    raises on keyword arguments it does not know. *)
Variable Lasso : pyval → gmap string pyval → result E.

Record t : Type := Build {
  percentile : pyval;
  alpha : pyval;
  model_selector : option (ModelSelector.t E);
  Lasso_kwargs : gmap string pyval;
  needs_covariates : bool;
  needs_y : bool;
}.

Definition set_model_selector (v : option (ModelSelector.t E)) (self : t) : t :=
  Build (percentile self) (alpha self) v (Lasso_kwargs self)
        (needs_covariates self) (needs_y self).

Definition default_percentile : pyval := PyFloat (of_ratio 3 10).
Definition default_alpha : pyval := PyFloat one.

Definition init (percentile alpha : pyval) (kwargs : gmap string pyval) : t :=
  Build percentile alpha None kwargs false false.

(** A method of [self.model_selector]; before [fit] it is [None]. *)
Definition on_model_selector {A} (m : M (ModelSelector.t E) A) : M t A :=
  λ self,
    match model_selector self with
    | Some ms => let '(r, ms') := m ms in (r, set_model_selector (Some ms') self)
    | None => (Raise (Exn AttributeError "'NoneType' object has no attribute"), self)
    end.

Definition fit (X : ndarray) (y : option (list float64)) : M t unit :=
  self <- m_get ;;
  lasso <- m_lift (Lasso (alpha self) (Lasso_kwargs self)) ;;
  m_modify (set_model_selector
              (Some (ModelSelector.init lasso (percentile self) true))) ;;;
  on_model_selector (ModelSelector.fit X y).

Definition transform (X : ndarray) : M t ndarray :=
  on_model_selector (ModelSelector.transform X).

Definition inverse_transform (X : ndarray) : M t ndarray :=
  on_model_selector (ModelSelector.inverse_transform X).

End WithLasso.
Arguments t E : clear implicits.
End LassoFeatureSelection.

(* ===================================================================== *)
(** * photonai/investigator/app/controller/configuration.py *)
(* ===================================================================== *)

Module Investigator.

(** The result documents read by the controller
    ([photonai.validation.ResultsDatabase]), with the fields it reads. *)
Record MDBFoldMetric : Type := {
  operation : string;
  metric_name : pyval;
  value : pyval;
}.

Record MDBConfig : Type := {
  config_nr : pyval;
  metrics_train : list MDBFoldMetric;
  metrics_test : list MDBFoldMetric;
  config_dict : list (pyval * pyval);
}.

Record MDBOuterFold : Type := { tested_config_list : list MDBConfig }.

Record MDBHyperpipe : Type := {
  name : string;
  outer_folds : list MDBOuterFold;
}.

(** [request.form.getlist(key)] on the submitted form fields. *)
Definition getlist (form : list (string * string)) (key : string) : list string :=
  snd <$> filter (λ kv, kv.1 = key) form.

(** The view models of [photonai.investigator.app.model], which are not
    among the sources: their constructors and the methods called. *)
Class ViewModels : Type := {
  PlotlyTrace : Type;
  PlotlyPlot : Type;
  ConfigItem : Type;
  Config : Type;
  new_PlotlyTrace : string → string → string → PlotlyTrace;
  add_x : PlotlyTrace → string → PlotlyTrace;
  add_y : PlotlyTrace → pyval → PlotlyTrace;
  new_PlotlyPlot : string → string → list PlotlyTrace → PlotlyPlot;
  new_ConfigItem : string → string → ConfigItem;
  new_Config : string → Config;
  add_item : Config → ConfigItem → Config;
}.

(** The keyword arguments given to [render_template]. *)
Record context `{ViewModels} : Type := {
  ctx_pipe : MDBHyperpipe;
  ctx_outer_fold : MDBOuterFold;
  ctx_plot_test : PlotlyPlot;
  ctx_plot_training : PlotlyPlot;
  ctx_config_dict_list : list Config;
}.

(** Flask, pymodm and the Python builtins the handler calls. *)
Class Environment `{ViewModels} : Type := {
  render_template : string → context → result string;
  objects_get : string → result MDBHyperpipe;
  int : string → result Z;
  str : pyval → string;
}.

Section Controller.

Context `{Environment}.

(** [str(config.config_nr) in selected_config_nr_list] *)
Definition is_selected (selected : list string) (config : MDBConfig) : bool :=
  bool_decide (str (config_nr config) ∈ selected).

Definition label (config : MDBConfig) : string :=
  "config_" +:+ str (config_nr config).

(** The bar trace of one configuration: the fold means of its metrics. *)
Definition mean_trace (config : MDBConfig) (metrics : list MDBFoldMetric)
  : PlotlyTrace :=
  foldl (λ tr m,
           if decide (operation m = "FoldOperations.MEAN")
           then add_y (add_x tr (str (metric_name m))) (value m)
           else tr)
        (new_PlotlyTrace (label config) "" "bar") metrics.

Definition config_view (config : MDBConfig) : Config :=
  foldl (λ c kv, add_item c (new_ConfigItem (str kv.1) (str kv.2)))
        (new_Config (label config)) (config_dict config).

(** The lists built by the loop over [outer_fold.tested_config_list]. *)
Record collected : Type := {
  config_dict_list : list Config;
  config_list : list MDBConfig;
  trace_training_list : list PlotlyTrace;
  trace_test_list : list PlotlyTrace;
}.

Definition collect_step (selected : list string) (acc : collected)
  (config : MDBConfig) : collected :=
  if is_selected selected config then
    {| config_dict_list := config_dict_list acc ++ [config_view config];
       config_list := config_list acc ++ [config];
       trace_training_list :=
         trace_training_list acc ++ [mean_trace config (metrics_train config)];
       trace_test_list :=
         trace_test_list acc ++ [mean_trace config (metrics_test config)] |}
  else acc.

Definition collect (selected : list string) (configs : list MDBConfig) : collected :=
  foldl (collect_step selected) (Build_collected [] [] [] []) configs.

(** The body of the [try] block. *)
Definition try_body (form : list (string * string)) (name fold_nr : string)
  : result string :=
  let selected_config_nr_list := getlist form "config_list" in
  r_bind (objects_get name) (λ pipe,
  r_bind (int fold_nr) (λ nr,
  r_bind (getitem (outer_folds pipe) (nr - 1)) (λ outer_fold,
  let c := collect selected_config_nr_list (tested_config_list outer_fold) in
  let plot_training :=
    new_PlotlyPlot "comparison_metrics_training"
      "train metrics of selected configurations" (trace_training_list c) in
  let plot_test :=
    new_PlotlyPlot "comparison_metrics_test"
      "test metrics of selected configurations" (trace_test_list c) in
  render_template "configuration/compare.html"
    {| ctx_pipe := pipe; ctx_outer_fold := outer_fold;
       ctx_plot_test := plot_test; ctx_plot_training := plot_training;
       ctx_config_dict_list := config_dict_list c |}))).

(** [try: ... except ValidationError as exc: return exc.message
    except ConnectionError as exc: return exc.message] *)
Definition compare_configurations (form : list (string * string))
  (name fold_nr : string) : result string :=
  match try_body form name fold_nr with
  | Ok page => Ok page
  | Raise exc =>
      match exn_cls exc with
      | ValidationError => Ok (exn_message exc)
      | ConnectionError => Ok (exn_message exc)
      | _ => Raise exc
      end
  end.

End Controller.

End Investigator.

(* ===================================================================== *)
(** * Stand-ins for scikit-learn objects *)
(* ===================================================================== *)

(** Small executable implementations of the scikit-learn interfaces, on
    which the wrappers are run on concrete data. *)
Module StandIns.

(** An [f_regression] that reports the given p-values. *)
Definition fixed_f_regression (p : list float64)
  : ndarray → list float64 → result (list float64 * list float64) :=
  λ X _, if decide (length p = shape1 X) then Ok (p, p)
         else Raise (Exn ValueError "Found input variables with inconsistent numbers of features").

(** An estimator whose fit exposes the given importances of its
    features and that has the given parameters. *)
Record FixedEstimator : Type := {
  fe_importances : list float64;
  fe_fitted : bool;
  fe_params : gmap string pyval;
}.

#[export] Instance FixedEstimator_estimator : Estimator FixedEstimator := {
  est_fit X _ e :=
    if decide (length (fe_importances e) = shape1 X)
    then (Ok tt, {| fe_importances := fe_importances e; fe_fitted := true;
                    fe_params := fe_params e |})
    else (Raise (Exn ValueError "X has a different number of features"), e);
  feature_importances_ e :=
    if fe_fitted e then Some (fe_importances e) else None;
  coef_ _ := None;
  class_name _ := "FixedEstimator";
  est_get_params _ e := fe_params e;
  est_set_params ps e :=
    if decide (dom ps ⊆ dom (fe_params e))
    then (Ok tt, {| fe_importances := fe_importances e; fe_fitted := fe_fitted e;
                    fe_params := ps ∪ fe_params e |})
    else (Raise (Exn ValueError "Invalid parameter for estimator"), e);
}.

(** A selector that keeps the given columns. *)
Record KeepColumns : Type := {
  kc_keep : list nat;
  kc_n_features : option nat;
}.

#[export] Instance KeepColumns_selector : Selector KeepColumns := {
  sel_fit X _ s :=
    (Ok tt, {| kc_keep := filter (λ i, (i < shape1 X)%nat) (kc_keep s);
               kc_n_features := Some (shape1 X) |});
  sel_support s := kc_keep s;
  sel_transform s X :=
    if decide (kc_n_features s = Some (shape1 X))
    then getitem_cols X (kc_keep s)
    else Raise (Exn ValueError shape_msg);
  sel_inverse_transform s X :=
    if decide (shape1 X = length (kc_keep s))
    then r_bind (zeros_like_original (shape0 X) (kc_n_features s))
                (λ Xt, setitem_cols Xt (kc_keep s) X)
    else Raise (Exn ValueError shape_msg);
}.

(** A selector that keeps the given columns and, as the univariate
    selectors of scikit-learn do, refuses in [fit] data without
    features. *)
Record StrictColumns : Type := { sc_inner : KeepColumns }.

Definition StrictColumns_selector : Selector StrictColumns := {|
  sel_fit := λ X y s,
    if decide (shape1 X = 0%nat)
    then (Raise (Exn ValueError "Found array with 0 feature(s)"), s)
    else (Ok tt, {| sc_inner := (sel_fit X y (sc_inner s)).2 |});
  sel_support := λ s, sel_support (sc_inner s);
  sel_transform := λ s X, sel_transform (sc_inner s) X;
  sel_inverse_transform := λ s X, sel_inverse_transform (sc_inner s) X;
|}.

(** View models kept as plain data. *)
#[export] Instance plain_view_models : Investigator.ViewModels := {
  Investigator.PlotlyTrace := string * list string * list pyval;
  Investigator.PlotlyPlot := string * list (string * list string * list pyval);
  Investigator.ConfigItem := string * string;
  Investigator.Config := string * list (string * string);
  Investigator.new_PlotlyTrace variable_name _ _ := (variable_name, [], []);
  Investigator.add_x tr v := (tr.1.1, tr.1.2 ++ [v], tr.2);
  Investigator.add_y tr v := (tr.1.1, tr.1.2, tr.2 ++ [v]);
  Investigator.new_PlotlyPlot plot_name _ traces := (plot_name, traces);
  Investigator.new_ConfigItem k v := (k, v);
  Investigator.new_Config cfg_name := (cfg_name, []);
  Investigator.add_item c it := (c.1, c.2 ++ [it]);
}.

(** A results store with one pipeline of one outer fold and three
    tested configurations. *)
Definition demo_config (nr : Z) : Investigator.MDBConfig :=
  {| Investigator.config_nr := PyInt nr;
     Investigator.metrics_train :=
       [{| Investigator.operation := "FoldOperations.MEAN";
           Investigator.metric_name := PyStr "f1_score";
           Investigator.value := PyInt nr |}];
     Investigator.metrics_test := [];
     Investigator.config_dict := [(PyStr "C", PyInt nr)] |}.

Definition demo_pipe : Investigator.MDBHyperpipe :=
  {| Investigator.name := "heart";
     Investigator.outer_folds :=
       [{| Investigator.tested_config_list :=
             [demo_config 1; demo_config 2; demo_config 3] |}] |}.

Definition demo_str (v : pyval) : string :=
  match v with
  | PyInt 1 => "1" | PyInt 2 => "2" | PyInt 3 => "3"
  | PyStr s => s
  | _ => "?"
  end.

(** The page lists the names of the configuration views it was given;
    the store is reached under the name ["heart"] and raises for
    others. *)
#[export] Instance demo_environment : Investigator.Environment := {
  Investigator.render_template tpl ctx :=
    Ok (foldl (λ page c, page +:+ " " +:+ c.1) tpl
              (Investigator.ctx_config_dict_list ctx));
  Investigator.objects_get name :=
    if decide (name = "heart") then Ok demo_pipe
    else if decide (name = "offline")
         then Raise (Exn ConnectionError "Could not connect to the database")
         else Raise (Exn DoesNotExist "MDBHyperpipe matching query does not exist");
  Investigator.int s :=
    if decide (s = "1") then Ok 1
    else Raise (Exn ValueError "invalid literal for int() with base 10");
  Investigator.str := demo_str;
}.

(** A linear model without parameters: its fit, on data of the width
    of the given coefficients, exposes them as [coef_]; it has no
    [feature_importances_]. *)
Record LinearModel : Type := {
  lm_coef : coef;
  lm_fitted : bool;
}.

Definition coef_fits (c : coef) (d : nat) : Prop :=
  match c with
  | Coef1 w => length w = d
  | Coef2 W => wf W ∧ shape1 W = d
  end.
#[export] Instance coef_fits_dec c d : Decision (coef_fits c d).
Proof. destruct c; unfold coef_fits, wf; apply _. Defined.

#[export] Instance LinearModel_estimator : Estimator LinearModel := {
  est_fit X _ e :=
    if decide (coef_fits (lm_coef e) (shape1 X))
    then (Ok tt, {| lm_coef := lm_coef e; lm_fitted := true |})
    else (Raise (Exn ValueError "X has a different number of features"), e);
  feature_importances_ _ := None;
  coef_ e := if lm_fitted e then Some (lm_coef e) else None;
  class_name _ := "Lasso";
  est_get_params _ _ := ∅;
  est_set_params ps e :=
    if decide (ps = ∅) then (Ok tt, e)
    else (Raise (Exn ValueError "Invalid parameter for estimator"), e);
}.

(** A [Lasso] constructor that takes no keyword arguments and whose fit
    will find the given coefficients. *)
Definition fixed_Lasso (c : coef) : pyval → gmap string pyval → result LinearModel :=
  λ _ kwargs,
    if decide (kwargs = ∅) then Ok {| lm_coef := c; lm_fitted := false |}
    else Raise (Exn TypeError "__init__() got an unexpected keyword argument").

(** A second store: the pipeline ["heart"] with two outer folds, the
    first with the configurations 1 and 2, the second with the
    configuration 3; fold numbers are read as small integers. *)
Definition two_fold_pipe : Investigator.MDBHyperpipe :=
  {| Investigator.name := "heart";
     Investigator.outer_folds :=
       [{| Investigator.tested_config_list := [demo_config 1; demo_config 2] |};
        {| Investigator.tested_config_list := [demo_config 3] |}] |}.

Definition two_fold_environment : Investigator.Environment := {|
  Investigator.render_template := λ tpl ctx,
    Ok (foldl (λ page c, page +:+ " " +:+ c.1) tpl
              (Investigator.ctx_config_dict_list ctx));
  Investigator.objects_get := λ name,
    if decide (name = "heart") then Ok two_fold_pipe
    else Raise (Exn DoesNotExist "MDBHyperpipe matching query does not exist");
  Investigator.int := λ s,
    if decide (s = "-1") then Ok (-1)
    else if decide (s = "0") then Ok 0
    else if decide (s = "1") then Ok 1
    else if decide (s = "2") then Ok 2
    else if decide (s = "3") then Ok 3
    else Raise (Exn ValueError "invalid literal for int() with base 10");
  Investigator.str := demo_str;
|}.

(** Floats used in the examples. *)
Definition half : float64 := of_ratio 1 2.
Definition two_pow_m60 : float64 := S754_finite false 4503599627370496 (-112).

End StandIns.

(* ===================================================================== *)
(** * Facts about binary64 rounding *)
(* ===================================================================== *)

Module FloatFacts.

Lemma digits2_pos_bounds (m : positive) :
  2 ^ (Z.pos (digits2_pos m) - 1) ≤ Z.pos m < 2 ^ Z.pos (digits2_pos m).
Proof.
  induction m as [m IH|m IH|]; cbn [digits2_pos].
  - rewrite Pos2Z.inj_succ.
    replace (Z.succ (Z.pos (digits2_pos m)) - 1) with (Z.succ (Z.pos (digits2_pos m) - 1)) by lia.
    rewrite !Z.pow_succ_r by lia. lia.
  - rewrite Pos2Z.inj_succ.
    replace (Z.succ (Z.pos (digits2_pos m)) - 1) with (Z.succ (Z.pos (digits2_pos m) - 1)) by lia.
    rewrite !Z.pow_succ_r by lia. lia.
  - cbn. lia.
Qed.

Lemma shr_1_inv M k x : 0 ≤ k → shr_inv M k x → shr_inv M (k + 1) (shr_1 x).
Proof.
  intros Hk (Hm & Hrem & Hloc). unfold shr_inv.
  rewrite Z.pow_add_r, Z.pow_1_r by lia.
  assert (HP : 0 < 2 ^ k) by (apply Z.pow_pos_nonneg; lia).
  destruct x as [m r s]; cbn [shr_m shr_r shr_s] in *.
  set (P := 2 ^ k) in *. clearbody P.
  remember (M - m * P) as rem eqn:Erem.
  destruct m as [|[p|p|]|p]; try lia; cbn [shr_1 shr_m shr_r shr_s].
  - replace (M - 0 * (P * 2)) with rem by (rewrite Erem; ring).
    destruct r, s; cbn [orb]; lia.
  - replace (M - Z.pos p * (P * 2)) with (rem + P)
      by (rewrite Erem, Pos2Z.inj_xI; ring).
    destruct r, s; cbn [orb]; lia.
  - replace (M - Z.pos p * (P * 2)) with rem
      by (rewrite Erem, Pos2Z.inj_xO; ring).
    destruct r, s; cbn [orb]; lia.
  - replace (M - 0 * (P * 2)) with (rem + P) by (rewrite Erem; ring).
    destruct r, s; cbn [orb]; lia.
Qed.

Lemma iter_pos_shr_inv p : ∀ M k x,
  0 ≤ k → shr_inv M k x → shr_inv M (k + Z.pos p) (SpecFloat.iter_pos shr_1 p x).
Proof.
  induction p as [p IH|p IH|]; intros M k x Hk Hx; cbn [iter_pos].
  - replace (k + Z.pos p~1) with (k + 1 + Z.pos p + Z.pos p) by lia.
    apply IH; [lia|]. apply IH; [lia|]. by apply shr_1_inv.
  - replace (k + Z.pos p~0) with (k + Z.pos p + Z.pos p) by lia.
    apply IH; [lia|]. by apply IH.
  - by apply shr_1_inv.
Qed.

Lemma shr_inv_rne M k x :
  0 ≤ k → shr_inv M k x →
  round_nearest_even (shr_m x) (loc_of_shr_record x) = rne M k.
Proof.
  intros Hk (Hm & Hrem & Hloc). unfold rne.
  assert (0 < 2 ^ k) by (apply Z.pow_pos_nonneg; lia).
  assert (Hq : M / 2 ^ k = shr_m x).
  { symmetry. apply (Z.div_unique M (2 ^ k) (shr_m x) (M - shr_m x * 2 ^ k)); lia. }
  assert (Hr : M mod 2 ^ k = M - shr_m x * 2 ^ k).
  { symmetry. apply (Z.mod_unique M (2 ^ k) (shr_m x) (M - shr_m x * 2 ^ k)); lia. }
  rewrite Hq, Hr.
  destruct x as [m r s]; cbn [shr_m shr_r shr_s loc_of_shr_record] in *.
  destruct r, s; cbn [round_nearest_even];
    destruct (Z.compare_spec (2 * (M - m * 2 ^ k)) (2 ^ k)); (done || lia).
Qed.

Lemma shr_exact_spec M e n :
  0 ≤ M →
  let r := shr (shr_record_of_loc M loc_Exact) e n in
  shr_inv M (Z.max 0 n) r.1 ∧ r.2 = e + Z.max 0 n.
Proof.
  intros HM. 
  assert (H0 : shr_inv M 0 (shr_record_of_loc M loc_Exact)).
  { unfold shr_inv; cbn. lia. }
  destruct n as [|p|p]; cbn [shr fst snd].
  - split; [done|lia].
  - split; [|lia]. rewrite Z.max_r by lia.
    apply (iter_pos_shr_inv p M 0); [lia|done].
  - split; [done|lia].
Qed.

Lemma rne_nonneg M k : 0 ≤ M → 0 ≤ k → 0 ≤ rne M k.
Proof.
  intros. unfold rne.
  assert (0 < 2 ^ k) by (apply Z.pow_pos_nonneg; lia).
  assert (0 ≤ M / 2 ^ k) by (apply Z.div_pos; lia).
  repeat case_match; lia.
Qed.

Lemma binary_round_aux_exact s M E :
  0 ≤ M →
  binary_round_aux prec emax s M E loc_Exact = round_result s M E.
Proof.
  intros HM. unfold binary_round_aux, round_result, shr_fexp.
  fold fexp64.
  set (k := Z.max 0 (fexp64 (Zdigits2 M + E) - E)).
  pose proof (shr_exact_spec M E (fexp64 (Zdigits2 M + E) - E) HM) as H1.
  cbn zeta in H1. fold k in H1.
  destruct (shr (shr_record_of_loc M loc_Exact) E _) as [x1 e1].
  cbn [fst snd] in H1. destruct H1 as [H1 ->].
  assert (Hk : 0 ≤ k) by (unfold k; lia).
  rewrite (shr_inv_rne M k x1 Hk H1).
  assert (Hm2 : 0 ≤ rne M k) by (apply rne_nonneg; lia).
  set (k2 := Z.max 0 (fexp64 (Zdigits2 (rne M k) + (E + k)) - (E + k))).
  pose proof (shr_exact_spec (rne M k) (E + k)
     (fexp64 (Zdigits2 (rne M k) + (E + k)) - (E + k)) Hm2) as H2.
  cbn zeta in H2. fold k2 in H2.
  destruct (shr (shr_record_of_loc (rne M k) loc_Exact) (E + k) _) as [x2 e2].
  cbn [fst snd] in H2. destruct H2 as [H2 ->].
  assert (Hk2 : 0 ≤ k2) by (unfold k2; lia).
  destruct H2 as (Hm & Hrem & _).
  assert (0 < 2 ^ k2) by (apply Z.pow_pos_nonneg; lia).
  assert (Hq : rne M k / 2 ^ k2 = shr_m x2).
  { symmetry. apply (Z.div_unique _ (2 ^ k2) (shr_m x2) (rne M k - shr_m x2 * 2 ^ k2)); lia. }
  by rewrite Hq.
Qed.

Lemma pow2_pos k : 0 ≤ k → 0 < 2 ^ k.
Proof. intros. apply Z.pow_pos_nonneg; lia. Qed.

Lemma pow2_split a b : 0 ≤ a → 0 ≤ b → 2 ^ (a + b) = 2 ^ a * 2 ^ b.
Proof. intros. by rewrite Z.pow_add_r. Qed.

Lemma pow2_le a b : 0 ≤ a ≤ b → 2 ^ a ≤ 2 ^ b.
Proof. intros. apply Z.pow_le_mono_r; lia. Qed.

Lemma pow2_lt_inv a b : 0 ≤ a → 0 ≤ b → 2 ^ a < 2 ^ b → a < b.
Proof. intros ? ? H. apply (Z.pow_lt_mono_r_iff 2); lia. Qed.

Lemma rne_div M k :
  0 ≤ k → 0 ≤ M → rne M k = M / 2 ^ k ∨ rne M k = M / 2 ^ k + 1 ∧ 2 ^ k ≤ 2 * (M mod 2 ^ k).
Proof.
  intros Hk HM. unfold rne.
  destruct (Z.compare_spec (2 * (M mod 2 ^ k)) (2 ^ k)); [|by left|right; lia].
  destruct (Z.even _); [by left|right; lia].
Qed.

Lemma rne_zero_shift M : rne M 0 = M.
Proof.
  unfold rne. rewrite Z.pow_0_r, Z.div_1_r, Z.mod_1_r. reflexivity.
Qed.

(** When the distance to a multiple of the unit exceeds half a unit,
    rounding stays strictly below it. *)
Lemma rne_lt M k B D :
  0 ≤ k → 0 ≤ M → M + D ≤ B * 2 ^ k → 2 ^ k < 2 * D → rne M k < B.
Proof.
  intros Hk HM HB HD. pose proof (pow2_pos k Hk) as HP.
  pose proof (Z.div_mod M (2 ^ k) ltac:(lia)) as Hdm.
  pose proof (Z.mod_pos_bound M (2 ^ k) HP) as Hr.
  pose proof (rne_div M k Hk HM) as Hrd.
  set (q := M / 2 ^ k) in *. set (r := M mod 2 ^ k) in *. set (P := 2 ^ k) in *.
  destruct Hrd as [->|[-> Hh]].
  - nia.
  - assert (q + 1 < B ∨ B ≤ q + 1) as [|] by lia; [done|]. nia.
Qed.

Lemma Zdigits2_bounds M :
  0 < M → 2 ^ (Zdigits2 M - 1) ≤ M < 2 ^ Zdigits2 M ∧ 0 < Zdigits2 M.
Proof.
  destruct M as [|m|m]; [lia| |lia]. intros _. cbn [Zdigits2].
  split; [apply digits2_pos_bounds|lia].
Qed.

Lemma Zdigits2_le M d : 0 < M → 0 ≤ d → M < 2 ^ d → Zdigits2 M ≤ d.
Proof.
  intros HM Hd Hlt. destruct (Zdigits2_bounds M HM) as [[Hlo _] Hpos].
  assert (Zdigits2 M - 1 < d); [|lia].
  apply pow2_lt_inv; lia.
Qed.

(** What [round_result] returns: zero when the mantissa vanishes,
    otherwise a finite number or an infinity of the sign given; the
    mantissa is below [2^53], the exponent at least [emin], and the value
    does not exceed the rounded mantissa. *)
Lemma round_result_inv s M E :
  0 ≤ M →
  let k := Z.max 0 (fexp64 (Zdigits2 M + E) - E) in
  ∃ m3 k2,
    0 ≤ k2 ∧ 0 ≤ m3 ∧ m3 * 2 ^ k2 ≤ rne M k ∧
    m3 < 2 ^ prec ∧ emin64 ≤ E + k + k2 ∧
    round_result s M E =
      match m3 with
      | Z.pos m => if E + k + k2 <=? emax - prec
                   then S754_finite s m (E + k + k2) else S754_infinity s
      | _ => S754_zero s
      end.
Proof.
  intros HM k. unfold round_result. fold k.
  set (m2 := rne M k). set (e2 := E + k).
  set (k2 := Z.max 0 (fexp64 (Zdigits2 m2 + e2) - e2)).
  assert (Hk : 0 ≤ k) by (unfold k; lia).
  assert (Hk2 : 0 ≤ k2) by (unfold k2; lia).
  assert (Hm2 : 0 ≤ m2) by (apply rne_nonneg; lia).
  pose proof (pow2_pos k2 Hk2) as HP.
  pose proof (Z.div_mod m2 (2 ^ k2) ltac:(lia)) as Hdm.
  pose proof (Z.mod_pos_bound m2 (2 ^ k2) HP) as Hr.
  assert (H0 : 0 ≤ m2 / 2 ^ k2) by (apply Z.div_pos; lia).
  exists (m2 / 2 ^ k2), k2. split_and!; try done.
  - nia.
  - assert (m2 = 0 ∨ 0 < m2) as [->|Hpos] by lia.
    { rewrite Z.div_0_l by lia. apply pow2_pos. unfold prec; lia. }
    destruct (Zdigits2_bounds m2 Hpos) as [[_ Hhi] Hd].
    assert (Zdigits2 m2 - prec ≤ k2).
    { unfold k2, fexp64, fexp. lia. }
    assert (2 ^ Zdigits2 m2 ≤ 2 ^ (prec + k2)) by (apply pow2_le; lia).
    rewrite pow2_split in * by (unfold prec; lia).
    assert (0 < 2 ^ prec) by (apply pow2_pos; unfold prec; lia).
    nia.
  - unfold k2, fexp64, fexp, emin64. lia.
  - destruct (m2 / 2 ^ k2); (done || lia).
Qed.

Lemma floor_finite_lt m e k2 e2 n :
  0 ≤ k2 → e2 ≤ 0 → e = e2 + k2 →
  Z.pos m * 2 ^ k2 < n * 2 ^ (- e2) →
  0 ≤ floor_finite false m e < n.
Proof.
  intros Hk2 He2 -> Hlt. unfold floor_finite. cbn [cond_Zopp].
  split; [apply Z.shiftl_nonneg; lia|].
  assert (HP2 := pow2_pos k2 Hk2).
  destruct (Z.le_gt_cases 0 (e2 + k2)) as [Hle|Hgt].
  - rewrite Z.shiftl_mul_pow2 by done.
    replace k2 with ((e2 + k2) + (- e2)) in Hlt at 1 by lia.
    rewrite pow2_split in Hlt by lia.
    assert (0 < 2 ^ (- e2)) by (apply pow2_pos; lia).
    nia.
  - rewrite Z.shiftl_div_pow2 by lia.
    assert (0 < 2 ^ (- (e2 + k2))) by (apply pow2_pos; lia).
    apply Z.div_lt_upper_bound; [done|].
    replace (- e2) with (k2 + - (e2 + k2)) in Hlt by lia.
    rewrite pow2_split in Hlt by lia.
    nia.
Qed.

(** The product of a float below one with an exactly represented count
    [n], rounded, is still below [n]. *)
Lemma mul_floor_lt mu eu mn en n :
  Z.pos mu < 2 ^ prec → emin64 ≤ eu → eu < 0 → Z.pos mu < 2 ^ (- eu) →
  2 ^ (prec - 1) ≤ Z.pos mn < 2 ^ prec → 1 - prec ≤ en ≤ 0 →
  Z.pos mn = n * 2 ^ (- en) →
  ∃ i, int_floor (mul (S754_finite false mu eu) (S754_finite false mn en)) = Ok i
       ∧ 0 ≤ i < n.
Proof.
  intros Hmu Heu Heu0 Hu1 Hmn Hen Hn.
  unfold mul. cbn [SFmul xorb].
  rewrite binary_round_aux_exact by lia.
  set (M := Z.pos (mu * mn)). set (E := eu + en).
  assert (HM : M = Z.pos mu * Z.pos mn) by (unfold M; lia).
  assert (HMpos : 0 < M) by lia.
  destruct (round_result_inv false M E ltac:(lia))
    as (m3 & k2 & Hk2 & Hm3 & Hle & Hm3p & Hemin & ->).
  set (k := Z.max 0 (fexp64 (Zdigits2 M + E) - E)) in *.
  destruct (Zdigits2_bounds M HMpos) as [[HdLo HdHi] Hd].
  set (dM := Zdigits2 M) in *.
  assert (Hp53 : 2 ^ prec = 2 * 2 ^ (prec - 1)) by reflexivity.
  assert (HPeu := pow2_pos (- eu) ltac:(lia)).
  assert (HPen := pow2_pos (- en) ltac:(lia)).
  assert (HP52 : 0 < 2 ^ (prec - 1)) by (apply pow2_pos; unfold prec; lia).
  assert (Hn0 : 0 < n).
  { apply (Z.mul_pos_cancel_r _ (2 ^ (- en))); lia. }
  assert (Hnlt : n < 2 ^ prec).
  { assert (n ≤ n * 2 ^ (- en)) by (apply Z.le_mul_diag_r; lia). lia. }
  (* the product is below 2^(53 - eu) *)
  assert (HMlt : M < 2 ^ (prec + - eu)).
  { rewrite pow2_split, HM, (Z.mul_comm (Z.pos mu)) by (unfold prec; lia).
    apply Z.mul_lt_mono_nonneg; lia. }
  assert (HdM : dM ≤ prec - eu).
  { apply Zdigits2_le; [done|unfold prec; lia|].
    replace (prec - eu) with (prec + - eu) by lia. done. }
  assert (Hk : 0 ≤ k) by (unfold k; lia).
  assert (Hkeu : k ≤ - eu).
  { unfold k, fexp64, fexp, E, emin64, emin, prec, emax in *. lia. }
  assert (Hkcase : k ≤ prec - 1 ∨ (k = dM - prec ∧ 0 < k)).
  { unfold k, fexp64, fexp, E, emin64, emin, prec, emax in *. lia. }
  set (j := - eu - k).
  assert (HPj := pow2_pos j ltac:(lia)).
  assert (HPk := pow2_pos k Hk).
  assert (HBk : Z.pos mn * 2 ^ j * 2 ^ k = Z.pos mn * 2 ^ (- eu)).
  { rewrite <- Z.mul_assoc, <- pow2_split by lia. f_equal. f_equal. lia. }
  (* half a unit of the result is less than the distance to n *)
  assert (HD : 2 ^ k < 2 * (Z.pos mn * 2 ^ (- eu) - M)).
  { assert (Z.pos mn * (Z.pos mu + 1) ≤ Z.pos mn * 2 ^ (- eu))
      by (apply Z.mul_le_mono_nonneg_l; lia).
    assert (Z.pos mn ≤ Z.pos mn * 2 ^ (- eu) - M) by lia.
    destruct Hkcase as [Hk52|[Hkd Hk0]].
    - assert (2 ^ k ≤ 2 ^ (prec - 1)) by (apply pow2_le; lia). lia.
    - assert (HdM1 : dM - 1 = k + (prec - 1)) by lia.
      rewrite HdM1, pow2_split in HdLo by (unfold prec; lia).
      assert (M < 2 ^ prec * Z.pos mn).
      { rewrite HM. apply Z.mul_lt_mono_pos_r; lia. }
      assert (2 ^ k < 2 * Z.pos mn); [|lia].
      apply (Z.mul_lt_mono_pos_r (2 ^ (prec - 1))); lia. }
  assert (Hrne : rne M k < Z.pos mn * 2 ^ j).
  { apply (rne_lt M k _ (Z.pos mn * 2 ^ (- eu) - M)); [lia|lia| |done]. lia. }
  assert (He2 : E + k ≤ 0) by (unfold E; lia).
  assert (HBn : Z.pos mn * 2 ^ j = n * 2 ^ (- (E + k))).
  { rewrite Hn, <- Z.mul_assoc, <- pow2_split by lia. f_equal. f_equal.
    unfold j, E. lia. }
  assert (Hval : m3 * 2 ^ k2 < n * 2 ^ (- (E + k))) by lia.
  destruct m3 as [|m|m]; [exists 0; cbn; split; [done|lia]| |lia].
  assert (Hk2lt : k2 < prec + - (E + k)).
  { apply pow2_lt_inv; [lia|unfold prec; lia|].
    rewrite pow2_split by (unfold prec; lia).
    assert (HPe := pow2_pos (- (E + k)) ltac:(lia)).
    assert (HPk2 := pow2_pos k2 Hk2).
    assert (1 * 2 ^ k2 ≤ Z.pos m * 2 ^ k2)
      by (apply Z.mul_le_mono_nonneg_r; lia).
    assert (n * 2 ^ (- (E + k)) < 2 ^ prec * 2 ^ (- (E + k)))
      by (apply Z.mul_lt_mono_pos_r; lia).
    lia. }
  destruct (Z.leb_spec (E + k + k2) (emax - prec)) as [_|Hov];
    [|unfold prec, emax in *; lia].
  eexists. split; [reflexivity|].
  apply (floor_finite_lt m _ k2 (E + k)); (done || lia).
Qed.

Lemma pos_iter_xO m d : Z.pos (Pos.iter xO m d) = Z.pos m * 2 ^ Z.pos d.
Proof.
  induction d as [|d IH] using Pos.peano_ind.
  - cbn. lia.
  - rewrite Pos.iter_succ, Pos2Z.inj_xO, IH, Pos2Z.inj_succ, Z.pow_succ_r by lia.
    lia.
Qed.

(** [shl_align] lowers the exponent to [e'] when that is smaller and keeps
    the value. *)
Lemma shl_align_spec m e e' :
  let r := shl_align m e e' in
  r.2 = Z.min e e' ∧ Z.pos r.1 = Z.pos m * 2 ^ (e - r.2).
Proof.
  unfold shl_align. destruct (e' - e) as [|d|d] eqn:Hd; cbn [fst snd].
  - split; [lia|]. rewrite Z.sub_diag. lia.
  - split; [lia|]. rewrite Z.sub_diag. lia.
  - split; [lia|]. rewrite pos_iter_xO. f_equal. f_equal. lia.
Qed.

(** A mantissa that needs no rounding is returned as it is. *)
Lemma round_result_exact s m E :
  fexp64 (Z.pos (digits2_pos m) + E) ≤ E → E ≤ emax - prec →
  round_result s (Z.pos m) E = S754_finite s m E.
Proof.
  intros Hf HE. unfold round_result. cbn [Zdigits2].
  rewrite (Z.max_l 0) by lia. rewrite rne_zero_shift, Z.add_0_r.
  cbn [Zdigits2]. rewrite (Z.max_l 0) by lia.
  rewrite Z.pow_0_r, Z.div_1_r, Z.add_0_r.
  destruct (Z.leb_spec E (emax - prec)); [done|lia].
Qed.

(** A count below [2^53] is converted exactly, to a normal number. *)
Lemma of_Z_exact n :
  0 < n < 2 ^ prec →
  ∃ mn en, of_Z n = S754_finite false mn en ∧
           2 ^ (prec - 1) ≤ Z.pos mn < 2 ^ prec ∧ 1 - prec ≤ en ≤ 0 ∧
           Z.pos mn = n * 2 ^ (- en).
Proof.
  intros [Hn0 Hn]. destruct n as [|p|p]; try lia.
  unfold of_Z. cbn [binary_normalize]. unfold binary_round.
  destruct (digits2_pos_bounds p) as [Hlo Hhi].
  set (d := Z.pos (digits2_pos p)) in *.
  assert (Hd : 0 < d ≤ prec).
  { split; [unfold d; lia|]. apply (Zdigits2_le (Z.pos p)); [lia|unfold prec; lia|done]. }
  rewrite Z.add_0_r.
  assert (Hfe : fexp prec emax d = d - prec).
  { unfold fexp, emin, prec, emax in *. lia. }
  rewrite Hfe.
  pose proof (shl_align_spec p 0 (d - prec)) as Hs. cbn zeta in Hs.
  destruct (shl_align p 0 (d - prec)) as [mz ez]. cbn [fst snd] in Hs.
  destruct Hs as [Hez Hmz].
  rewrite Z.min_r in Hez by lia. subst ez.
  rewrite binary_round_aux_exact by lia.
  replace (0 - (d - prec)) with (prec - d) in Hmz by lia.
  assert (Hmzb : 2 ^ (prec - 1) ≤ Z.pos mz < 2 ^ prec).
  { assert (E1 : 2 ^ (prec - 1) = 2 ^ (d - 1) * 2 ^ (prec - d)).
    { rewrite <- pow2_split by lia. f_equal. lia. }
    assert (E2 : 2 ^ prec = 2 ^ d * 2 ^ (prec - d)).
    { rewrite <- pow2_split by lia. f_equal. lia. }
    assert (0 < 2 ^ (prec - d)) by (apply pow2_pos; lia).
    rewrite Hmz. split.
    - rewrite E1. apply Z.mul_le_mono_nonneg_r; lia.
    - rewrite E2. apply Z.mul_lt_mono_pos_r; lia. }
  assert (Hdz : Z.pos (digits2_pos mz) = prec).
  { destruct (digits2_pos_bounds mz) as [Hlo' Hhi'].
    assert (Z.pos (digits2_pos mz) ≤ prec).
    { apply (Zdigits2_le (Z.pos mz)); [lia|unfold prec; lia|lia]. }
    assert (prec - 1 < Z.pos (digits2_pos mz)); [|lia].
    apply pow2_lt_inv; [unfold prec; lia|lia|lia]. }
  rewrite round_result_exact.
  - exists mz, (d - prec). split_and!; try done; try lia.
    rewrite Hmz. f_equal. f_equal. lia.
  - rewrite Hdz. unfold fexp64, fexp, emin, prec, emax in *. lia.
  - unfold prec, emax in *. lia.
Qed.

(** [1 - t], rounded, is below one when [t] is a normal number with
    [2^-54 < t < 1]: [m1 * 2^e1] is one. *)
Lemma one_minus_below_one m1 e1 mt et :
  Z.pos m1 = 2 ^ (prec - 1) → e1 = 1 - prec →
  2 ^ (prec - 1) ≤ Z.pos mt < 2 ^ prec → - 2 * prec ≤ et ≤ - prec →
  (et = - 2 * prec → 2 ^ (prec - 1) < Z.pos mt) →
  let u := sub (S754_finite false m1 e1) (S754_finite false mt et) in
  u = S754_zero false ∨
  ∃ mu eu, u = S754_finite false mu eu ∧
           Z.pos mu < 2 ^ prec ∧ emin64 ≤ eu ∧ eu < 0 ∧ Z.pos mu < 2 ^ (- eu).
Proof.
  intros Hm1 He1 Hmt Het Hlow. unfold sub. cbn [SFsub cond_Zopp].
  assert (Hprec : prec = 53) by reflexivity.
  rewrite (Z.min_r e1 et) by lia.
  pose proof (shl_align_spec m1 e1 et) as H1.
  pose proof (shl_align_spec mt et et) as H2. cbn zeta in H1, H2.
  destruct (shl_align m1 e1 et) as [a ea], (shl_align mt et et) as [b eb].
  cbn [fst snd] in *. destruct H1 as [Hea Ha], H2 as [Heb Hb].
  rewrite Z.min_r in Hea by lia. rewrite Z.min_id in Heb. subst ea eb.
  rewrite Z.sub_diag, Z.pow_0_r, Z.mul_1_r in Hb.
  assert (Ha' : Z.pos a = 2 ^ (- et)).
  { rewrite Ha, Hm1, <- pow2_split by lia. f_equal. lia. }
  assert (H53 : 2 ^ prec ≤ 2 ^ (- et)) by (apply pow2_le; lia).
  destruct (Z.pos a - Z.pos b) as [|pd|pd] eqn:Hpd; try lia.
  cbn [binary_normalize]. unfold binary_round.
  set (e' := fexp prec emax (Z.pos (digits2_pos pd) + et)).
  pose proof (shl_align_spec pd et e') as H3. cbn zeta in H3.
  destruct (shl_align pd et e') as [mz ez]. cbn [fst snd] in H3.
  destruct H3 as [Hez Hmz].
  assert (Hezle : ez ≤ et) by lia. clear Hez. clearbody e'.
  rewrite binary_round_aux_exact by lia.
  destruct (round_result_inv false (Z.pos mz) ez ltac:(lia))
    as (m3 & k2 & Hk2 & Hm3 & Hle & Hm3p & Hemin & ->).
  set (M := Z.pos mz) in *.
  set (k := Z.max 0 (fexp64 (Zdigits2 M + ez) - ez)) in *.
  set (s := et - ez) in *.
  assert (HPs := pow2_pos s ltac:(unfold s; lia)).
  (* M + Dd = 2^(-ez) *)
  assert (Hsum : M + Z.pos mt * 2 ^ s = 2 ^ (- ez)).
  { replace (- ez) with (- et + s) by (unfold s; lia).
    rewrite pow2_split by (unfold s; lia). rewrite Hmz.
    replace (Z.pos pd) with (2 ^ (- et) - Z.pos mt) by lia. ring. }
  assert (HDpos : 0 < Z.pos mt * 2 ^ s) by (apply Z.mul_pos_pos; lia).
  assert (HMlt : M < 2 ^ (- ez)) by lia.
  assert (HdM : Zdigits2 M ≤ - ez).
  { apply Zdigits2_le; [unfold M; lia|lia|done]. }
  assert (Hk : 0 ≤ k ≤ - prec - et + s).
  { unfold k, fexp64, fexp, emin, s, prec, emax in *. lia. }
  (* half a unit of the result is less than what is subtracted *)
  assert (HkD : 2 ^ k < 2 * (Z.pos mt * 2 ^ s)).
  { assert (H2k : 2 ^ k ≤ 2 ^ (- prec - et + s)) by (apply pow2_le; lia).
    rewrite pow2_split in H2k by (unfold s; lia).
    assert (Hq : 2 ^ (- prec - et) < 2 * Z.pos mt).
    { destruct (Z.eq_dec et (- 2 * prec)) as [->|Hne].
      - specialize (Hlow eq_refl).
        replace (- prec - - 2 * prec) with prec by lia.
        change (2 ^ prec) with (2 * 2 ^ (prec - 1)). lia.
      - assert (2 ^ (- prec - et) ≤ 2 ^ (prec - 1)) by (apply pow2_le; lia).
        lia. }
    assert (2 ^ (- prec - et) * 2 ^ s < 2 * Z.pos mt * 2 ^ s)
      by (apply Z.mul_lt_mono_pos_r; lia).
    lia. }
  assert (He2 : ez + k < 0) by (unfold s in *; lia).
  assert (HB : 2 ^ (- (ez + k)) * 2 ^ k = 2 ^ (- ez)).
  { rewrite <- pow2_split by lia. f_equal. lia. }
  assert (Hrne : rne M k < 2 ^ (- (ez + k))).
  { apply (rne_lt M k _ (Z.pos mt * 2 ^ s)); [lia|unfold M; lia|lia|lia]. }
  destruct m3 as [|m|m]; [by left| |lia]. right.
  assert (HPk2 := pow2_pos k2 Hk2).
  assert (Hk2lt : k2 < - (ez + k)).
  { apply pow2_lt_inv; [lia|lia|].
    assert (1 * 2 ^ k2 ≤ Z.pos m * 2 ^ k2)
      by (apply Z.mul_le_mono_nonneg_r; lia).
    lia. }
  destruct (Z.leb_spec (ez + k + k2) (emax - prec)) as [_|Hov];
    [|unfold prec, emax in *; lia].
  eexists _, _. split; [reflexivity|]. split_and!; try done; try lia.
  assert (HB2 : 2 ^ (- (ez + k)) = 2 ^ (- (ez + k + k2)) * 2 ^ k2).
  { rewrite <- pow2_split by lia. f_equal. lia. }
  apply (Z.mul_lt_mono_pos_r (2 ^ k2)); lia.
Qed.

Lemma one_eq : one = S754_finite false 4503599627370496 (-52).
Proof. reflexivity. Qed.

Lemma leb_finite_pos m1 e1 m2 e2 :
  leb (S754_finite false m1 e1) (S754_finite false m2 e2) = true ↔
  e1 < e2 ∨ (e1 = e2 ∧ Z.pos m1 ≤ Z.pos m2).
Proof.
  unfold leb, SFleb, SFcompare.
  destruct (Z.compare_spec e1 e2) as [He|He|He].
  - change (Pos.compare_cont Eq m1 m2) with (Pos.compare m1 m2).
    destruct (Pos.compare_spec m1 m2); split; (done || lia).
  - split; [lia|done].
  - split; [done|lia].
Qed.

Lemma ltb_finite_pos m1 e1 m2 e2 :
  ltb (S754_finite false m1 e1) (S754_finite false m2 e2) = true ↔
  e1 < e2 ∨ (e1 = e2 ∧ Z.pos m1 < Z.pos m2).
Proof.
  unfold ltb, SFltb, SFcompare.
  destruct (Z.compare_spec e1 e2) as [He|He|He].
  - change (Pos.compare_cont Eq m1 m2) with (Pos.compare m1 m2).
    destruct (Pos.compare_spec m1 m2); split; (done || lia).
  - split; [lia|done].
  - split; [done|lia].
Qed.

(** A valid float with an exponent above [emin] has a full mantissa. *)
Lemma valid_normal m e :
  valid (S754_finite false m e) = true → emin64 < e →
  2 ^ (prec - 1) ≤ Z.pos m < 2 ^ prec.
Proof.
  unfold valid, valid_binary, bounded, canonical_mantissa.
  intros [Hc _]%andb_true_iff He. apply Z.eqb_eq in Hc.
  assert (Hd : Z.pos (digits2_pos m) = prec).
  { unfold fexp, emin64, emin, prec, emax in *. lia. }
  pose proof (digits2_pos_bounds m) as Hb. by rewrite Hd in Hb.
Qed.

(** For a threshold above [2^-54] and up to one, the index
    [int(np.floor((1 - threshold) * n))] exists and is below [n]. *)
Lemma percentile_index_in_range t (n : nat) :
  valid t = true → ltb pow2_m54 t = true → leb t one = true →
  (0 < n)%nat → Z.of_nat n < 2 ^ prec →
  ∃ i, ModelSelector.percentile_index t n = Ok i ∧ 0 ≤ i < Z.of_nat n.
Proof.
  intros Hv Hlo Hhi Hn Hnlt. unfold ModelSelector.percentile_index.
  destruct (of_Z_exact (Z.of_nat n) ltac:(lia))
    as (mn & en & -> & Hmn & Hen & Hnval).
  destruct t as [s|s| |s mt et]; try done; try (by destruct s).
  destruct s; [done|].
  rewrite one_eq in Hhi. unfold pow2_m54 in Hlo.
  apply leb_finite_pos in Hhi. apply ltb_finite_pos in Hlo.
  assert (Het : - 2 * prec ≤ et ≤ 1 - prec) by (unfold prec; lia).
  pose proof (valid_normal mt et Hv ltac:(unfold emin64, emin, prec, emax in *; lia))
    as Hmt.
  assert (et = 1 - prec ∨ et ≤ - prec) as [He|He] by (unfold prec in *; lia).
  - (* the threshold is one *)
    assert (mt = 4503599627370496%positive) as ->.
    { apply Pos2Z.inj. change (Z.pos 4503599627370496) with (2 ^ (prec - 1)).
      unfold prec in *. lia. }
    subst et. exists 0. split; [|lia].
    assert (sub one (S754_finite false 4503599627370496 (1 - prec)) = S754_zero false)
      as -> by reflexivity.
    reflexivity.
  - rewrite one_eq.
    destruct (one_minus_below_one 4503599627370496 (-52) mt et)
      as [->|(mu & eu & -> & Hmu & Heu & Heu0 & Hu1)];
      [reflexivity|reflexivity|done|lia| | |].
    + intros ->. unfold prec in *. lia.
    + exists 0. split; [reflexivity|lia].
    + by apply mul_floor_lt.
Qed.

End FloatFacts.

(* ===================================================================== *)
(** * Facts about the numpy operations *)
(* ===================================================================== *)

Module NpFacts.

Lemma where_from_elem mask : ∀ i j,
  j ∈ where_from i mask ↔ ∃ k, j = (i + k)%nat ∧ mask !! k = Some true.
Proof.
  induction mask as [|b mask IH]; intros i j; cbn [where_from].
  - split; [by intros ?%elem_of_nil|by intros (k & _ & ?)].
  - assert (Htl : j ∈ where_from (S i) mask ↔
                  ∃ k, j = (i + S k)%nat ∧ mask !! k = Some true).
    { rewrite IH. split; intros (k & -> & Hk); exists k; split; (done || lia). }
    destruct b.
    + rewrite elem_of_cons, Htl. split.
      * intros [->|(k & -> & Hk)]; [exists 0%nat|exists (S k)]; split; (done || lia).
      * intros ([|k] & -> & Hk); [left; lia|right; eauto].
    + rewrite Htl. split.
      * intros (k & -> & Hk). by exists (S k).
      * intros ([|k] & -> & Hk); [done|eauto].
Qed.

Lemma where_elem mask j : j ∈ where_ mask ↔ mask !! j = Some true.
Proof.
  unfold where_. rewrite where_from_elem. split.
  - by intros (k & -> & Hk).
  - intros Hj. by exists j.
Qed.

Lemma where_from_sorted mask : ∀ i, StronglySorted lt (where_from i mask).
Proof.
  induction mask as [|b mask IH]; intros i; cbn [where_from]; [constructor|].
  destruct b; [|apply IH].
  constructor; [apply IH|].
  apply Forall_forall. intros j (k & -> & _)%where_from_elem. lia.
Qed.

(** The indices come in increasing order, without repetition. *)
Lemma where_sorted mask : StronglySorted lt (where_ mask).
Proof. apply where_from_sorted. Qed.

Lemma where_lt mask : Forall (λ j, (j < length mask)%nat) (where_ mask).
Proof.
  apply Forall_forall. intros j Hj%where_elem. by apply lookup_lt_Some in Hj.
Qed.

Lemma where_fmap_elem {A} (f : A → bool) (l : list A) j :
  j ∈ where_ (f <$> l) ↔ ∃ v, l !! j = Some v ∧ f v = true.
Proof.
  rewrite where_elem, list_lookup_fmap. destruct (l !! j) as [v|]; cbn.
  - split; [intros [= ?]; eauto|by intros (? & [= <-] & ->)].
  - split; [done|by intros (? & ? & _)].
Qed.

Lemma where_fmap_lt {A} (f : A → bool) (l : list A) :
  Forall (λ j, (j < length l)%nat) (where_ (f <$> l)).
Proof. pose proof (where_lt (f <$> l)) as H. by rewrite length_fmap in H. Qed.

Lemma length_pick row idx : length (pick row idx) = length idx.
Proof. unfold pick. by rewrite length_fmap. Qed.

Lemma getitem_cols_ok X idx :
  Forall (λ i, (i < shape1 X)%nat) idx →
  getitem_cols X idx =
    Ok {| shape1 := length idx; rows := (λ r, pick r idx) <$> rows X |}.
Proof. intros H. unfold getitem_cols. by rewrite decide_True. Qed.

Lemma getitem_cols_inv X idx Y :
  getitem_cols X idx = Ok Y →
  Forall (λ i, (i < shape1 X)%nat) idx ∧
  Y = {| shape1 := length idx; rows := (λ r, pick r idx) <$> rows X |}.
Proof. unfold getitem_cols. case_decide; [|done]. by intros [= <-]. Qed.

(** Column [j] of [X[:, idx]] is column [idx[j]] of [X]. *)
Lemma getitem_cols_entry X idx Y r j i :
  wf X → getitem_cols X idx = Ok Y → idx !! j = Some i →
  entry Y r j = entry X r i.
Proof.
  intros Hwf [Hidx ->]%getitem_cols_inv Hj. unfold entry. cbn [rows].
  rewrite list_lookup_fmap. destruct (rows X !! r) as [row|] eqn:Hr; [|done].
  cbn. unfold pick. rewrite list_lookup_fmap, Hj. cbn.
  assert (Hlen : length row = shape1 X).
  { eapply (proj1 (Forall_forall _ _) Hwf), list_elem_of_lookup_2, Hr. }
  assert (Hi : (i < shape1 X)%nat).
  { eapply (proj1 (Forall_forall _ _) Hidx), list_elem_of_lookup_2, Hj. }
  destruct (lookup_lt_is_Some_2 row i) as [v Hv]; [lia|]. by rewrite Hv.
Qed.

(** Storing the picked values of a row back at their indices. *)
Lemma assign_pick idx : ∀ rt row c,
  Forall (λ i, (i < length rt)%nat) idx →
  assign_row rt idx (pick row idx) !! c =
    if decide (c ∈ idx) then Some (default zero (row !! c)) else rt !! c.
Proof.
  unfold assign_row, pick.
  induction idx as [|i idx IH]; intros rt row c Hall; cbn [fmap list_fmap zip zip_with foldl].
  - rewrite decide_False; [done|apply not_elem_of_nil].
  - apply Forall_cons in Hall as [Hi Hall].
    cbn [fst snd]. rewrite IH by (by rewrite length_insert).
    destruct (decide (c ∈ idx)) as [Hc|Hc].
    + rewrite decide_True; [done|by right].
    + destruct (decide (c = i)) as [->|Hne].
      * rewrite decide_True by left. by rewrite list_lookup_insert_eq.
      * rewrite decide_False by (intros [?|?]%elem_of_cons; done).
        by rewrite list_lookup_insert_ne.
Qed.

Lemma setitem_cols_ok Xt idx X :
  Forall (λ i, (i < shape1 Xt)%nat) idx →
  shape0 X = shape0 Xt → shape1 X = length idx →
  setitem_cols Xt idx X =
    Ok {| shape1 := shape1 Xt;
          rows := zip_with (λ rt rx, assign_row rt idx rx) (rows Xt) (rows X) |}.
Proof.
  intros H1 H2 H3. unfold setitem_cols.
  rewrite decide_True by done. by rewrite decide_True.
Qed.

Lemma setitem_cols_raises_ValueError Xt idx X msg :
  setitem_cols Xt idx X = Raise (Exn ValueError msg) →
  ¬ (shape0 X = shape0 Xt ∧ shape1 X = length idx).
Proof. unfold setitem_cols. repeat case_decide; done. Qed.

Lemma getitem_in_range {A} (a : list A) (i : Z) :
  0 ≤ i < Z.of_nat (length a) → ∃ v, getitem a i = Ok v ∧ a !! Z.to_nat i = Some v.
Proof.
  intros Hi. unfold getitem.
  destruct (Z.ltb_spec i 0); [lia|].
  destruct (Z.ltb_spec i 0); [lia|].
  destruct (lookup_lt_is_Some_2 a (Z.to_nat i)) as [v Hv]; [lia|].
  rewrite Hv. eauto.
Qed.

Lemma sort_Permutation l : sort l ≡ₚ l.
Proof. apply merge_sort_Permutation. Qed.

End NpFacts.

Import NpFacts.

(* ===================================================================== *)
(** * Facts shared by the wrappers *)
(* ===================================================================== *)

Ltac run_method :=
  unfold m_bind, m_get, m_modify, m_lift, m_ret, m_raise, m_zoom in *;
  cbn [fst snd] in *.

Module InverseFacts.

(** The two steps of [inverse_transform] after the shape check: a zero
    array of the original width, then the columns stored back. *)
Lemma zeros_then_store_ok d sel X :
  Forall (λ i, (i < d)%nat) sel → shape1 X = length sel →
  ∃ Xt, setitem_cols (zeros (shape0 X) d) sel X = Ok Xt ∧
        shape1 Xt = d ∧ shape0 Xt = shape0 X ∧
        rows Xt = zip_with (λ rt rx, assign_row rt sel rx)
                    (replicate (shape0 X) (replicate d zero)) (rows X).
Proof.
  intros Hsel Hshape. eexists. split.
  - apply setitem_cols_ok; [done| |done].
    unfold shape0, zeros. cbn [rows]. by rewrite length_replicate.
  - cbn [shape1 rows zeros]. split_and!; [done| |done].
    unfold shape0. cbn [rows].
    rewrite length_zip_with, length_replicate. unfold shape0. lia.
Qed.

Lemma zeros_then_store_not_ValueError d sel X msg :
  shape1 X = length sel →
  setitem_cols (zeros (shape0 X) d) sel X ≠ Raise (Exn ValueError msg).
Proof.
  intros Hshape Hr. apply setitem_cols_raises_ValueError in Hr. apply Hr.
  split; [|done]. unfold shape0, zeros. cbn [rows]. by rewrite length_replicate.
Qed.

(** Undoing a column selection: the selected columns come back, the
    others are zero. *)
Lemma store_picked_entry d sel X Y Z r c :
  wf X → shape1 X = d → getitem_cols X sel = Ok Y →
  setitem_cols (zeros (shape0 Y) d) sel Y = Ok Z →
  (r < shape0 X)%nat → (c < d)%nat →
  entry Z r c = if decide (c ∈ sel) then entry X r c else Some zero.
Proof.
  intros Hwf Hd HY HZ Hr Hc.
  pose proof HY as [Hsel ->]%getitem_cols_inv.
  rewrite Hd in Hsel.
  destruct (zeros_then_store_ok d sel
              {| shape1 := length sel; rows := (λ r, pick r sel) <$> rows X |}
              Hsel eq_refl) as (Z' & HZ' & _ & _ & Hrows).
  rewrite HZ in HZ'. injection HZ' as <-.
  unfold entry. rewrite Hrows. cbn [rows]. unfold shape0. cbn [rows].
  rewrite length_fmap.
  destruct (lookup_lt_is_Some_2 (rows X) r Hr) as [row Hrow].
  rewrite lookup_zip_with, lookup_replicate_2 by done. cbn.
  rewrite list_lookup_fmap, Hrow. cbn.
  rewrite assign_pick by (by rewrite length_replicate).
  assert (Hlen : length row = d).
  { rewrite <- Hd.
    eapply (proj1 (Forall_forall _ _) Hwf), list_elem_of_lookup_2, Hrow. }
  destruct (lookup_lt_is_Some_2 row c) as [v Hv]; [lia|].
  rewrite Hv. cbn. case_decide; [done|].
  by rewrite lookup_replicate_2.
Qed.

End InverseFacts.

Module FilterFacts.
Import FRegressionFilterPValue.
Section WithFRegression.

Variable f_regression :
  ndarray → list float64 → result (list float64 * list float64).

(** [f_regression] returns one p-value per feature. *)
Hypothesis f_regression_shape : ∀ X y F p,
  f_regression X y = Ok (F, p) → length p = shape1 X.

Lemma filter_fit_inv X y s0 s :
  fit f_regression X y s0 = (Ok tt, s) →
  ∃ F p, f_regression X y = Ok (F, p) ∧
         s = Build (p_threshold s0)
                   (where_ ((λ v, ltb v (p_threshold s0)) <$> p))
                   (Some (shape1 X)).
Proof.
  unfold fit. run_method.
  destruct (f_regression X y) as [[F p]|e]; [|done].
  intros [= <-]. by exists F, p.
Qed.

Lemma filter_fit_raises X y s0 e :
  f_regression X y = Raise e →
  fit f_regression X y s0 =
    (Raise e, set_n_original_features (Some (shape1 X)) s0).
Proof. intros Hf. unfold fit. run_method. by rewrite Hf. Qed.

Lemma filter_fit_selected_lt X y s0 s :
  fit f_regression X y s0 = (Ok tt, s) →
  Forall (λ i, (i < shape1 X)%nat) (selected_indices s) ∧
  n_original_features s = Some (shape1 X).
Proof.
  intros (F & p & Hf & ->)%filter_fit_inv. cbn [selected_indices n_original_features].
  split; [|done]. rewrite <- (f_regression_shape _ _ _ _ Hf).
  apply where_fmap_lt.
Qed.

Lemma filter_transform_ok X s :
  Forall (λ i, (i < shape1 X)%nat) (selected_indices s) →
  transform X s =
    (Ok {| shape1 := length (selected_indices s);
           rows := (λ r, pick r (selected_indices s)) <$> rows X |}, s).
Proof. intros H. unfold transform. run_method. by rewrite getitem_cols_ok. Qed.

Lemma filter_inverse_transform_state X s : (inverse_transform X s).2 = s.
Proof.
  unfold inverse_transform. run_method. case_decide; [done|].
  by destruct (zeros_like_original _ _).
Qed.

Lemma filter_inverse_transform_mismatch X s :
  shape1 X ≠ length (selected_indices s) →
  inverse_transform X s = (Raise (Exn ValueError shape_msg), s).
Proof. intros H. unfold inverse_transform. run_method. by rewrite decide_True. Qed.

Lemma filter_inverse_transform_match X s msg :
  shape1 X = length (selected_indices s) →
  (inverse_transform X s).1 ≠ Raise (Exn ValueError msg).
Proof.
  intros H. unfold inverse_transform. run_method.
  rewrite decide_False by (by intros ?).
  destruct (n_original_features s) as [d|]; cbn; [|done].
  by apply InverseFacts.zeros_then_store_not_ValueError.
Qed.

Lemma filter_inverse_transform_ok X s d :
  n_original_features s = Some d →
  Forall (λ i, (i < d)%nat) (selected_indices s) →
  shape1 X = length (selected_indices s) →
  inverse_transform X s =
    (setitem_cols (zeros (shape0 X) d) (selected_indices s) X, s).
Proof.
  intros Hd Hsel Hshape. unfold inverse_transform. run_method.
  rewrite decide_False by (by intros ?). rewrite Hd. cbn.
  by destruct (setitem_cols _ _ _).
Qed.

End WithFRegression.
End FilterFacts.

Module SelectorFacts.
Import ModelSelector.

Ltac attrs :=
  cbn [threshold estimator_obj selected_indices percentile importance_scores
       n_original_features set_threshold set_estimator_obj
       set_selected_indices set_importance_scores set_n_original_features] in *.
Section WithEstimator.

Context {E : Type} `{Estimator E}.

Lemma norm1_axis0_length W : wf W → length (norm1_axis0 W) = shape1 W.
Proof.
  unfold wf, norm1_axis0. generalize (shape1 W) as d. intros d Hwf.
  assert (Hacc : length (replicate d zero) = d) by apply length_replicate.
  revert Hacc. generalize (replicate d zero) as acc.
  induction Hwf as [|r rs Hr _ IH]; intros acc Hacc; cbn [foldl]; [done|].
  apply IH. rewrite length_zip_with, length_fmap. lia.
Qed.

Lemma at_least_elem scores bound i :
  i ∈ at_least scores bound ↔ ∃ v, scores !! i = Some v ∧ geb v bound = true.
Proof. apply where_fmap_elem. Qed.

Lemma at_least_lt scores bound :
  Forall (λ i, (i < length scores)%nat) (at_least scores bound).
Proof. apply where_fmap_lt. Qed.

(** What a returning [fit] leaves in the object. *)
Lemma selector_fit_inv X y s0 s :
  fit X y s0 = (Ok tt, s) →
  ∃ e' scores thr bound,
    est_fit X y (estimator_obj s0) = (Ok tt, e') ∧
    _get_feature_importances e' = Ok scores ∧
    as_float (threshold s0) = Ok thr ∧
    s = Build (threshold s0) e' (at_least scores bound) (percentile s0)
              scores (Some (shape1 X)) ∧
    if percentile s0 then
      gtb thr one = false ∧
      ∃ index, percentile_index thr (shape1 X) = Ok index ∧
               getitem (sort scores) index = Ok bound
    else bound = thr.
Proof.
  unfold fit. run_method. attrs.
  destruct (est_fit X y (estimator_obj s0)) as [[[]|e] e'] eqn:Hfit;
    cbv beta iota zeta; [|done].
  attrs.
  destruct (_get_feature_importances e') as [scores|e] eqn:Himp; [|done].
  attrs.
  destruct (as_float (threshold s0)) as [thr|e] eqn:Hthr; [|done].
  destruct (percentile s0) eqn:Hperc; cbn [negb].
  - destruct (gtb thr one) eqn:Hgt; [done|].
    destruct (percentile_index thr (shape1 X)) as [index|e] eqn:Hindex; [|done].
    destruct (getitem (sort scores) index) as [bound|e] eqn:Hbound; [|done].
    intros [= <-]. exists e', scores, thr, bound.
    do 3 (split; [done|]). split.
    + unfold set_selected_indices. attrs. by rewrite Hperc.
    + split; [done|]. by exists index.
  - intros [= <-]. exists e', scores, thr, thr.
    do 3 (split; [done|]). split; [|done].
    unfold set_selected_indices. attrs. by rewrite Hperc.
Qed.

Lemma importances_length `{!EstimatorContract E} X y e e' scores :
  est_fit X y e = (Ok tt, e') →
  _get_feature_importances e' = Ok scores →
  length scores = shape1 X.
Proof.
  intros Hfit. unfold _get_feature_importances.
  destruct (feature_importances_ e') as [imp|] eqn:Himp.
  - intros [= <-]. by eapply fit_importances_length.
  - destruct (coef_ e') as [[w|W]|] eqn:Hcoef; [| |done]; intros [= <-].
    + rewrite length_fmap. by eapply fit_coef1_length.
    + destruct (fit_coef2_shape X y e e' W Hfit Hcoef) as [Hwf <-].
      by apply norm1_axis0_length.
Qed.

(** After [fit], every selected index is a column of the data. *)
Lemma selector_fit_selected_lt `{!EstimatorContract E} X y s0 s :
  fit X y s0 = (Ok tt, s) →
  Forall (λ i, (i < shape1 X)%nat) (selected_indices s) ∧
  n_original_features s = Some (shape1 X).
Proof.
  intros (e' & scores & thr & bound & Hfit & Himp & _ & -> & _)%selector_fit_inv.
  cbn [selected_indices n_original_features]. split; [|done].
  rewrite <- (importances_length X y _ e' scores Hfit Himp).
  apply at_least_lt.
Qed.

Lemma selector_transform_ok X (s : t E) :
  Forall (λ i, (i < shape1 X)%nat) (selected_indices s) →
  transform X s =
    (Ok (if decide (selected_indices s = []) then X
         else {| shape1 := length (selected_indices s);
                 rows := (λ r, pick r (selected_indices s)) <$> rows X |}), s).
Proof.
  intros Hsel. unfold transform. run_method. rewrite getitem_cols_ok by done.
  cbn [shape1]. destruct (selected_indices s) as [|i l]; cbn [length].
  - by rewrite !decide_True.
  - by rewrite !decide_False.
Qed.

Lemma selector_inverse_transform_state X (s : t E) : (inverse_transform X s).2 = s.
Proof.
  unfold inverse_transform. run_method. case_decide; [done|].
  by destruct (zeros_like_original _ _).
Qed.

Lemma selector_inverse_transform_mismatch X (s : t E) :
  shape1 X ≠ length (selected_indices s) →
  inverse_transform X s = (Raise (Exn ValueError shape_msg), s).
Proof. intros Hne. unfold inverse_transform. run_method. by rewrite decide_True. Qed.

Lemma selector_inverse_transform_match X (s : t E) msg :
  shape1 X = length (selected_indices s) →
  (inverse_transform X s).1 ≠ Raise (Exn ValueError msg).
Proof.
  intros Heq. unfold inverse_transform. run_method.
  rewrite decide_False by (by intros ?).
  destruct (n_original_features s) as [d|]; cbn; [|done].
  by apply InverseFacts.zeros_then_store_not_ValueError.
Qed.

Lemma selector_inverse_transform_ok X (s : t E) d :
  n_original_features s = Some d →
  Forall (λ i, (i < d)%nat) (selected_indices s) →
  shape1 X = length (selected_indices s) →
  inverse_transform X s =
    (setitem_cols (zeros (shape0 X) d) (selected_indices s) X, s).
Proof.
  intros Hd Hsel Hshape. unfold inverse_transform. run_method.
  rewrite decide_False by (by intros ?). rewrite Hd. cbn.
  by destruct (setitem_cols _ _ _).
Qed.

(** [set_params]: the wrapper keeps ['threshold'] for itself and hands
    the other entries to the estimator. *)
Lemma selector_set_params_run params (s : t E) :
  set_params params s =
    let s1 := match params !! "threshold" with
              | Some v => set_threshold v s
              | None => s
              end in
    let '(r, e') := est_set_params (delete "threshold" params) (estimator_obj s) in
    (r, set_estimator_obj e' s1).
Proof.
  unfold set_params. run_method.
  destruct (params !! "threshold") as [v|] eqn:Hv; cbn [estimator_obj set_threshold].
  - done.
  - by rewrite delete_id.
Qed.

End WithEstimator.
End SelectorFacts.

Module PercentileFacts.
Import SelectPercentileWrapper.
Section WithSelectors.

Context {VT SP : Type} `{Selector VT} `{Selector SP}.
Variable SelectPercentile : score_func → pyval → SP.
Variable score : score_func.

(** [transform] is the composition of the two selectors' transforms. *)
Lemma wrapper_transform_run X (s : t VT SP) fs :
  my_fs s = Some fs →
  transform X s =
    (r_bind (sel_transform (var_thres s) X) (λ X1, sel_transform fs X1), s).
Proof.
  intros Hfs. unfold transform, with_my_fs. run_method. rewrite Hfs.
  destruct (sel_transform (var_thres s) X) as [X1|e]; cbn [r_bind]; [|done].
  by destruct (sel_transform fs X1).
Qed.

End WithSelectors.
End PercentileFacts.

Module LassoFacts.
Import LassoFeatureSelection.
Section WithLasso.

Context {E : Type} `{Estimator E}.
Variable Lasso : pyval → gmap string pyval → result E.

Lemma set_model_selector_id (s : t E) ms :
  model_selector s = Some ms → set_model_selector (Some ms) s = s.
Proof. destruct s. cbn. by intros ->. Qed.

End WithLasso.
End LassoFacts.

(* ===================================================================== *)
(** * The stand-ins meet the contracts *)
(* ===================================================================== *)

Module StandInFacts.
Import StandIns.

Lemma fixed_f_regression_shape q X y F p :
  fixed_f_regression q X y = Ok (F, p) → length p = shape1 X.
Proof. unfold fixed_f_regression. case_decide; [|done]. by intros [= <- <-]. Qed.

#[export] Instance FixedEstimator_contract : EstimatorContract FixedEstimator.
Proof.
  split.
  - intros X y e e' imp. cbn. case_decide; [|done]. intros [= <-]. cbn.
    by intros [= <-].
  - intros X y e e' w _. cbn. done.
  - intros X y e e' W _. cbn. done.
  - intros [imp f ps]. cbn. rewrite decide_True by set_solver.
    by rewrite (left_id_L ∅ (∪)).
Qed.

End StandInFacts.

(* ===================================================================== *)
(** * The claims *)
(* ===================================================================== *)

Import StandIns StandInFacts.

(** C2. [FRegressionFilterPValue.fit] takes the p-values from
    [f_regression] and selects exactly the column indices whose p-value is
    strictly below [p_threshold], in increasing order; when [f_regression]
    raises, so does [fit]. [transform] then returns exactly those columns
    of its input: column [j] of the result is column [selected_indices[j]]
    of the input. *)
Theorem filter_fit_selects_below_threshold
    (f_regression : ndarray → list float64 → result (list float64 * list float64))
    (f_regression_shape :
       ∀ X y F p, f_regression X y = Ok (F, p) → length p = shape1 X)
    (X : ndarray) (y : list float64) (s0 : FRegressionFilterPValue.t) :
  match f_regression X y with
  | Raise e => (FRegressionFilterPValue.fit f_regression X y s0).1 = Raise e
  | Ok (_, p_values) =>
      ∃ s, FRegressionFilterPValue.fit f_regression X y s0 = (Ok tt, s) ∧
        (∀ i, i ∈ FRegressionFilterPValue.selected_indices s ↔
              ∃ p, p_values !! i = Some p ∧
                   ltb p (FRegressionFilterPValue.p_threshold s0) = true) ∧
        StronglySorted lt (FRegressionFilterPValue.selected_indices s) ∧
        ∀ X', wf X' → shape1 X' = shape1 X →
          ∃ Y, FRegressionFilterPValue.transform X' s = (Ok Y, s) ∧
               shape0 Y = shape0 X' ∧
               shape1 Y = length (FRegressionFilterPValue.selected_indices s) ∧
               ∀ r j i, FRegressionFilterPValue.selected_indices s !! j = Some i →
                        entry Y r j = entry X' r i
  end.
Proof.
  destruct (f_regression X y) as [[F p]|e] eqn:Hf.
  - destruct (FRegressionFilterPValue.fit f_regression X y s0) as [r s] eqn:Hfit.
    assert (r = Ok tt) as ->.
    { revert Hfit. unfold FRegressionFilterPValue.fit. run_method. rewrite Hf.
      by intros [= <- _]. }
    exists s. split; [done|].
    pose proof (FilterFacts.filter_fit_selected_lt _ f_regression_shape _ _ _ _ Hfit)
      as [Hlt _].
    apply FilterFacts.filter_fit_inv in Hfit as (F' & p' & Hf' & ->).
    rewrite Hf in Hf'. injection Hf' as <- <-.
    cbn [FRegressionFilterPValue.selected_indices] in *.
    split; [intros i; apply where_fmap_elem|].
    split; [apply where_sorted|].
    intros X' Hwf Hshape. rewrite <- Hshape in Hlt.
    eexists. split; [by apply FilterFacts.filter_transform_ok|].
    cbn [FRegressionFilterPValue.selected_indices].
    split; [unfold shape0; cbn [rows]; by rewrite length_fmap|].
    split; [done|].
    intros r j i Hj.
    by apply (getitem_cols_entry X' _ _ r j i Hwf (getitem_cols_ok _ _ Hlt)).
  - by rewrite (FilterFacts.filter_fit_raises f_regression X y s0 e Hf).
Qed.

(** An instance of C2: p-values 0.01, 0.5 and 0.02 with the default
    threshold 0.05 select the columns 0 and 2. *)
Lemma filter_fit_selects_below_threshold_witness :
  let p := [of_ratio 1 100; of_ratio 1 2; of_ratio 2 100] in
  let X := {| shape1 := 3; rows := [[one; zero; one]] |} in
  ∃ s, FRegressionFilterPValue.fit (StandIns.fixed_f_regression p) X [one]
         (FRegressionFilterPValue.init FRegressionFilterPValue.default_p_threshold)
       = (Ok tt, s) ∧
       FRegressionFilterPValue.selected_indices s = [0; 2]%nat.
Proof.
  intros p X.
  pose proof (filter_fit_selects_below_threshold
                (StandIns.fixed_f_regression p)
                (StandInFacts.fixed_f_regression_shape p) X [one]
                (FRegressionFilterPValue.init
                   FRegressionFilterPValue.default_p_threshold)) as H.
  cbn in H. destruct H as (s & Hfit & _).
  exists s. split; [exact Hfit|].
  vm_compute in Hfit. by injection Hfit as <-.
Defined.

(** C3. [inverse_transform] of [FRegressionFilterPValue] and of
    [ModelSelector] raises [ValueError] if and only if the column count
    of the input differs from the number of selected indices; the
    exception reaches the caller, and the object is left as it was, on
    error as on success. This holds in every state of the object, so in
    particular after [fit]. *)
Theorem inverse_transform_raises_iff_shape_differs :
  (∀ (s : FRegressionFilterPValue.t) (X : ndarray),
     ((∃ msg, (FRegressionFilterPValue.inverse_transform X s).1
              = Raise (Exn ValueError msg)) ↔
      shape1 X ≠ length (FRegressionFilterPValue.selected_indices s)) ∧
     (FRegressionFilterPValue.inverse_transform X s).2 = s) ∧
  (∀ (E : Type) (est : Estimator E) (s : ModelSelector.t E) (X : ndarray),
     ((∃ msg, (ModelSelector.inverse_transform X s).1
              = Raise (Exn ValueError msg)) ↔
      shape1 X ≠ length (ModelSelector.selected_indices s)) ∧
     (ModelSelector.inverse_transform X s).2 = s).
Proof.
  split.
  - intros s X. split; [|apply FilterFacts.filter_inverse_transform_state].
    split.
    + intros [msg Hr] Heq.
      by apply (FilterFacts.filter_inverse_transform_match X s msg Heq).
    + intros Hne. exists shape_msg.
      by rewrite FilterFacts.filter_inverse_transform_mismatch.
  - intros E est s X. split; [|apply SelectorFacts.selector_inverse_transform_state].
    split.
    + intros [msg Hr] Heq.
      by apply (SelectorFacts.selector_inverse_transform_match X s msg Heq).
    + intros Hne. exists shape_msg.
      by rewrite SelectorFacts.selector_inverse_transform_mismatch.
Qed.

(** C4. After [fit] has returned on data with [d] features, every index
    in [selected_indices] is a column index below [d], and [transform] of
    [FRegressionFilterPValue] and of [ModelSelector] returns on every
    input with [d] columns. The scikit-learn functions are taken to keep
    their contract: one p-value, respectively one importance, per
    feature. *)
Theorem transform_returns_after_fit :
  (∀ (f_regression : ndarray → list float64 → result (list float64 * list float64)),
     (∀ X y F p, f_regression X y = Ok (F, p) → length p = shape1 X) →
     ∀ X y s0 s,
       FRegressionFilterPValue.fit f_regression X y s0 = (Ok tt, s) →
       Forall (λ i, (i < shape1 X)%nat) (FRegressionFilterPValue.selected_indices s) ∧
       ∀ X', shape1 X' = shape1 X →
         ∃ Y, FRegressionFilterPValue.transform X' s = (Ok Y, s)) ∧
  (∀ (E : Type) (est : Estimator E), EstimatorContract E →
     ∀ X y (s0 s : ModelSelector.t E),
       ModelSelector.fit X y s0 = (Ok tt, s) →
       Forall (λ i, (i < shape1 X)%nat) (ModelSelector.selected_indices s) ∧
       ∀ X', shape1 X' = shape1 X →
         ∃ Y, ModelSelector.transform X' s = (Ok Y, s)).
Proof.
  split.
  - intros f Hf X y s0 s Hfit.
    destruct (FilterFacts.filter_fit_selected_lt f Hf X y s0 s Hfit) as [Hlt _].
    split; [done|]. intros X' Hshape. rewrite <- Hshape in Hlt.
    eexists. by apply FilterFacts.filter_transform_ok.
  - intros E est Hc X y s0 s Hfit.
    destruct (SelectorFacts.selector_fit_selected_lt X y s0 s Hfit) as [Hlt _].
    split; [done|]. intros X' Hshape. rewrite <- Hshape in Hlt.
    eexists. by apply SelectorFacts.selector_transform_ok.
Qed.

(** An instance of C4 on the stand-ins: the filter fitted on three
    features and the selector fitted on two both transform an input of
    the same width. *)
Lemma transform_returns_after_fit_witness :
  let p := [of_ratio 1 100; of_ratio 1 2; of_ratio 2 100] in
  let X3 := {| shape1 := 3; rows := [[one; zero; one]] |} in
  let X2 := {| shape1 := 2; rows := [[one; zero]] |} in
  let est := {| StandIns.fe_importances := [one; zero];
                StandIns.fe_fitted := false; StandIns.fe_params := ∅ |} in
  (∃ s Y, FRegressionFilterPValue.fit (StandIns.fixed_f_regression p) X3 [one]
            (FRegressionFilterPValue.init FRegressionFilterPValue.default_p_threshold)
          = (Ok tt, s) ∧
          FRegressionFilterPValue.transform X3 s = (Ok Y, s)) ∧
  (∃ s Y, ModelSelector.fit X2 None
            (ModelSelector.init est ModelSelector.default_threshold false)
          = (Ok tt, s) ∧
          ModelSelector.transform X2 s = (Ok Y, s)).
Proof.
  intros p X3 X2 est.
  destruct transform_returns_after_fit as [HF HM]. split.
  - eexists.
    destruct (HF (StandIns.fixed_f_regression p)
                 (StandInFacts.fixed_f_regression_shape p) X3 [one]
                 (FRegressionFilterPValue.init FRegressionFilterPValue.default_p_threshold)
                 _ eq_refl) as [_ Ht].
    destruct (Ht X3 eq_refl) as [Y HY]. exists Y. split; [reflexivity|exact HY].
  - eexists.
    destruct (HM StandIns.FixedEstimator _ StandInFacts.FixedEstimator_contract
                 X2 None (ModelSelector.init est ModelSelector.default_threshold false)
                 _ eq_refl) as [_ Ht].
    destruct (Ht X2 eq_refl) as [Y HY]. exists Y. split; [reflexivity|exact HY].
Defined.

(** C6. For a fitted [FRegressionFilterPValue], and for a fitted
    [ModelSelector] with at least one selected index, and every array
    [X'] with as many columns as the data seen by [fit]:
    [inverse_transform(transform(X'))] returns an array with
    [n_original_features] columns and the rows of [X'], equal to [X'] on
    the selected columns and zero on the others. *)
Theorem inverse_transform_of_transform :
  (∀ (f_regression : ndarray → list float64 → result (list float64 * list float64)),
     (∀ X y F p, f_regression X y = Ok (F, p) → length p = shape1 X) →
     ∀ X y s0 s X',
       FRegressionFilterPValue.fit f_regression X y s0 = (Ok tt, s) →
       wf X' → shape1 X' = shape1 X →
       ∃ Y Z,
         FRegressionFilterPValue.transform X' s = (Ok Y, s) ∧
         FRegressionFilterPValue.inverse_transform Y s = (Ok Z, s) ∧
         FRegressionFilterPValue.n_original_features s = Some (shape1 Z) ∧
         shape0 Z = shape0 X' ∧
         ∀ r c, (r < shape0 X')%nat → (c < shape1 Z)%nat →
           entry Z r c =
             if decide (c ∈ FRegressionFilterPValue.selected_indices s)
             then entry X' r c else Some zero) ∧
  (∀ (E : Type) (est : Estimator E), EstimatorContract E →
     ∀ X y (s0 s : ModelSelector.t E) X',
       ModelSelector.fit X y s0 = (Ok tt, s) →
       ModelSelector.selected_indices s ≠ [] →
       wf X' → shape1 X' = shape1 X →
       ∃ Y Z,
         ModelSelector.transform X' s = (Ok Y, s) ∧
         ModelSelector.inverse_transform Y s = (Ok Z, s) ∧
         ModelSelector.n_original_features s = Some (shape1 Z) ∧
         shape0 Z = shape0 X' ∧
         ∀ r c, (r < shape0 X')%nat → (c < shape1 Z)%nat →
           entry Z r c =
             if decide (c ∈ ModelSelector.selected_indices s)
             then entry X' r c else Some zero).
Proof.
  split.
  - intros f Hf X y s0 s X' Hfit Hwf Hshape.
    destruct (FilterFacts.filter_fit_selected_lt f Hf X y s0 s Hfit) as [Hlt Hn].
    set (sel := FRegressionFilterPValue.selected_indices s) in *.
    assert (Hlt' : Forall (λ i, (i < shape1 X')%nat) sel) by (by rewrite Hshape).
    pose proof (getitem_cols_ok X' sel Hlt') as HY.
    set (Y := {| shape1 := length sel; rows := (λ r, pick r sel) <$> rows X' |}) in *.
    destruct (InverseFacts.zeros_then_store_ok (shape1 X) sel Y Hlt eq_refl)
      as (Z & HZ & HZ1 & HZ0 & _).
    exists Y, Z. split; [by apply FilterFacts.filter_transform_ok|].
    split.
    { rewrite (FilterFacts.filter_inverse_transform_ok Y s (shape1 X)); try done.
      fold sel. by rewrite HZ. }
    split; [by rewrite HZ1|].
    assert (HY0 : shape0 Y = shape0 X').
    { unfold shape0, Y. cbn [rows]. by rewrite length_fmap. }
    split; [by rewrite HZ0|].
    intros r c Hr Hc. rewrite HZ1 in Hc.
    by apply (InverseFacts.store_picked_entry (shape1 X) sel X' Y Z).
  - intros E est Hc X y s0 s X' Hfit Hne Hwf Hshape.
    destruct (SelectorFacts.selector_fit_selected_lt X y s0 s Hfit) as [Hlt Hn].
    set (sel := ModelSelector.selected_indices s) in *.
    assert (Hlt' : Forall (λ i, (i < shape1 X')%nat) sel) by (by rewrite Hshape).
    pose proof (getitem_cols_ok X' sel Hlt') as HY.
    set (Y := {| shape1 := length sel; rows := (λ r, pick r sel) <$> rows X' |}) in *.
    destruct (InverseFacts.zeros_then_store_ok (shape1 X) sel Y Hlt eq_refl)
      as (Z & HZ & HZ1 & HZ0 & _).
    exists Y, Z. split.
    { rewrite SelectorFacts.selector_transform_ok by done. fold sel.
      by rewrite decide_False. }
    split.
    { rewrite (SelectorFacts.selector_inverse_transform_ok Y s (shape1 X)); try done.
      fold sel. by rewrite HZ. }
    split; [by rewrite HZ1|].
    assert (HY0 : shape0 Y = shape0 X').
    { unfold shape0, Y. cbn [rows]. by rewrite length_fmap. }
    split; [by rewrite HZ0|].
    intros r c Hr Hc'. rewrite HZ1 in Hc'.
    by apply (InverseFacts.store_picked_entry (shape1 X) sel X' Y Z).
Qed.

(** An instance of C6 on the stand-ins: the filter keeps columns 0 and 2
    of three, the selector column 0 of two; the round trip restores the
    kept columns and fills the dropped one with zero. *)
Lemma inverse_transform_of_transform_witness :
  let p := [of_ratio 1 100; of_ratio 1 2; of_ratio 2 100] in
  let X3 := {| shape1 := 3; rows := [[one; one; one]] |} in
  let X2 := {| shape1 := 2; rows := [[one; one]] |} in
  let est := {| fe_importances := [one; zero]; fe_fitted := false;
                fe_params := ∅ |} in
  (∃ s Y Z, FRegressionFilterPValue.fit (fixed_f_regression p) X3 [one]
              (FRegressionFilterPValue.init FRegressionFilterPValue.default_p_threshold)
            = (Ok tt, s) ∧
            FRegressionFilterPValue.transform X3 s = (Ok Y, s) ∧
            FRegressionFilterPValue.inverse_transform Y s = (Ok Z, s) ∧
            entry Z 0 1 = Some zero ∧ entry Z 0 2 = Some one) ∧
  (∃ s Y Z, ModelSelector.fit X2 None
              (ModelSelector.init est ModelSelector.default_threshold false)
            = (Ok tt, s) ∧
            ModelSelector.transform X2 s = (Ok Y, s) ∧
            ModelSelector.inverse_transform Y s = (Ok Z, s) ∧
            entry Z 0 0 = Some one ∧ entry Z 0 1 = Some zero).
Proof.
  intros p X3 X2 est.
  destruct inverse_transform_of_transform as [HF HM]. split.
  - eexists.
    destruct (HF (fixed_f_regression p) (fixed_f_regression_shape p) X3 [one]
                 (FRegressionFilterPValue.init FRegressionFilterPValue.default_p_threshold)
                 _ X3 eq_refl ltac:(repeat constructor) eq_refl)
      as (Y & Z & HY & HZ & Hn & _ & Hentry).
    injection Hn as Hn.
    exists Y, Z. split; [reflexivity|]. split; [exact HY|]. split; [exact HZ|].
    split.
    + rewrite (Hentry 0%nat 1%nat) by (rewrite <- ?Hn; cbn; lia). reflexivity.
    + rewrite (Hentry 0%nat 2%nat) by (rewrite <- ?Hn; cbn; lia). reflexivity.
  - eexists.
    destruct (HM FixedEstimator _ FixedEstimator_contract X2 None
                 (ModelSelector.init est ModelSelector.default_threshold false)
                 _ X2 eq_refl ltac:(discriminate) ltac:(repeat constructor) eq_refl)
      as (Y & Z & HY & HZ & Hn & _ & Hentry).
    injection Hn as Hn.
    exists Y, Z. split; [reflexivity|]. split; [exact HY|]. split; [exact HZ|].
    split.
    + rewrite (Hentry 0%nat 0%nat) by (rewrite <- ?Hn; cbn; lia). reflexivity.
    + rewrite (Hentry 0%nat 1%nat) by (rewrite <- ?Hn; cbn; lia). reflexivity.
Defined.

(** C1. The code at the failing input: a [ModelSelector] around an
    estimator whose two importances are 0, with the default threshold
    1e-5. [fit] returns and selects no index; [transform] of the
    two-column data then returns it as it is: two columns, where the
    number of selected indices is zero. The guard of [transform] that
    does so carries the comment "if no features were selected raise
    error" in the source. *)
Theorem transform_width_empty_selection :
  let est := {| fe_importances := [zero; zero]; fe_fitted := false;
                fe_params := ∅ |} in
  let X := {| shape1 := 2; rows := [[one; zero]] |} in
  ∃ s Y, ModelSelector.fit X None
           (ModelSelector.init est ModelSelector.default_threshold false)
         = (Ok tt, s) ∧
         ModelSelector.selected_indices s = [] ∧
         ModelSelector.transform X s = (Ok Y, s) ∧
         Y = X ∧
         shape1 Y = 2%nat ∧
         shape1 Y ≠ length (ModelSelector.selected_indices s).
Proof.
  intros est X. eexists _, _.
  split; [reflexivity|]. split; [reflexivity|]. split; [reflexivity|].
  split; [reflexivity|]. split; [reflexivity|]. vm_compute. discriminate.
Qed.

Module PercentileModeFacts.
Import ModelSelector.

Lemma leb_refl x : is_nan x = false → leb x x = true.
Proof.
  destruct x as [s|s| |s m e]; try done; try (by destruct s).
  intros _. unfold leb, SFleb, SFcompare. rewrite Z.compare_refl.
  change (Pos.compare_cont Eq m m) with (Pos.compare m m).
  rewrite Pos.compare_refl. by destruct s.
Qed.

Lemma leb_not_gtb x y : leb x y = true → gtb x y = false.
Proof.
  unfold leb, gtb, SFleb, SFltb, SFcompare.
  destruct x as [sx|sx| |sx mx ex], y as [sy|sy| |sy my ey];
    try done; try (by destruct sx); try (by destruct sy);
    try (by destruct sx, sy).
  rewrite (Z.compare_antisym ex ey).
  change (Pos.compare_cont Eq my mx) with (Pos.compare my mx).
  change (Pos.compare_cont Eq mx my) with (Pos.compare mx my).
  rewrite (Pos.compare_antisym mx my).
  destruct sx, sy, (ex ?= ey), (mx ?= my)%positive; done.
Qed.

Section WithEstimator.

Context {E : Type} `{Estimator E}.

Lemma get_feature_importances_raises (e : E) ex :
  _get_feature_importances e = Raise ex → exn_cls ex = ValueError.
Proof.
  unfold _get_feature_importances.
  destruct (feature_importances_ e); [done|].
  destruct (coef_ e) as [[]|]; [done|done|]. by intros [= <-].
Qed.

(** In percentile mode a threshold that is a number above one makes
    [fit] raise [ValueError] once the estimator is fitted. *)
Lemma fit_threshold_above_one X y (s0 : t E) e' thr :
  percentile s0 = true → as_float (threshold s0) = Ok thr →
  est_fit X y (estimator_obj s0) = (Ok tt, e') →
  gtb thr one = true →
  ∃ msg s', fit X y s0 = (Raise (Exn ValueError msg), s').
Proof.
  intros Hperc Hthr Hfit Hgt. unfold fit. run_method. SelectorFacts.attrs.
  rewrite Hfit. cbv beta iota zeta. SelectorFacts.attrs.
  destruct (_get_feature_importances e') as [scores|[c msg]] eqn:Himp.
  - SelectorFacts.attrs. rewrite Hthr.
    rewrite Hperc. cbn [negb]. rewrite Hgt. eauto.
  - apply get_feature_importances_raises in Himp. cbn in Himp. subst c. eauto.
Qed.

(** In percentile mode, when the index into the sorted scores is in
    range and the scores hold no NaN, [fit] returns and selects every
    score that reaches the score found there; that is at least one. *)
Lemma fit_percentile_index_in_range X y (s0 : t E) e' thr scores index :
  percentile s0 = true → as_float (threshold s0) = Ok thr →
  est_fit X y (estimator_obj s0) = (Ok tt, e') →
  _get_feature_importances e' = Ok scores →
  gtb thr one = false →
  percentile_index thr (shape1 X) = Ok index →
  0 ≤ index < Z.of_nat (length scores) →
  Forall (λ v, is_nan v = false) scores →
  ∃ s bound,
    fit X y s0 = (Ok tt, s) ∧
    sort scores !! Z.to_nat index = Some bound ∧
    selected_indices s = at_least scores bound ∧
    selected_indices s ≠ [] ∧
    ∀ i v, scores !! i = Some v → Forall (λ w, leb w v = true) scores →
           i ∈ selected_indices s.
Proof.
  intros Hperc Hthr Hfit Himp Hgt Hindex Hrange Hnan.
  destruct (getitem_in_range (sort scores) index) as (bound & Hget & Hlook).
  { by rewrite (Permutation_length (sort_Permutation scores)). }
  assert (Hin : bound ∈ scores).
  { rewrite <- (sort_Permutation scores). by eapply list_elem_of_lookup_2. }
  eexists _, bound. split.
  { unfold fit. run_method. SelectorFacts.attrs.
    rewrite Hfit. cbv beta iota zeta. SelectorFacts.attrs.
    rewrite Himp. SelectorFacts.attrs. rewrite Hthr.
    rewrite Hperc. cbn [negb]. rewrite Hgt, Hindex, Hget. reflexivity. }
  unfold set_selected_indices. cbn [selected_indices].
  split; [done|]. split; [done|].
  split.
  - assert (Hb : is_nan bound = false)
      by (by apply (proj1 (Forall_forall _ _) Hnan)).
    apply list_elem_of_lookup_1 in Hin as [i0 Hi0].
    assert (i0 ∈ at_least scores bound) as Hsel.
    { apply SelectorFacts.at_least_elem. exists bound. split; [done|].
      by apply leb_refl. }
    intros Hnil. rewrite Hnil in Hsel. by apply elem_of_nil in Hsel.
  - intros i v Hi Hmax. apply SelectorFacts.at_least_elem. exists v.
    split; [done|]. by apply (proj1 (Forall_forall _ _) Hmax).
Qed.

End WithEstimator.
End PercentileModeFacts.

(** C8, as stated, fails in its last part: [get_params] reports the
    parameters of the wrapped estimator, whatever their names. For an
    estimator that has a parameter called ['threshold'] itself, that key
    appears in the result, and it is the estimator's value, not the
    wrapper's. *)
Lemma get_params_counterexample :
  let est := {| fe_importances := [one]; fe_fitted := false;
                fe_params := {["threshold" := PyFloat half]} |} in
  let s := ModelSelector.init est ModelSelector.default_threshold false in
  ModelSelector.get_params true s !! "threshold" = Some (PyFloat half) ∧
  ∃ s', ModelSelector.set_params {["threshold" := PyFloat one]} s = (Ok tt, s') ∧
        ModelSelector.threshold s' = PyFloat one ∧
        ModelSelector.get_params true s' !! "threshold" = Some (PyFloat half).
Proof.
  intros est s. split; [reflexivity|].
  eexists. split; [vm_compute; reflexivity|]. split; reflexivity.
Qed.

(** C8, amended. [ModelSelector.set_params] assigns [params['threshold']]
    (when present) to the wrapper's own [threshold] attribute and
    forwards only the remaining entries to the wrapped estimator, so a
    call with only ['threshold'] leaves the wrapped estimator, and with it
    every one of its parameters, unchanged. [ModelSelector.get_params]
    returns the wrapped estimator's parameters only: it does not depend on
    the wrapper's [threshold] attribute, and ['threshold'] appears in its
    result exactly when the wrapped estimator has a parameter of that
    name. *)
Theorem set_params_get_params_threshold
    (E : Type) (est : Estimator E) (contract : EstimatorContract E) :
  (∀ (params : gmap string pyval) (s : ModelSelector.t E),
     ModelSelector.set_params params s =
       let '(r, e') := est_set_params (delete "threshold" params)
                                      (ModelSelector.estimator_obj s) in
       (r, ModelSelector.set_estimator_obj e'
             (match params !! "threshold" with
              | Some v => ModelSelector.set_threshold v s
              | None => s
              end))) ∧
  (∀ (v : pyval) (s : ModelSelector.t E),
     ModelSelector.set_params {["threshold" := v]} s
       = (Ok tt, ModelSelector.set_threshold v s) ∧
     ∀ deep, ModelSelector.get_params deep (ModelSelector.set_threshold v s)
             = ModelSelector.get_params deep s) ∧
  (∀ (deep : bool) (s : ModelSelector.t E),
     ModelSelector.get_params deep s
       = est_get_params deep (ModelSelector.estimator_obj s) ∧
     (is_Some (ModelSelector.get_params deep s !! "threshold") ↔
      is_Some (est_get_params deep (ModelSelector.estimator_obj s) !! "threshold"))).
Proof.
  split; [|split].
  - intros params s. apply SelectorFacts.selector_set_params_run.
  - intros v s. split; [|done].
    rewrite SelectorFacts.selector_set_params_run, lookup_singleton_eq, delete_singleton_eq.
    rewrite set_params_empty. by destruct s.
  - intros deep s. by split.
Qed.

(** An instance of the amended C8 on the stand-in estimator. *)
Lemma set_params_get_params_threshold_witness :
  let est := {| fe_importances := [one]; fe_fitted := false;
                fe_params := {["alpha" := PyFloat one]} |} in
  let s := ModelSelector.init est ModelSelector.default_threshold false in
  ModelSelector.set_params {["threshold" := PyFloat half]} s
    = (Ok tt, ModelSelector.set_threshold (PyFloat half) s) ∧
  ModelSelector.get_params true (ModelSelector.set_threshold (PyFloat half) s)
    = {["alpha" := PyFloat one]}.
Proof.
  intros est s.
  destruct (set_params_get_params_threshold FixedEstimator _ FixedEstimator_contract)
    as (_ & Hset & _).
  destruct (Hset (PyFloat half) s) as [H1 H2].
  split; [exact H1|]. rewrite H2. reflexivity.
Defined.

Module ControllerFacts.
Import Investigator.
Section Controller.

Context `{Environment}.

(** The loop keeps, in order, the configurations whose number is among
    the submitted ones, and builds one view and two traces for each. *)
Lemma collect_from selected configs : ∀ acc,
  let chosen := filter (λ c, str (config_nr c) ∈ selected) configs in
  let r := foldl (collect_step selected) acc configs in
  config_dict_list r = config_dict_list acc ++ (config_view <$> chosen) ∧
  config_list r = config_list acc ++ chosen ∧
  trace_training_list r =
    trace_training_list acc ++ ((λ c, mean_trace c (metrics_train c)) <$> chosen) ∧
  trace_test_list r =
    trace_test_list acc ++ ((λ c, mean_trace c (metrics_test c)) <$> chosen).
Proof.
  induction configs as [|c configs IH]; intros acc; cbn [foldl].
  - cbn. by rewrite !app_nil_r.
  - cbn zeta in *. unfold collect_step at 2 4 6 8, is_selected.
    destruct (decide (str (config_nr c) ∈ selected)) as [Hc|Hc].
    + rewrite bool_decide_eq_true_2 by done. rewrite filter_cons_True by done.
      destruct (IH {|
        config_dict_list := config_dict_list acc ++ [config_view c];
        config_list := config_list acc ++ [c];
        trace_training_list :=
          trace_training_list acc ++ [mean_trace c (metrics_train c)];
        trace_test_list :=
          trace_test_list acc ++ [mean_trace c (metrics_test c)] |})
        as (-> & -> & -> & ->).
      cbn [config_dict_list config_list trace_training_list trace_test_list
           fmap list_fmap].
      by rewrite <- !app_assoc.
    + rewrite bool_decide_eq_false_2 by done. rewrite filter_cons_False by done.
      apply IH.
Qed.

Lemma collect_spec selected configs :
  let chosen := filter (λ c, str (config_nr c) ∈ selected) configs in
  collect selected configs =
    {| config_dict_list := config_view <$> chosen;
       config_list := chosen;
       trace_training_list := (λ c, mean_trace c (metrics_train c)) <$> chosen;
       trace_test_list := (λ c, mean_trace c (metrics_test c)) <$> chosen |}.
Proof.
  cbn zeta. unfold collect.
  pose proof (collect_from selected configs (Build_collected [] [] [] [])) as Hc.
  cbn zeta in Hc. destruct (foldl _ _ configs). cbn in Hc.
  by destruct Hc as (-> & -> & -> & ->).
Qed.

End Controller.
End ControllerFacts.

(** C5. The handler [compare_configurations] catches exactly
    [ValidationError] and [ConnectionError] raised in its [try] block and
    returns the message of the exception as the response; every other
    exception reaches the caller. When nothing is raised, the response is
    the template [configuration/compare.html] rendered with the pipeline,
    the outer fold [int(fold_nr) - 1], and the views and traces of exactly
    those tested configurations, in order, whose [str(config_nr)] is among
    the values of the form field [config_list]. *)
Theorem compare_configurations_responses
    (vm : Investigator.ViewModels) (env : Investigator.Environment)
    (form : list (string * string)) (name fold_nr : string) :
  let body := Investigator.try_body form name fold_nr in
  let response := Investigator.compare_configurations form name fold_nr in
  (∀ msg, body = Raise (Exn ValidationError msg) → response = Ok msg) ∧
  (∀ msg, body = Raise (Exn ConnectionError msg) → response = Ok msg) ∧
  (∀ exc, body = Raise exc →
          exn_cls exc ≠ ValidationError → exn_cls exc ≠ ConnectionError →
          response = Raise exc) ∧
  (∀ page, body = Ok page →
     response = Ok page ∧
     ∃ pipe nr outer_fold,
       Investigator.objects_get name = Ok pipe ∧
       Investigator.int fold_nr = Ok nr ∧
       getitem (Investigator.outer_folds pipe) (nr - 1) = Ok outer_fold ∧
       let chosen :=
         filter (λ c, Investigator.str (Investigator.config_nr c)
                      ∈ Investigator.getlist form "config_list")
                (Investigator.tested_config_list outer_fold) in
       Investigator.render_template "configuration/compare.html"
         {| Investigator.ctx_pipe := pipe;
            Investigator.ctx_outer_fold := outer_fold;
            Investigator.ctx_plot_test :=
              Investigator.new_PlotlyPlot "comparison_metrics_test"
                "test metrics of selected configurations"
                ((λ c, Investigator.mean_trace c (Investigator.metrics_test c))
                   <$> chosen);
            Investigator.ctx_plot_training :=
              Investigator.new_PlotlyPlot "comparison_metrics_training"
                "train metrics of selected configurations"
                ((λ c, Investigator.mean_trace c (Investigator.metrics_train c))
                   <$> chosen);
            Investigator.ctx_config_dict_list :=
              Investigator.config_view <$> chosen |}
       = Ok page).
Proof.
  intros body response. unfold response, Investigator.compare_configurations.
  fold body. split; [|split; [|split]].
  - by intros msg ->.
  - by intros msg ->.
  - intros [c msg] -> Hv Hc. cbn in *. by destruct c.
  - intros page Hbody. rewrite Hbody. split; [done|].
    unfold body, Investigator.try_body in Hbody.
    destruct (Investigator.objects_get name) as [pipe|e]; [|done].
    destruct (Investigator.int fold_nr) as [nr|e]; [|done].
    cbn [r_bind] in Hbody.
    destruct (getitem (Investigator.outer_folds pipe) (nr - 1))
      as [outer_fold|e] eqn:Hfold; [|done].
    cbn [r_bind] in Hbody. cbn zeta in Hbody.
    rewrite ControllerFacts.collect_spec in Hbody.
    cbn [Investigator.config_dict_list Investigator.trace_training_list
         Investigator.trace_test_list] in Hbody.
    by exists pipe, nr, outer_fold.
Qed.

(** An instance of C5 on the demonstration store: the page shows the
    two configurations submitted; a [ConnectionError] becomes the
    response; a [DoesNotExist] reaches the caller. *)
Lemma compare_configurations_responses_witness :
  Investigator.compare_configurations
    [("config_list", "2"); ("other", "1"); ("config_list", "3")] "heart" "1"
    = Ok "configuration/compare.html config_2 config_3" ∧
  Investigator.compare_configurations [] "offline" "1"
    = Ok "Could not connect to the database" ∧
  Investigator.compare_configurations [] "missing" "1"
    = Raise (Exn DoesNotExist "MDBHyperpipe matching query does not exist").
Proof.
  split; [|split].
  - destruct (compare_configurations_responses plain_view_models demo_environment
                [("config_list", "2"); ("other", "1"); ("config_list", "3")]
                "heart" "1") as (_ & _ & _ & Hpage).
    apply Hpage. reflexivity.
  - destruct (compare_configurations_responses plain_view_models demo_environment
                [] "offline" "1") as (_ & Hconn & _).
    apply Hconn. reflexivity.
  - destruct (compare_configurations_responses plain_view_models demo_environment
                [] "missing" "1") as (_ & _ & Hother & _).
    apply Hother; [reflexivity|discriminate|discriminate].
Defined.

(* ===================================================================== *)
(** * Further properties of the code *)
(* ===================================================================== *)

Module FloatOrderFacts.

Lemma compare_key x y :
  is_nan x = false → is_nan y = false →
  match SFcompare x y with
  | Some Lt => key_lt (key x) (key y)
  | Some Eq => key_le (key x) (key y) ∧ key_le (key y) (key x)
  | Some Gt => key_lt (key y) (key x)
  | None => False
  end.
Proof.
  unfold key_le, key_lt.
  destruct x as [sx|sx| |sx mx ex], y as [sy|sy| |sy my ey]; try done;
    intros _ _; try (destruct sx; try destruct sy; cbn; lia);
    try (destruct sy; cbn; lia).
  unfold SFcompare.
  change (Pos.compare_cont Eq mx my) with (Pos.compare mx my).
  destruct sx, sy; cbn [key fst snd];
    destruct (Z.compare_spec ex ey); try lia;
    destruct (Pos.compare_spec mx my); cbn [CompOpp]; lia.
Qed.

Lemma leb_key x y :
  leb x y = true ↔
  is_nan x = false ∧ is_nan y = false ∧ key_le (key x) (key y).
Proof.
  unfold leb, SFleb. split.
  - destruct (is_nan x) eqn:Hx; [by destruct x|].
    destruct (is_nan y) eqn:Hy; [by destruct x, y|].
    pose proof (compare_key x y Hx Hy) as Hc. intros Hle.
    split; [done|]. split; [done|].
    destruct (SFcompare x y) as [[]|]; try done.
    + apply Hc.
    + unfold key_le, key_lt in *. lia.
  - intros (Hx & Hy & Hle). pose proof (compare_key x y Hx Hy) as Hc.
    destruct (SFcompare x y) as [[]|]; try done.
    unfold key_le, key_lt in *. lia.
Qed.

Lemma ltb_key x y :
  ltb x y = true ↔
  is_nan x = false ∧ is_nan y = false ∧ key_lt (key x) (key y).
Proof.
  unfold ltb, SFltb. split.
  - destruct (is_nan x) eqn:Hx; [by destruct x|].
    destruct (is_nan y) eqn:Hy; [by destruct x, y|].
    pose proof (compare_key x y Hx Hy) as Hc. intros Hlt.
    split; [done|]. split; [done|].
    by destruct (SFcompare x y) as [[]|].
  - intros (Hx & Hy & Hlt). pose proof (compare_key x y Hx Hy) as Hc.
    destruct (SFcompare x y) as [[]|]; try done;
      unfold key_le, key_lt in *; lia.
Qed.

Lemma leb_trans x y z : leb x y = true → leb y z = true → leb x z = true.
Proof.
  rewrite !leb_key. unfold key_le. intros (? & ? & ?) (? & ? & ?).
  split; [done|]. split; [done|]. lia.
Qed.

Lemma ltb_leb_trans x y z : ltb x y = true → leb y z = true → ltb x z = true.
Proof.
  rewrite !leb_key, !ltb_key. unfold key_le, key_lt.
  intros (? & ? & ?) (? & ? & ?). split; [done|]. split; [done|]. lia.
Qed.

Lemma leb_total x y :
  is_nan x = false → is_nan y = false → leb x y = true ∨ leb y x = true.
Proof.
  intros Hx Hy. rewrite !leb_key. unfold key_le.
  destruct (key x) as [[a b] c], (key y) as [[a' b'] c']. cbn [fst snd].
  assert (a < a' ∨ a = a' ∧ (b < b' ∨ b = b' ∧ c ≤ c') ∨
          a' < a ∨ a' = a ∧ (b' < b ∨ b' = b ∧ c' ≤ c)) as Hcases by lia.
  destruct Hcases as [?|[?|[?|?]]]; [left|left|right|right];
    (split; [done|]; split; [done|]; tauto).
Qed.

#[export] Instance sort_le_trans : Transitive sort_le.
Proof.
  intros x y z. unfold sort_le, sort_leb.
  destruct (is_nan z) eqn:Hz; [by destruct x, y, z|].
  destruct (is_nan y) eqn:Hy; [by destruct x, y, z|].
  destruct (is_nan x) eqn:Hx; [by destruct x, y, z|].
  intros Hxy Hyz.
  assert (leb x y = true) by (by destruct x, y).
  assert (leb y z = true) by (by destruct y, z).
  assert (leb x z = true) by (by eapply leb_trans).
  by destruct x, z.
Qed.

#[export] Instance sort_le_total : Total sort_le.
Proof.
  intros x y. unfold sort_le, sort_leb.
  destruct (is_nan y) eqn:Hy; [left; by destruct x, y|].
  destruct (is_nan x) eqn:Hx; [right; by destruct x, y|].
  destruct (leb_total x y Hx Hy); [left|right]; by destruct x, y.
Qed.

(** [np.sort] returns its input in ascending order, NaN last. *)
Lemma sort_sorted l : StronglySorted sort_le (sort l).
Proof. apply StronglySorted_merge_sort; apply _. Qed.

End FloatOrderFacts.

(** X1. Before [fit], [FRegressionFilterPValue.transform] returns an
    array with the rows of its input and no column, and
    [ModelSelector.transform] returns its input as it is; for both,
    [inverse_transform] raises [ValueError] on an input that has columns
    and [TypeError] on one without, because [n_original_features] is
    still [None]. *)
Theorem transformers_before_fit :
  (∀ (p : float64) (X : ndarray),
     let s := FRegressionFilterPValue.init p in
     FRegressionFilterPValue.transform X s
       = (Ok {| shape1 := 0; rows := (λ _, []) <$> rows X |}, s) ∧
     (shape1 X ≠ 0%nat →
      FRegressionFilterPValue.inverse_transform X s
        = (Raise (Exn ValueError shape_msg), s)) ∧
     (shape1 X = 0%nat →
      ∃ msg, FRegressionFilterPValue.inverse_transform X s
             = (Raise (Exn TypeError msg), s))) ∧
  (∀ (E : Type) (est : Estimator E) (e : E) (thr : pyval) (perc : bool)
     (X : ndarray),
     let s := ModelSelector.init e thr perc in
     ModelSelector.transform X s = (Ok X, s) ∧
     (shape1 X ≠ 0%nat →
      ModelSelector.inverse_transform X s
        = (Raise (Exn ValueError shape_msg), s)) ∧
     (shape1 X = 0%nat →
      ∃ msg, ModelSelector.inverse_transform X s
             = (Raise (Exn TypeError msg), s))).
Proof.
  split.
  - intros p X s. split; [|split].
    + unfold s. rewrite FilterFacts.filter_transform_ok by constructor. done.
    + intros Hne. by apply FilterFacts.filter_inverse_transform_mismatch.
    + intros Heq. eexists.
      unfold FRegressionFilterPValue.inverse_transform. run_method.
      rewrite decide_False by (by intros Hne; apply Hne). reflexivity.
  - intros E est e thr perc X s. split; [|split].
    + unfold s. rewrite SelectorFacts.selector_transform_ok by constructor.
      by rewrite decide_True.
    + intros Hne. by apply SelectorFacts.selector_inverse_transform_mismatch.
    + intros Heq. eexists.
      unfold ModelSelector.inverse_transform. run_method.
      rewrite decide_False by (by intros Hne; apply Hne). reflexivity.
Qed.

(** X2. While [my_fs], respectively [model_selector], is still [None]
    (before [fit]), [inverse_transform] of the two percentile wrappers
    raises [AttributeError] and their [transform] never returns an array;
    [transform] and [inverse_transform] of [LassoFeatureSelection] raise
    [AttributeError] and leave the object as it is. *)
Theorem wrappers_before_fit :
  (∀ (VT SP : Type) (vt : Selector VT) (sp : Selector SP)
     (s : SelectPercentileWrapper.t VT SP) (X : ndarray),
     SelectPercentileWrapper.my_fs s = None →
     (∃ msg, FRegressionSelectPercentile.inverse_transform X s
             = (Raise (Exn AttributeError msg), s)) ∧
     (∃ msg, FClassifSelectPercentile.inverse_transform X s
             = (Raise (Exn AttributeError msg), s)) ∧
     (∀ Y, (FRegressionSelectPercentile.transform X s).1 ≠ Ok Y) ∧
     (∀ Y, (FClassifSelectPercentile.transform X s).1 ≠ Ok Y)) ∧
  (∀ (E : Type) (est : Estimator E) (s : LassoFeatureSelection.t E)
     (X : ndarray),
     LassoFeatureSelection.model_selector s = None →
     (∃ msg, LassoFeatureSelection.transform X s
             = (Raise (Exn AttributeError msg), s)) ∧
     (∃ msg, LassoFeatureSelection.inverse_transform X s
             = (Raise (Exn AttributeError msg), s))).
Proof.
  split.
  - intros VT SP vt sp s X Hnone.
    assert (Hinv : ∃ msg, SelectPercentileWrapper.inverse_transform X s
                          = (Raise (Exn AttributeError msg), s)).
    { eexists. unfold SelectPercentileWrapper.inverse_transform,
        SelectPercentileWrapper.with_my_fs. run_method. by rewrite Hnone. }
    assert (Htr : ∀ Y, (SelectPercentileWrapper.transform X s).1 ≠ Ok Y).
    { intros Y. unfold SelectPercentileWrapper.transform,
        SelectPercentileWrapper.with_my_fs. run_method. rewrite Hnone.
      by destruct (sel_transform _ X). }
    done.
  - intros E est s X Hnone.
    unfold LassoFeatureSelection.transform,
      LassoFeatureSelection.inverse_transform,
      LassoFeatureSelection.on_model_selector.
    rewrite Hnone. eauto.
Qed.

(** An instance of X2: the freshly built wrappers. *)
Lemma wrappers_before_fit_witness :
  let kc := {| kc_keep := [0%nat]; kc_n_features := None |} in
  let X := {| shape1 := 1; rows := [[one]] |} in
  (∃ msg, FRegressionSelectPercentile.inverse_transform X
            (FRegressionSelectPercentile.init kc
               SelectPercentileWrapper.default_percentile)
          = (Raise (Exn AttributeError msg),
             FRegressionSelectPercentile.init kc
               SelectPercentileWrapper.default_percentile)) ∧
  (∃ msg, LassoFeatureSelection.transform (E:=FixedEstimator) X
            (LassoFeatureSelection.init LassoFeatureSelection.default_percentile
               LassoFeatureSelection.default_alpha ∅)
          = (Raise (Exn AttributeError msg),
             LassoFeatureSelection.init LassoFeatureSelection.default_percentile
               LassoFeatureSelection.default_alpha ∅)).
Proof.
  intros kc X. destruct wrappers_before_fit as [HW HL]. split.
  - destruct (HW KeepColumns KeepColumns _ _
                 (FRegressionSelectPercentile.init kc
                    SelectPercentileWrapper.default_percentile) X eq_refl)
      as (Hinv & _). exact Hinv.
  - destruct (HL FixedEstimator _
                 (LassoFeatureSelection.init LassoFeatureSelection.default_percentile
                    LassoFeatureSelection.default_alpha ∅) X eq_refl)
      as (Htr & _). exact Htr.
Defined.

Module FailingFitFacts.

Lemma selector_fit_raise_inv {E : Type} `{Estimator E} X y
    (s s' : ModelSelector.t E) e :
  ModelSelector.fit X y s = (Raise e, s') →
  ModelSelector.selected_indices s' = ModelSelector.selected_indices s ∧
  ModelSelector.n_original_features s' = Some (shape1 X) ∧
  ModelSelector.threshold s' = ModelSelector.threshold s ∧
  ModelSelector.percentile s' = ModelSelector.percentile s.
Proof.
  unfold ModelSelector.fit. run_method. SelectorFacts.attrs.
  destruct (est_fit X y (ModelSelector.estimator_obj s)) as [[[]|e0] e1];
    cbv beta iota zeta; SelectorFacts.attrs; [|by intros [= _ <-]].
  destruct (ModelSelector._get_feature_importances e1) as [scores|e0];
    [|by intros [= _ <-]].
  SelectorFacts.attrs.
  destruct (as_float (ModelSelector.threshold s)) as [thr|e0];
    [|by intros [= _ <-]].
  destruct (ModelSelector.percentile s) eqn:Hperc; cbn [negb]; [|done].
  destruct (gtb thr one); [by intros [= _ <-]|].
  destruct (ModelSelector.percentile_index thr (shape1 X)) as [index|e0];
    [|by intros [= _ <-]].
  destruct (getitem (sort scores) index) as [bound|e0]; [done|].
  by intros [= _ <-].
Qed.

End FailingFitFacts.

(** X3. A [fit] that raises never changes [selected_indices]: the
    indices of an earlier [fit] stay, while [n_original_features] has
    already been set to the width of the new data. For
    [FRegressionFilterPValue] the exception is the one of
    [f_regression]. *)
Theorem failing_fit_keeps_selection :
  (∀ (f_regression : ndarray → list float64 → result (list float64 * list float64))
     X y (s s' : FRegressionFilterPValue.t) e,
     FRegressionFilterPValue.fit f_regression X y s = (Raise e, s') →
     f_regression X y = Raise e ∧
     FRegressionFilterPValue.selected_indices s'
       = FRegressionFilterPValue.selected_indices s ∧
     FRegressionFilterPValue.n_original_features s' = Some (shape1 X)) ∧
  (∀ (E : Type) (est : Estimator E) X y (s s' : ModelSelector.t E) e,
     ModelSelector.fit X y s = (Raise e, s') →
     ModelSelector.selected_indices s' = ModelSelector.selected_indices s ∧
     ModelSelector.n_original_features s' = Some (shape1 X)).
Proof.
  split.
  - intros f X y s s' e. unfold FRegressionFilterPValue.fit. run_method.
    destruct (f X y) as [[F p]|e0]; [done|]. by intros [= <- <-].
  - intros E est X y s s' e Hfit.
    by destruct (FailingFitFacts.selector_fit_raise_inv X y s s' e Hfit)
      as (? & ? & _).
Qed.

(** An instance of X3: a selector fitted on two features is fitted again,
    on three, with a threshold above one; the two old indices stay beside
    the new width. *)
Lemma failing_fit_keeps_selection_witness :
  let est3 := {| fe_importances := [one; one; one]; fe_fitted := false;
                 fe_params := ∅ |} in
  let s := ModelSelector.Build (PyFloat (of_Z 2)) est3 [0%nat; 1%nat] true
             [one; one] (Some 2%nat) in
  let X3 := {| shape1 := 3; rows := [[one; one; one]] |} in
  ∃ e s', ModelSelector.fit X3 None s = (Raise e, s') ∧
          ModelSelector.selected_indices s' = [0%nat; 1%nat] ∧
          ModelSelector.n_original_features s' = Some 3%nat.
Proof.
  intros est3 s X3.
  eassert (Hfit : ModelSelector.fit X3 None s = (Raise _, _))
    by (vm_compute; reflexivity).
  destruct failing_fit_keeps_selection as [_ HM].
  destruct (HM FixedEstimator _ X3 None s _ _ Hfit) as [Hsel Hn].
  eexists _, _. split; [exact Hfit|]. split; [exact Hsel|exact Hn].
Defined.

Module ThresholdModeFacts.
Import ModelSelector.

Lemma leb_not_nan x y : leb x y = true → is_nan x = false ∧ is_nan y = false.
Proof.
  unfold leb, SFleb, SFcompare.
  by destruct x as [sx|sx| |sx mx ex], y as [sy|sy| |sy my ey].
Qed.

Lemma ltb_not_nan x y : ltb x y = true → is_nan x = false ∧ is_nan y = false.
Proof.
  unfold ltb, SFltb, SFcompare.
  by destruct x as [sx|sx| |sx mx ex], y as [sy|sy| |sy my ey].
Qed.

Lemma at_least_nan scores : at_least scores S754_nan = [].
Proof.
  apply elem_of_nil_inv. intros i (v & _ & Hv)%SelectorFacts.at_least_elem.
  by apply leb_not_nan in Hv as [[=] _].
Qed.

(** [fit] with [percentile=False], run to its end. *)
Lemma selector_fit_threshold_run {E : Type} `{Estimator E} X y (s0 : t E)
    e' scores thr :
  percentile s0 = false →
  est_fit X y (estimator_obj s0) = (Ok tt, e') →
  _get_feature_importances e' = Ok scores →
  as_float (threshold s0) = Ok thr →
  fit X y s0 = (Ok tt, Build (threshold s0) e' (at_least scores thr) false
                             scores (Some (shape1 X))).
Proof.
  intros Hperc Hfit Himp Hthr. unfold fit. run_method. SelectorFacts.attrs.
  rewrite Hfit. cbv beta iota zeta. SelectorFacts.attrs.
  rewrite Himp. SelectorFacts.attrs. rewrite Hthr, Hperc. cbn [negb].
  unfold set_selected_indices. SelectorFacts.attrs. by rewrite Hperc.
Qed.

End ThresholdModeFacts.

(** X4. [ModelSelector.fit] with [percentile=False]: once the wrapped
    estimator is fitted and exposes importances, and the threshold is a
    number, [fit] returns, keeps the importances in [importance_scores]
    and selects exactly the features whose importance is at least the
    threshold, in increasing order; a feature whose importance is NaN is
    never selected, and a NaN threshold selects nothing. *)
Theorem selector_fit_selects_at_least_threshold
    (E : Type) (est : Estimator E)
    (X : ndarray) (y : option (list float64)) (s0 : ModelSelector.t E)
    (e' : E) (scores : list float64) (thr : float64) :
  ModelSelector.percentile s0 = false →
  est_fit X y (ModelSelector.estimator_obj s0) = (Ok tt, e') →
  ModelSelector._get_feature_importances e' = Ok scores →
  as_float (ModelSelector.threshold s0) = Ok thr →
  ∃ s, ModelSelector.fit X y s0 = (Ok tt, s) ∧
    ModelSelector.importance_scores s = scores ∧
    ModelSelector.n_original_features s = Some (shape1 X) ∧
    (∀ i, i ∈ ModelSelector.selected_indices s ↔
          ∃ v, scores !! i = Some v ∧ leb thr v = true) ∧
    StronglySorted lt (ModelSelector.selected_indices s) ∧
    (∀ i v, scores !! i = Some v → is_nan v = true →
            i ∉ ModelSelector.selected_indices s) ∧
    (is_nan thr = true → ModelSelector.selected_indices s = []).
Proof.
  intros Hperc Hfit Himp Hthr.
  eexists. split;
    [by apply (ThresholdModeFacts.selector_fit_threshold_run X y s0 e' scores thr)|].
  cbn [ModelSelector.importance_scores ModelSelector.n_original_features
       ModelSelector.selected_indices].
  split; [done|]. split; [done|].
  split; [intros i; apply SelectorFacts.at_least_elem|].
  split; [apply where_sorted|]. split.
  - intros i v Hi Hnan (v' & Hi' & Hv)%SelectorFacts.at_least_elem.
    rewrite Hi in Hi'. injection Hi' as <-.
    apply ThresholdModeFacts.leb_not_nan in Hv as [_ Hv]. congruence.
  - destruct thr; try done. intros _. apply ThresholdModeFacts.at_least_nan.
Qed.

(** An instance of X4: the importances 1, NaN and 0 with the threshold
    0.5 select the first feature only. *)
Lemma selector_fit_selects_at_least_threshold_witness :
  let est := {| fe_importances := [one; S754_nan; zero]; fe_fitted := false;
                fe_params := ∅ |} in
  let X := {| shape1 := 3; rows := [[one; one; one]] |} in
  ∃ s, ModelSelector.fit X None (ModelSelector.init est (PyFloat half) false)
       = (Ok tt, s) ∧
       ModelSelector.selected_indices s = [0%nat].
Proof.
  intros est X.
  eassert (Hest : est_fit X None est = (Ok tt, _)) by (vm_compute; reflexivity).
  destruct (selector_fit_selects_at_least_threshold FixedEstimator _
              X None (ModelSelector.init est (PyFloat half) false)
              _ [one; S754_nan; zero] half eq_refl Hest eq_refl eq_refl)
    as (s & Hfit & _).
  exists s. split; [exact Hfit|].
  vm_compute in Hfit. by injection Hfit as <-.
Defined.

Module ImportanceFacts.
Import ModelSelector.

(** A float whose sign bit does not show in a comparison: NaN, a zero, a
    positive number or plus infinity. *)
Lemma abs_sign x : 0 ≤ (key (abs x)).1.1.
Proof. destruct x as [s|s| |s m e]; cbn; lia. Qed.

Lemma round_result_sign M E : 0 ≤ (key (round_result false M E)).1.1.
Proof.
  unfold round_result. cbv zeta.
  destruct (_ / _) as [|m|m]; cbn; try lia.
  destruct (_ <=? _); cbn; lia.
Qed.

Lemma add_sign x y :
  0 ≤ (key x).1.1 → 0 ≤ (key y).1.1 → 0 ≤ (key (add x y)).1.1.
Proof.
  destruct x as [sx|[]| |[] mx ex], y as [sy|[]| |[] my ey];
    cbn; try lia; intros _ _.
  - destruct sx, sy; cbn; lia.
  - change (Z.pos ?a + Z.pos ?b) with (Z.pos (a + b)).
    cbn [binary_normalize]. unfold binary_round.
    destruct (shl_align _ _ (fexp _ _ _)) as [mz ez].
    rewrite FloatFacts.binary_round_aux_exact by lia.
    apply round_result_sign.
Qed.

Lemma sign_not_below_zero v :
  0 ≤ (key v).1.1 →
  ltb v zero = false ∧ (is_nan v = false → leb zero v = true).
Proof. destruct v as [s|[]| |[] m e]; cbn; (lia || done). Qed.

Lemma norm1_axis0_sign W : Forall (λ v, 0 ≤ (key v).1.1) (norm1_axis0 W).
Proof.
  unfold norm1_axis0.
  assert (Hacc : Forall (λ v, 0 ≤ (key v).1.1) (replicate (shape1 W) zero)).
  { apply Forall_replicate. cbn. lia. }
  revert Hacc. generalize (replicate (shape1 W) zero) as acc.
  induction (rows W) as [|r rs IH]; intros acc Hacc; cbn [foldl]; [done|].
  apply IH. clear IH. revert r.
  induction Hacc as [|a acc Ha Hacc IH]; intros [|v r]; cbn; try constructor.
  - apply add_sign; [done|apply abs_sign].
  - apply IH.
Qed.

End ImportanceFacts.

(** X5. [ModelSelector._get_feature_importances] raises exactly when the
    estimator exposes neither [feature_importances_] nor [coef_], and
    then [ValueError]. Importances derived from [coef_] (the absolute
    values of a one-dimensional [coef_], the column sums of the absolute
    values of a two-dimensional one, as computed in binary64) never
    compare below zero, and each that is not NaN compares as at least
    zero; there is one for each coefficient, respectively for each
    column. *)
Theorem coef_importances_not_below_zero (E : Type) (est : Estimator E) (e : E) :
  ((∃ ex, ModelSelector._get_feature_importances e = Raise ex) ↔
   feature_importances_ e = None ∧ coef_ e = None) ∧
  (∀ ex, ModelSelector._get_feature_importances e = Raise ex →
         exn_cls ex = ValueError) ∧
  (∀ scores,
     feature_importances_ e = None →
     ModelSelector._get_feature_importances e = Ok scores →
     (∀ v, v ∈ scores →
           ltb v zero = false ∧ (is_nan v = false → leb zero v = true)) ∧
     (∀ w, coef_ e = Some (Coef1 w) → length scores = length w) ∧
     (∀ W, coef_ e = Some (Coef2 W) → wf W → length scores = shape1 W)).
Proof.
  split; [|split].
  - unfold ModelSelector._get_feature_importances.
    destruct (feature_importances_ e) as [imp|].
    { split; [by intros [ex [=]]|by intros [[=] _]]. }
    destruct (coef_ e) as [[w|W]|].
    + split; [by intros [ex [=]]|by intros [_ [=]]].
    + split; [by intros [ex [=]]|by intros [_ [=]]].
    + split; [done|]. intros _. by eexists.
  - apply PercentileModeFacts.get_feature_importances_raises.
  - intros scores Hnone. unfold ModelSelector._get_feature_importances.
    rewrite Hnone. destruct (coef_ e) as [[w|W]|]; [| |done]; intros [= <-].
    + split; [|split].
      * intros v (x & -> & _)%list_elem_of_fmap.
        apply ImportanceFacts.sign_not_below_zero, ImportanceFacts.abs_sign.
      * intros w' [= <-]. by rewrite length_fmap.
      * by intros W [=].
    + split; [|split].
      * intros v Hv. apply ImportanceFacts.sign_not_below_zero.
        by apply (proj1 (Forall_forall _ _) (ImportanceFacts.norm1_axis0_sign W)).
      * by intros w [=].
      * intros W' [= <-]. apply SelectorFacts.norm1_axis0_length.
Qed.

(** An instance of X5: the coefficients [[-1, 0.5], [-1, -0.5]] give the
    importances 2 and 1. *)
Lemma coef_importances_not_below_zero_witness :
  let W := {| shape1 := 2;
              rows := [[of_Z (-1); half]; [of_Z (-1); mul (of_Z (-1)) half]] |} in
  let e := {| lm_coef := Coef2 W; lm_fitted := true |} in
  ModelSelector._get_feature_importances e = Ok [of_Z 2; one] ∧
  ∀ v, v ∈ [of_Z 2; one] →
       ltb v zero = false ∧ (is_nan v = false → leb zero v = true).
Proof.
  intros W e. split; [reflexivity|].
  destruct (coef_importances_not_below_zero LinearModel _ e) as (_ & _ & Hc).
  destruct (Hc [of_Z 2; one] eq_refl eq_refl) as [Hv _]. exact Hv.
Defined.

Module StoreFacts.

Lemma sorted_lt_NoDup (l : list nat) : StronglySorted lt l → NoDup l.
Proof.
  induction 1 as [|i l _ IH Hall]; constructor; [|done].
  intros Hin. apply (proj1 (Forall_forall _ _) Hall) in Hin. lia.
Qed.

Lemma assign_row_length idx : ∀ rt rx,
  length (assign_row rt idx rx) = length rt.
Proof.
  unfold assign_row. induction idx as [|i idx IH]; intros rt [|v rx];
    cbn [zip zip_with foldl]; try done.
  by rewrite IH, length_insert.
Qed.

Lemma assign_row_lookup_notin idx : ∀ rt rx c,
  c ∉ idx → assign_row rt idx rx !! c = rt !! c.
Proof.
  unfold assign_row. induction idx as [|i idx IH]; intros rt [|v rx] c Hc;
    cbn [zip zip_with foldl]; try done.
  apply not_elem_of_cons in Hc as [Hne Hc]. cbn [fst snd].
  rewrite IH by done. by rewrite list_lookup_insert_ne.
Qed.

Lemma assign_row_lookup_in idx : ∀ rt rx j i,
  NoDup idx → idx !! j = Some i → (i < length rt)%nat →
  length rx = length idx →
  assign_row rt idx rx !! i = rx !! j.
Proof.
  induction idx as [|i0 idx IH]; intros rt [|v rx] j i Hnd Hj Hi Hlen;
    try done.
  apply NoDup_cons in Hnd as [Hnotin Hnd].
  change (assign_row rt (i0 :: idx) (v :: rx))
    with (assign_row (<[i0:=v]> rt) idx rx).
  destruct j as [|j]; cbn in Hj.
  - injection Hj as ->. rewrite assign_row_lookup_notin by done.
    by rewrite list_lookup_insert_eq.
  - cbn [lookup list_lookup]. apply IH; try done.
    + by rewrite length_insert.
    + cbn in Hlen. lia.
Qed.

Lemma pick_assign idx rt rx :
  NoDup idx → Forall (λ i, (i < length rt)%nat) idx →
  length rx = length idx →
  pick (assign_row rt idx rx) idx = rx.
Proof.
  intros Hnd Hall Hlen. apply list_eq. intros j. unfold pick.
  rewrite list_lookup_fmap.
  destruct (idx !! j) as [i|] eqn:Hj; cbn.
  - rewrite (assign_row_lookup_in idx rt rx j i); try done.
    + destruct (lookup_lt_is_Some_2 rx j) as [v ->]; [|done].
      rewrite Hlen. by eapply lookup_lt_Some.
    + by apply (proj1 (Forall_lookup _ _) Hall j i).
  - symmetry. apply lookup_ge_None. rewrite Hlen. by apply lookup_ge_None.
Qed.

(** The array [inverse_transform] builds from [Y]: the columns of [Y] at
    the selected places, zeros elsewhere, and selecting from it gives
    [Y] back. *)
Lemma store_then_pick d sel Y :
  NoDup sel → Forall (λ i, (i < d)%nat) sel →
  wf Y → shape1 Y = length sel →
  ∃ Z, setitem_cols (zeros (shape0 Y) d) sel Y = Ok Z ∧
       shape1 Z = d ∧ shape0 Z = shape0 Y ∧ wf Z ∧
       (∀ r j i, sel !! j = Some i → entry Z r i = entry Y r j) ∧
       (∀ r c, (r < shape0 Y)%nat → (c < d)%nat → c ∉ sel →
               entry Z r c = Some zero) ∧
       getitem_cols Z sel = Ok Y.
Proof.
  intros Hnd Hsel Hwf Hshape.
  destruct (InverseFacts.zeros_then_store_ok d sel Y Hsel Hshape)
    as (Z & HZ & Hd & Hn & Hrows).
  exists Z. split; [done|]. split; [done|]. split; [done|].
  rewrite zip_with_replicate_l in Hrows by done.
  assert (Hrow : ∀ r, rows Z !! r =
                      assign_row (replicate d zero) sel <$> rows Y !! r).
  { intros r. by rewrite Hrows, list_lookup_fmap. }
  assert (HlenY : ∀ r rx, rows Y !! r = Some rx → length rx = length sel).
  { intros r rx Hr. rewrite <- Hshape.
    eapply (proj1 (Forall_forall _ _) Hwf), list_elem_of_lookup_2, Hr. }
  split; [|split; [|split]].
  - unfold wf. rewrite Hrows, Hd. apply Forall_fmap, Forall_true.
    intros rx. cbn. by rewrite assign_row_length, length_replicate.
  - intros r j i Hj. unfold entry. rewrite Hrow.
    destruct (rows Y !! r) as [rx|] eqn:Hr; cbn; [|done].
    apply assign_row_lookup_in; try done.
    + rewrite length_replicate. by apply (proj1 (Forall_lookup _ _) Hsel j i).
    + by eapply HlenY.
  - intros r c Hr Hc Hnotin. unfold entry. rewrite Hrow.
    destruct (lookup_lt_is_Some_2 (rows Y) r Hr) as [rx ->]. cbn.
    rewrite assign_row_lookup_notin by done. by apply lookup_replicate_2.
  - rewrite getitem_cols_ok by (by rewrite Hd).
    f_equal. destruct Y as [dY rowsY]. cbn in *. subst dY. f_equal.
    rewrite Hrows, <- list_fmap_compose.
    rewrite <- (list_fmap_id rowsY) at 2.
    apply Forall_fmap_ext, Forall_lookup. intros r rx Hr. cbn.
    apply pick_assign; try done.
    + by rewrite length_replicate.
    + by eapply HlenY.
Qed.

End StoreFacts.

(** X6. After [fit], [inverse_transform] of an array [Y] with one column
    for each selected feature returns an array of the width of the
    fitted data and the height of [Y] that holds column [j] of [Y] at
    the [j]-th selected index and zeros in every other column; and
    [transform] of that array is [Y] again (for [ModelSelector]: when at
    least one feature is selected). *)
Theorem transform_of_inverse_transform :
  (∀ (f_regression : ndarray → list float64 → result (list float64 * list float64))
     (f_regression_shape :
        ∀ X y F p, f_regression X y = Ok (F, p) → length p = shape1 X)
     X y (s0 s : FRegressionFilterPValue.t) Y,
     FRegressionFilterPValue.fit f_regression X y s0 = (Ok tt, s) →
     wf Y → shape1 Y = length (FRegressionFilterPValue.selected_indices s) →
     ∃ Z, FRegressionFilterPValue.inverse_transform Y s = (Ok Z, s) ∧
          shape1 Z = shape1 X ∧ shape0 Z = shape0 Y ∧ wf Z ∧
          (∀ r j i, FRegressionFilterPValue.selected_indices s !! j = Some i →
                    entry Z r i = entry Y r j) ∧
          (∀ r c, (r < shape0 Y)%nat → (c < shape1 X)%nat →
                  c ∉ FRegressionFilterPValue.selected_indices s →
                  entry Z r c = Some zero) ∧
          FRegressionFilterPValue.transform Z s = (Ok Y, s)) ∧
  (∀ (E : Type) (est : Estimator E) (contract : EstimatorContract E)
     X y (s0 s : ModelSelector.t E) Y,
     ModelSelector.fit X y s0 = (Ok tt, s) →
     wf Y → shape1 Y = length (ModelSelector.selected_indices s) →
     ∃ Z, ModelSelector.inverse_transform Y s = (Ok Z, s) ∧
          shape1 Z = shape1 X ∧ shape0 Z = shape0 Y ∧ wf Z ∧
          (∀ r j i, ModelSelector.selected_indices s !! j = Some i →
                    entry Z r i = entry Y r j) ∧
          (∀ r c, (r < shape0 Y)%nat → (c < shape1 X)%nat →
                  c ∉ ModelSelector.selected_indices s →
                  entry Z r c = Some zero) ∧
          (ModelSelector.selected_indices s ≠ [] →
           ModelSelector.transform Z s = (Ok Y, s))).
Proof.
  split.
  - intros f Hshape X y s0 s Y Hfit Hwf HY.
    destruct (FilterFacts.filter_fit_selected_lt f Hshape X y s0 s Hfit)
      as [Hlt Hn].
    assert (Hnd : NoDup (FRegressionFilterPValue.selected_indices s)).
    { apply FilterFacts.filter_fit_inv in Hfit as (F & p & _ & ->).
      apply StoreFacts.sorted_lt_NoDup, where_sorted. }
    destruct (StoreFacts.store_then_pick (shape1 X) _ Y Hnd Hlt Hwf HY)
      as (Z & HZ & Hd & Hn0 & HwfZ & Hin & Hout & Hback).
    exists Z. split.
    { rewrite (FilterFacts.filter_inverse_transform_ok Y s (shape1 X)) by done.
      by rewrite HZ. }
    do 5 (split; [done|]).
    unfold FRegressionFilterPValue.transform. run_method. by rewrite Hback.
  - intros E est contract X y s0 s Y Hfit Hwf HY.
    destruct (SelectorFacts.selector_fit_selected_lt X y s0 s Hfit)
      as [Hlt Hn].
    assert (Hnd : NoDup (ModelSelector.selected_indices s)).
    { apply SelectorFacts.selector_fit_inv in Hfit
        as (e' & scores & thr & bound & _ & _ & _ & -> & _).
      apply StoreFacts.sorted_lt_NoDup, where_sorted. }
    destruct (StoreFacts.store_then_pick (shape1 X) _ Y Hnd Hlt Hwf HY)
      as (Z & HZ & Hd & Hn0 & HwfZ & Hin & Hout & Hback).
    exists Z. split.
    { rewrite (SelectorFacts.selector_inverse_transform_ok Y s (shape1 X)) by done.
      by rewrite HZ. }
    do 5 (split; [done|]).
    intros Hne. unfold ModelSelector.transform. run_method. rewrite Hback.
    cbn. rewrite decide_False; [done|].
    rewrite HY. by destruct (ModelSelector.selected_indices s).
Qed.

(** An instance of X6: the filter that kept the columns 0 and 2 of three
    turns the row [1, 0.5] into [1, 0, 0.5] and back. *)
Lemma transform_of_inverse_transform_witness :
  let p := [of_ratio 1 100; of_ratio 1 2; of_ratio 2 100] in
  let X3 := {| shape1 := 3; rows := [[one; one; one]] |} in
  let Y := {| shape1 := 2; rows := [[one; half]] |} in
  ∃ s Z, FRegressionFilterPValue.fit (fixed_f_regression p) X3 [one]
           (FRegressionFilterPValue.init FRegressionFilterPValue.default_p_threshold)
         = (Ok tt, s) ∧
         FRegressionFilterPValue.inverse_transform Y s = (Ok Z, s) ∧
         rows Z = [[one; zero; half]] ∧
         FRegressionFilterPValue.transform Z s = (Ok Y, s).
Proof.
  intros p X3 Y.
  destruct transform_of_inverse_transform as [HF _].
  eexists.
  destruct (HF (fixed_f_regression p) (fixed_f_regression_shape p) X3 [one]
               (FRegressionFilterPValue.init FRegressionFilterPValue.default_p_threshold)
               _ Y eq_refl ltac:(repeat constructor) eq_refl)
    as (Z & HZ & _ & _ & _ & _ & _ & Hback).
  exists Z. split; [reflexivity|]. split; [exact HZ|]. split; [|exact Hback].
  vm_compute in HZ. by injection HZ as <-.
Defined.

(** X7. The selection is monotone in the threshold. For
    [FRegressionFilterPValue], fitting the same data with a larger
    [p_threshold] selects every feature the smaller one selects; for
    [ModelSelector] with [percentile=False] and the same estimator, a
    larger threshold selects only features the smaller one selects. *)
Theorem selection_monotone_in_threshold :
  (∀ (f_regression : ndarray → list float64 → result (list float64 * list float64))
     X y (s1 s2 s1' s2' : FRegressionFilterPValue.t),
     leb (FRegressionFilterPValue.p_threshold s1)
         (FRegressionFilterPValue.p_threshold s2) = true →
     FRegressionFilterPValue.fit f_regression X y s1 = (Ok tt, s1') →
     FRegressionFilterPValue.fit f_regression X y s2 = (Ok tt, s2') →
     FRegressionFilterPValue.selected_indices s1'
       ⊆ FRegressionFilterPValue.selected_indices s2') ∧
  (∀ (E : Type) (est : Estimator E) X y (s1 s2 s1' s2' : ModelSelector.t E)
     (t1 t2 : float64),
     ModelSelector.percentile s1 = false →
     ModelSelector.percentile s2 = false →
     ModelSelector.estimator_obj s1 = ModelSelector.estimator_obj s2 →
     as_float (ModelSelector.threshold s1) = Ok t1 →
     as_float (ModelSelector.threshold s2) = Ok t2 →
     leb t1 t2 = true →
     ModelSelector.fit X y s1 = (Ok tt, s1') →
     ModelSelector.fit X y s2 = (Ok tt, s2') →
     ModelSelector.selected_indices s2' ⊆ ModelSelector.selected_indices s1').
Proof.
  split.
  - intros f X y s1 s2 s1' s2' Hle
      (F1 & p1 & Hf1 & ->)%FilterFacts.filter_fit_inv
      (F2 & p2 & Hf2 & ->)%FilterFacts.filter_fit_inv.
    rewrite Hf1 in Hf2. injection Hf2 as <- <-.
    cbn [FRegressionFilterPValue.selected_indices].
    intros i (v & Hi & Hv)%where_fmap_elem. apply where_fmap_elem.
    exists v. split; [done|]. by eapply FloatOrderFacts.ltb_leb_trans.
  - intros E est X y s1 s2 s1' s2' t1 t2 Hp1 Hp2 Hest Ht1 Ht2 Hle
      (e1 & sc1 & thr1 & b1 & Hfit1 & Himp1 & Hthr1 & -> & Hb1)%SelectorFacts.selector_fit_inv
      (e2 & sc2 & thr2 & b2 & Hfit2 & Himp2 & Hthr2 & -> & Hb2)%SelectorFacts.selector_fit_inv.
    rewrite Hp1 in Hb1. rewrite Hp2 in Hb2. subst b1 b2.
    rewrite Ht1 in Hthr1. rewrite Ht2 in Hthr2.
    injection Hthr1 as <-. injection Hthr2 as <-.
    rewrite Hest, Hfit2 in Hfit1. injection Hfit1 as <-.
    rewrite Himp1 in Himp2. injection Himp2 as <-.
    cbn [ModelSelector.selected_indices].
    intros i (v & Hi & Hv)%SelectorFacts.at_least_elem.
    apply SelectorFacts.at_least_elem. exists v. split; [done|].
    by apply (FloatOrderFacts.leb_trans t1 t2 v).
Qed.

(** An instance of X7: the p-values 0.01, 0.5 and 0.02 with the
    thresholds 0.02 and 0.05. *)
Lemma selection_monotone_in_threshold_witness :
  let p := [of_ratio 1 100; of_ratio 1 2; of_ratio 2 100] in
  let X3 := {| shape1 := 3; rows := [[one; one; one]] |} in
  ∃ s1 s2,
    FRegressionFilterPValue.fit (fixed_f_regression p) X3 [one]
      (FRegressionFilterPValue.init (of_ratio 2 100)) = (Ok tt, s1) ∧
    FRegressionFilterPValue.fit (fixed_f_regression p) X3 [one]
      (FRegressionFilterPValue.init (of_ratio 5 100)) = (Ok tt, s2) ∧
    FRegressionFilterPValue.selected_indices s1 = [0%nat] ∧
    FRegressionFilterPValue.selected_indices s2 = [0%nat; 2%nat] ∧
    FRegressionFilterPValue.selected_indices s1
      ⊆ FRegressionFilterPValue.selected_indices s2.
Proof.
  intros p X3.
  destruct selection_monotone_in_threshold as [HF _].
  eexists _, _. split; [reflexivity|]. split; [reflexivity|].
  split; [reflexivity|]. split; [reflexivity|].
  exact (HF (fixed_f_regression p) X3 [one]
            (FRegressionFilterPValue.init (of_ratio 2 100))
            (FRegressionFilterPValue.init (of_ratio 5 100)) _ _
            eq_refl eq_refl eq_refl).
Defined.

(** X8. When [ModelSelector.fit] has selected no feature, [transform]
    returns its input of the fitted width as it is, and
    [inverse_transform] of what [transform] returned raises [ValueError]
    as soon as the input has a column: the round trip of the two methods
    fails. [inverse_transform] returns only for an array without
    columns, and then an array of zeros. *)
Theorem empty_selection_round_trip_raises
    (E : Type) (est : Estimator E)
    (X : ndarray) (y : option (list float64)) (s0 s : ModelSelector.t E)
    (X' : ndarray) :
  ModelSelector.fit X y s0 = (Ok tt, s) →
  ModelSelector.selected_indices s = [] →
  ModelSelector.transform X' s = (Ok X', s) ∧
  ((0 < shape1 X')%nat →
   ModelSelector.inverse_transform X' s = (Raise (Exn ValueError shape_msg), s)) ∧
  (shape1 X' = 0%nat →
   ModelSelector.inverse_transform X' s = (Ok (zeros (shape0 X') (shape1 X)), s)).
Proof.
  intros Hfit Hsel. split; [|split].
  - rewrite SelectorFacts.selector_transform_ok by (rewrite Hsel; constructor).
    by rewrite decide_True.
  - intros Hpos. apply SelectorFacts.selector_inverse_transform_mismatch.
    rewrite Hsel. cbn. lia.
  - intros Hzero.
    apply SelectorFacts.selector_fit_inv in Hfit
      as (e' & scores & thr & bound & _ & _ & _ & -> & _).
    cbn [ModelSelector.selected_indices] in Hsel.
    rewrite (SelectorFacts.selector_inverse_transform_ok X' _ (shape1 X));
      cbn [ModelSelector.selected_indices ModelSelector.n_original_features];
      rewrite ?Hsel; try done.
    f_equal. rewrite setitem_cols_ok; cbn; try done.
    + f_equal. unfold zeros. f_equal.
      rewrite zip_with_replicate_l by done. by apply const_fmap.
    + unfold shape0. cbn. by rewrite length_replicate.
Qed.

(** An instance of X8: the importances 0 and 0 with the default
    threshold select nothing; [transform] hands the two columns back and
    [inverse_transform] refuses them. *)
Lemma empty_selection_round_trip_raises_witness :
  let est := {| fe_importances := [zero; zero]; fe_fitted := false;
                fe_params := ∅ |} in
  let X := {| shape1 := 2; rows := [[one; one]] |} in
  ∃ s, ModelSelector.fit X None
         (ModelSelector.init est ModelSelector.default_threshold false)
       = (Ok tt, s) ∧
       ModelSelector.transform X s = (Ok X, s) ∧
       ModelSelector.inverse_transform X s
         = (Raise (Exn ValueError shape_msg), s).
Proof.
  intros est X.
  eassert (Hfit : ModelSelector.fit X None
                    (ModelSelector.init est ModelSelector.default_threshold false)
                  = (Ok tt, _)) by (vm_compute; reflexivity).
  eexists. split; [exact Hfit|].
  destruct (empty_selection_round_trip_raises FixedEstimator _ X None _ _ X
              Hfit eq_refl) as (Htr & Hinv & _).
  split; [exact Htr|]. apply Hinv. cbn. lia.
Defined.

Module PercentileCountFacts.
Import ModelSelector.

Lemma not_leb_ltb x y :
  is_nan x = false → is_nan y = false → leb x y = false → ltb y x = true.
Proof.
  intros Hx Hy Hle. apply FloatOrderFacts.ltb_key.
  split; [done|]. split; [done|].
  assert (Hn : ¬ key_le (key x) (key y)).
  { intros Hk. assert (leb x y = true); [|congruence].
    by apply FloatOrderFacts.leb_key. }
  unfold key_le, key_lt in *. lia.
Qed.

Lemma where_from_length mask : ∀ i,
  length (where_from i mask) = length (filter (λ b, b = true) mask).
Proof.
  induction mask as [|[] mask IH]; intros i; cbn [where_from]; [done| |].
  - rewrite filter_cons_True by done. cbn. by rewrite IH.
  - rewrite filter_cons_False by done. apply IH.
Qed.

Lemma at_least_length scores bound :
  length (at_least scores bound)
  = length (filter (λ v, leb bound v = true) scores).
Proof.
  unfold at_least, where_. rewrite where_from_length.
  induction scores as [|v scores IH]; [done|]. cbn [fmap list_fmap].
  unfold geb, leb in *.
  destruct (SFleb bound v) eqn:Hv.
  - rewrite !filter_cons_True by done. cbn. by rewrite IH.
  - rewrite !filter_cons_False by (by rewrite ?Hv). apply IH.
Qed.

Lemma filter_all {A} (P : A → Prop) `{∀ x, Decision (P x)} (l : list A) :
  Forall P l → filter P l = l.
Proof.
  induction 1 as [|x l Hx _ IH]; [done|].
  by rewrite filter_cons_True, IH.
Qed.

(** In an ascending array without NaN every entry from position [k] on
    reaches the entry at [k]. *)
Lemma sorted_from (l : list float64) (k : nat) bound :
  StronglySorted sort_le l → Forall (λ v, is_nan v = false) l →
  l !! k = Some bound →
  Forall (λ v, leb bound v = true) (drop k l).
Proof.
  intros Hsorted Hnan Hk.
  assert (Hb : is_nan bound = false).
  { eapply (proj1 (Forall_forall _ _) Hnan), list_elem_of_lookup_2, Hk. }
  rewrite (drop_S l bound k Hk). constructor.
  { by apply PercentileModeFacts.leb_refl. }
  apply Forall_forall. intros v Hv.
  assert (Hle : sort_le bound v).
  { rewrite <- (take_drop (S k) l) in Hsorted.
    apply (StronglySorted_app_1_elem_of sort_le _ _ bound v Hsorted); [|done].
    apply elem_of_take. exists k. split; [done|lia]. }
  assert (Hvn : is_nan v = false).
  { apply (proj1 (Forall_forall _ _) Hnan). by eapply subseteq_drop. }
  unfold sort_le, sort_leb in Hle. by destruct bound, v.
Qed.

(** The number of scores that reach the score at position [k] of the
    sorted scores. *)
Lemma count_at_least scores (k : nat) bound :
  Forall (λ v, is_nan v = false) scores →
  sort scores !! k = Some bound →
  (length scores - k ≤ length (at_least scores bound))%nat.
Proof.
  intros Hnan Hk. rewrite at_least_length.
  rewrite <- (sort_Permutation scores) at 2.
  rewrite <- (take_drop k (sort scores)) at 1.
  rewrite filter_app, length_app.
  rewrite (filter_all _ (drop k (sort scores))).
  - rewrite length_drop, (Permutation_length (sort_Permutation scores)). lia.
  - apply sorted_from; [apply FloatOrderFacts.sort_sorted| |done].
    by rewrite (sort_Permutation scores).
Qed.

End PercentileCountFacts.

(** X9. [ModelSelector.fit] with [percentile=True], when it returns and
    no importance is NaN: the selected features are exactly those whose
    importance is at least the entry at the computed index
    [floor((1 - threshold) * n_features)] of the sorted importances; for
    an index that is not negative they number at least [n_features]
    minus that index; and every selected feature has a strictly larger
    importance than every feature left out. *)
Theorem percentile_fit_keeps_top_share
    (E : Type) (est : Estimator E)
    (X : ndarray) (y : option (list float64)) (s0 s : ModelSelector.t E) :
  ModelSelector.percentile s0 = true →
  ModelSelector.fit X y s0 = (Ok tt, s) →
  Forall (λ v, is_nan v = false) (ModelSelector.importance_scores s) →
  ∃ thr index bound,
    as_float (ModelSelector.threshold s0) = Ok thr ∧
    ModelSelector.percentile_index thr (shape1 X) = Ok index ∧
    getitem (sort (ModelSelector.importance_scores s)) index = Ok bound ∧
    (∀ i, i ∈ ModelSelector.selected_indices s ↔
          ∃ v, ModelSelector.importance_scores s !! i = Some v ∧
               leb bound v = true) ∧
    (0 ≤ index →
     Z.of_nat (length (ModelSelector.importance_scores s)) - index
       ≤ Z.of_nat (length (ModelSelector.selected_indices s))) ∧
    (∀ i j vi vj,
       i ∈ ModelSelector.selected_indices s →
       j ∉ ModelSelector.selected_indices s →
       ModelSelector.importance_scores s !! i = Some vi →
       ModelSelector.importance_scores s !! j = Some vj →
       ltb vj vi = true).
Proof.
  intros Hperc
    (e' & scores & thr & bound & Hfit & Himp & Hthr & -> & Hb)%SelectorFacts.selector_fit_inv.
  rewrite Hperc in Hb. destruct Hb as (Hgt & index & Hindex & Hbound).
  cbn [ModelSelector.importance_scores ModelSelector.selected_indices].
  intros Hnan. exists thr, index, bound.
  do 3 (split; [done|]).
  split; [intros i; apply SelectorFacts.at_least_elem|]. split.
  - intros Hpos.
    assert (Hk : sort scores !! Z.to_nat index = Some bound).
    { revert Hbound. unfold getitem.
      destruct (Z.ltb_spec index 0); [lia|].
      destruct (Z.ltb_spec index 0); [lia|].
      by destruct (sort scores !! Z.to_nat index) as [v|]; intros [= ->]. }
    pose proof (PercentileCountFacts.count_at_least scores _ bound Hnan Hk).
    lia.
  - intros i j vi vj (v & Hi & Hv)%SelectorFacts.at_least_elem Hj Hvi Hvj.
    rewrite Hi in Hvi. injection Hvi as ->.
    assert (Hbn : is_nan bound = false)
      by (by apply ThresholdModeFacts.leb_not_nan in Hv as [? _]).
    assert (Hjn : is_nan vj = false).
    { eapply (proj1 (Forall_forall _ _) Hnan), list_elem_of_lookup_2, Hvj. }
    destruct (leb bound vj) eqn:Hle.
    + exfalso. apply Hj, SelectorFacts.at_least_elem. by exists vj.
    + eapply FloatOrderFacts.ltb_leb_trans; [|exact Hv].
      by apply PercentileCountFacts.not_leb_ltb.
Qed.

(** An instance of X9: the importances 0.5, 1, 0 and 1 with the
    threshold 0.5 give the index 2 and keep the two features of
    importance 1. *)
Lemma percentile_fit_keeps_top_share_witness :
  let est := {| fe_importances := [half; one; zero; one]; fe_fitted := false;
                fe_params := ∅ |} in
  let X := {| shape1 := 4; rows := [[one; one; one; one]] |} in
  ∃ s, ModelSelector.fit X None (ModelSelector.init est (PyFloat half) true)
       = (Ok tt, s) ∧
       ModelSelector.percentile_index half 4 = Ok 2 ∧
       ModelSelector.selected_indices s = [1%nat; 3%nat] ∧
       4 - 2 ≤ Z.of_nat (length (ModelSelector.selected_indices s)).
Proof.
  intros est X.
  eassert (Hfit : ModelSelector.fit X None
                    (ModelSelector.init est (PyFloat half) true)
                  = (Ok tt, _)) by (vm_compute; reflexivity).
  eexists. split; [exact Hfit|].
  destruct (percentile_fit_keeps_top_share FixedEstimator _ X None
              (ModelSelector.init est (PyFloat half) true) _
              eq_refl Hfit ltac:(repeat constructor))
    as (thr & index & bound & Hthr & Hindex & _ & _ & Hcount & _).
  injection Hthr as <-.
  split; [reflexivity|]. split; [reflexivity|].
  vm_compute in Hindex. injection Hindex as <-.
  apply Hcount. lia.
Defined.

Module PercentileEdgeFacts.
Import FloatFacts.

Lemma Zdigits2_eq M d :
  0 < d → 2 ^ (d - 1) ≤ M < 2 ^ d → Zdigits2 M = d.
Proof.
  intros Hd [Hlo Hhi].
  assert (HM : 0 < M).
  { pose proof (pow2_pos (d - 1) ltac:(lia)). lia. }
  destruct (Zdigits2_bounds M HM) as [[_ Hhi'] Hpos].
  assert (Zdigits2 M ≤ d) by (apply Zdigits2_le; lia).
  assert (d - 1 < Zdigits2 M); [|lia].
  apply pow2_lt_inv; lia.
Qed.

(** Multiplying one by a normal number is exact. *)
Lemma mul_one_exact mn en :
  2 ^ (prec - 1) ≤ Z.pos mn < 2 ^ prec → 1 - prec ≤ en ≤ 0 →
  mul one (S754_finite false mn en) = S754_finite false mn en.
Proof.
  intros Hmn Hen. rewrite one_eq. unfold mul. cbn [SFmul xorb].
  rewrite binary_round_aux_exact by lia.
  unfold round_result.
  set (M := Z.pos (4503599627370496 * mn)).
  assert (HM : M = Z.pos mn * 2 ^ 52) by (unfold M; lia).
  assert (HdM : Zdigits2 M = 105).
  { apply Zdigits2_eq; [lia|]. rewrite HM.
    change (2 ^ (105 - 1)) with (2 ^ 52 * 2 ^ 52).
    change (2 ^ 105) with (2 ^ 53 * 2 ^ 52).
    unfold prec in Hmn. change (2 ^ (53 - 1)) with (2 ^ 52) in Hmn. lia. }
  rewrite HdM.
  assert (Hk : Z.max 0 (fexp64 (105 + (-52 + en)) - (-52 + en)) = 52).
  { unfold fexp64, fexp, emin, prec, emax in *. lia. }
  rewrite Hk.
  assert (Hrne : rne M 52 = Z.pos mn).
  { unfold rne. rewrite HM, Z.div_mul, Z.mod_mul by lia. reflexivity. }
  rewrite Hrne.
  assert (Hdm : Zdigits2 (Z.pos mn) = 53).
  { apply Zdigits2_eq; [lia|]. unfold prec in Hmn. done. }
  rewrite Hdm.
  assert (Hk2 : Z.max 0 (fexp64 (53 + (-52 + en + 52)) - (-52 + en + 52)) = 0).
  { unfold fexp64, fexp, emin, prec, emax in *. lia. }
  rewrite Hk2, Z.pow_0_r, Z.div_1_r.
  replace (-52 + en + 52 + 0) with en by lia.
  destruct (Z.leb_spec en (emax - prec)); [done|].
  unfold emax, prec in *. lia.
Qed.

(** When [1 - threshold] rounds to one, the index is the number of
    features. *)
Lemma percentile_index_full thr (n : nat) :
  sub one thr = one → (0 < n)%nat → Z.of_nat n < 2 ^ prec →
  ModelSelector.percentile_index thr n = Ok (Z.of_nat n).
Proof.
  intros Hsub Hn Hnlt. unfold ModelSelector.percentile_index. rewrite Hsub.
  destruct (of_Z_exact (Z.of_nat n) ltac:(lia))
    as (mn & en & -> & Hmn & Hen & Hnval).
  rewrite mul_one_exact by done.
  cbn [int_floor]. f_equal. unfold floor_finite. cbn [cond_Zopp].
  rewrite Z.shiftl_div_pow2 by lia.
  rewrite Hnval. apply Z.div_mul.
  pose proof (pow2_pos (- en) ltac:(lia)). lia.
Qed.

End PercentileEdgeFacts.

(** X10. [ModelSelector.fit] with [percentile=True] and a threshold so
    small that [1 - threshold] rounds to one in binary64 (the threshold
    0 in particular) raises [IndexError]: the index
    [floor((1 - threshold) * n_features)] is [n_features], one past the
    end of the sorted importances. The wrapped estimator has been fitted
    and the importances stored by then, and [selected_indices] is
    unchanged. *)
Theorem percentile_fit_index_past_end
    (E : Type) (est : Estimator E) (contract : EstimatorContract E)
    (X : ndarray) (y : option (list float64)) (s0 : ModelSelector.t E)
    (e' : E) (scores : list float64) (thr : float64) :
  ModelSelector.percentile s0 = true →
  as_float (ModelSelector.threshold s0) = Ok thr →
  gtb thr one = false → sub one thr = one →
  est_fit X y (ModelSelector.estimator_obj s0) = (Ok tt, e') →
  ModelSelector._get_feature_importances e' = Ok scores →
  (0 < shape1 X)%nat → Z.of_nat (shape1 X) < 2 ^ 53 →
  ModelSelector.percentile_index thr (shape1 X) = Ok (Z.of_nat (shape1 X)) ∧
  ∃ msg s',
    ModelSelector.fit X y s0 = (Raise (Exn IndexError msg), s') ∧
    ModelSelector.estimator_obj s' = e' ∧
    ModelSelector.importance_scores s' = scores ∧
    ModelSelector.selected_indices s' = ModelSelector.selected_indices s0.
Proof.
  intros Hperc Hthr Hgt Hsub Hfit Himp Hn Hnlt.
  pose proof (PercentileEdgeFacts.percentile_index_full thr (shape1 X)
                Hsub Hn Hnlt) as Hindex.
  split; [done|].
  pose proof (SelectorFacts.importances_length X y _ e' scores Hfit Himp) as Hlen.
  assert (Hget : getitem (sort scores) (Z.of_nat (shape1 X))
                 = Raise (Exn IndexError "index is out of bounds for axis 0")).
  { unfold getitem.
    destruct (Z.ltb_spec (Z.of_nat (shape1 X)) 0); [lia|].
    destruct (Z.ltb_spec (Z.of_nat (shape1 X)) 0); [lia|].
    rewrite Nat2Z.id, (proj2 (lookup_ge_None _ _)); [done|].
    rewrite (Permutation_length (sort_Permutation scores)). lia. }
  eexists _, _. split.
  { unfold ModelSelector.fit. run_method. SelectorFacts.attrs.
    rewrite Hfit. cbv beta iota zeta. SelectorFacts.attrs.
    rewrite Himp. SelectorFacts.attrs. rewrite Hthr, Hperc. cbn [negb].
    rewrite Hgt, Hindex, Hget. reflexivity. }
  unfold ModelSelector.set_importance_scores, ModelSelector.set_estimator_obj,
    ModelSelector.set_n_original_features. done.
Qed.

(** An instance of X10: the threshold 0 on two features. *)
Lemma percentile_fit_index_past_end_witness :
  let est := {| fe_importances := [one; half]; fe_fitted := false;
                fe_params := ∅ |} in
  let X := {| shape1 := 2; rows := [[one; one]] |} in
  ModelSelector.percentile_index zero 2 = Ok 2 ∧
  ∃ msg s', ModelSelector.fit X None (ModelSelector.init est (PyInt 0) true)
            = (Raise (Exn IndexError msg), s').
Proof.
  intros est X.
  eassert (Hest : est_fit X None est = (Ok tt, _)) by (vm_compute; reflexivity).
  destruct (percentile_fit_index_past_end FixedEstimator _ FixedEstimator_contract
              X None (ModelSelector.init est (PyInt 0) true) _ [one; half] zero
              eq_refl eq_refl eq_refl eq_refl Hest eq_refl
              ltac:(cbn; lia) eq_refl)
    as (Hindex & msg & s' & Hfit & _).
  split; [exact Hindex|]. by exists msg, s'.
Defined.

Module LassoFitFacts.
Import LassoFeatureSelection.

Section WithLasso.

Context {E : Type} `{Estimator E}.
Variable Lasso : pyval → gmap string pyval → result E.

(** [fit], run: the constructor of [Lasso] first, then the [fit] of a
    new [ModelSelector], which is stored whatever that [fit] does. *)
Lemma lasso_fit_run X y (s0 : t E) :
  fit Lasso X y s0 =
    match Lasso (alpha s0) (Lasso_kwargs s0) with
    | Raise e => (Raise e, s0)
    | Ok lasso =>
        let '(r, ms) :=
          ModelSelector.fit X y (ModelSelector.init lasso (percentile s0) true) in
        (r, set_model_selector (Some ms) s0)
    end.
Proof.
  unfold fit, on_model_selector. run_method.
  destruct (Lasso (alpha s0) (Lasso_kwargs s0)) as [lasso|e]; [|done].
  cbn [model_selector set_model_selector].
  destruct (ModelSelector.fit X y _) as [r ms]. by destruct s0.
Qed.

Lemma lasso_run (A : Type) (m : M (ModelSelector.t E) A) (s : t E) ms r :
  model_selector s = Some ms → m ms = (r, ms) →
  on_model_selector m s = (r, s).
Proof.
  intros Hms Hm. unfold on_model_selector. rewrite Hms, Hm.
  by rewrite LassoFacts.set_model_selector_id.
Qed.

End WithLasso.

#[export] Instance LinearModel_contract : EstimatorContract LinearModel.
Proof.
  split.
  - done.
  - intros X y e e' w. cbn. case_decide as Hc; [|done]. intros [= <-]. cbn.
    intros [= Hw]. by rewrite Hw in Hc.
  - intros X y e e' W. cbn. case_decide as Hc; [|done]. intros [= <-]. cbn.
    intros [= HW]. by rewrite HW in Hc.
  - intros e. cbn. by rewrite decide_True.
Qed.

End LassoFitFacts.

(** X11. When [LassoFeatureSelection.fit] raises, either the constructor
    of [Lasso] raised and the object is unchanged, or the [fit] of the
    new [ModelSelector] raised: then that selector has replaced the
    earlier one, it has no selected index, and a later [transform]
    returns its input as it is instead of raising. *)
Theorem lasso_failing_fit
    (E : Type) (est : Estimator E)
    (Lasso : pyval → gmap string pyval → result E)
    (X : ndarray) (y : option (list float64))
    (s0 s : LassoFeatureSelection.t E) (e : exn) :
  LassoFeatureSelection.fit Lasso X y s0 = (Raise e, s) →
  (Lasso (LassoFeatureSelection.alpha s0) (LassoFeatureSelection.Lasso_kwargs s0)
     = Raise e ∧ s = s0) ∨
  (∃ lasso ms,
     Lasso (LassoFeatureSelection.alpha s0) (LassoFeatureSelection.Lasso_kwargs s0)
       = Ok lasso ∧
     ModelSelector.fit X y
       (ModelSelector.init lasso (LassoFeatureSelection.percentile s0) true)
       = (Raise e, ms) ∧
     LassoFeatureSelection.model_selector s = Some ms ∧
     ModelSelector.selected_indices ms = [] ∧
     ∀ X', LassoFeatureSelection.transform X' s = (Ok X', s)).
Proof.
  rewrite LassoFitFacts.lasso_fit_run.
  destruct (Lasso _ _) as [lasso|e0]; [|intros [= <- <-]; by left].
  destruct (ModelSelector.fit X y _) as [r ms] eqn:Hms.
  intros [= -> <-]. right. exists lasso, ms.
  split; [done|]. split; [done|]. split; [done|].
  destruct (FailingFitFacts.selector_fit_raise_inv _ _ _ _ _ Hms) as (Hsel & _).
  cbn in Hsel. split; [done|].
  intros X'. apply (LassoFitFacts.lasso_run _ _ _ ms); [done|].
  rewrite SelectorFacts.selector_transform_ok by (rewrite Hsel; constructor).
  by rewrite decide_True.
Qed.

(** An instance of X11: the share 2 of features to keep is above one;
    [fit] raises and [transform] then returns the input. *)
Lemma lasso_failing_fit_witness :
  let X := {| shape1 := 2; rows := [[one; one]] |} in
  let s0 := LassoFeatureSelection.init (PyInt 2)
              LassoFeatureSelection.default_alpha ∅ in
  ∃ e s, LassoFeatureSelection.fit (fixed_Lasso (Coef1 [one; half])) X None s0
         = (Raise e, s) ∧
         exn_cls e = ValueError ∧
         LassoFeatureSelection.transform X s = (Ok X, s).
Proof.
  intros X s0.
  eassert (Hfit : LassoFeatureSelection.fit (fixed_Lasso (Coef1 [one; half]))
                    X None s0 = (Raise _, _)) by (vm_compute; reflexivity).
  eexists _, _. split; [exact Hfit|]. split; [reflexivity|].
  destruct (lasso_failing_fit LinearModel _ _ X None s0 _ _ Hfit)
    as [[Hl _]|(lasso & ms & _ & _ & _ & _ & Htr)]; [discriminate Hl|].
  apply Htr.
Defined.

(** X12. After [LassoFeatureSelection.fit] has returned, the object
    holds a [ModelSelector] in percentile mode that does not depend on
    the one held before; when it has selected a feature, [transform]
    followed by [inverse_transform] on an array of the fitted width
    returns an array of that width that equals the input on the selected
    columns and is zero on the others. *)
Theorem lasso_round_trip
    (E : Type) (est : Estimator E) (contract : EstimatorContract E)
    (Lasso : pyval → gmap string pyval → result E)
    (X : ndarray) (y : option (list float64))
    (s0 s : LassoFeatureSelection.t E) (X' : ndarray) :
  LassoFeatureSelection.fit Lasso X y s0 = (Ok tt, s) →
  wf X' → shape1 X' = shape1 X →
  ∃ ms,
    LassoFeatureSelection.model_selector s = Some ms ∧
    ModelSelector.percentile ms = true ∧
    ModelSelector.threshold ms = LassoFeatureSelection.percentile s0 ∧
    (∀ old, LassoFeatureSelection.fit Lasso X y
              (LassoFeatureSelection.set_model_selector old s0)
            = (Ok tt, s)) ∧
    (ModelSelector.selected_indices ms ≠ [] →
     ∃ Y Z,
       LassoFeatureSelection.transform X' s = (Ok Y, s) ∧
       LassoFeatureSelection.inverse_transform Y s = (Ok Z, s) ∧
       shape1 Z = shape1 X ∧ shape0 Z = shape0 X' ∧
       ∀ r c, (r < shape0 X')%nat → (c < shape1 X)%nat →
         entry Z r c =
           if decide (c ∈ ModelSelector.selected_indices ms)
           then entry X' r c else Some zero).
Proof.
  intros Hfit Hwf Hshape. pose proof Hfit as Hfit0.
  rewrite LassoFitFacts.lasso_fit_run in Hfit.
  destruct (Lasso _ _) as [lasso|e0] eqn:Hl; [|done].
  destruct (ModelSelector.fit X y _) as [r ms] eqn:Hms.
  injection Hfit as -> <-. exists ms.
  split; [done|].
  pose proof Hms as (e' & scores & thr & bound & _ & _ & _ & Hmseq & _)%SelectorFacts.selector_fit_inv.
  split; [by rewrite Hmseq|]. split; [by rewrite Hmseq|]. split.
  { intros old. rewrite LassoFitFacts.lasso_fit_run.
    cbn [LassoFeatureSelection.alpha LassoFeatureSelection.Lasso_kwargs
         LassoFeatureSelection.percentile
         LassoFeatureSelection.set_model_selector].
    rewrite Hl, Hms. by destruct s0. }
  intros Hne.
  destruct (SelectorFacts.selector_fit_selected_lt X y _ ms Hms) as [Hlt Hn].
  set (sel := ModelSelector.selected_indices ms) in *.
  assert (Hlt' : Forall (λ i, (i < shape1 X')%nat) sel) by (by rewrite Hshape).
  pose proof (getitem_cols_ok X' sel Hlt') as HY.
  set (Y := {| shape1 := length sel; rows := (λ r, pick r sel) <$> rows X' |}) in *.
  destruct (InverseFacts.zeros_then_store_ok (shape1 X) sel Y Hlt eq_refl)
    as (Z & HZ & HZ1 & HZ0 & _).
  set (s := LassoFeatureSelection.set_model_selector (Some ms) s0).
  assert (Hsms : LassoFeatureSelection.model_selector s = Some ms) by done.
  exists Y, Z. split.
  { apply (LassoFitFacts.lasso_run _ _ _ ms); [exact Hsms|].
    rewrite SelectorFacts.selector_transform_ok by done. fold sel.
    by rewrite decide_False. }
  split.
  { apply (LassoFitFacts.lasso_run _ _ _ ms); [exact Hsms|].
    rewrite (SelectorFacts.selector_inverse_transform_ok Y ms (shape1 X)); try done.
    fold sel. by rewrite HZ. }
  split; [done|].
  assert (HY0 : shape0 Y = shape0 X').
  { unfold shape0, Y. cbn [rows]. by rewrite length_fmap. }
  split; [by rewrite HZ0|].
  intros r c Hr Hc.
  by apply (InverseFacts.store_picked_entry (shape1 X) sel X' Y Z).
Qed.

(** An instance of X12: coefficients 1 and -0.5, keeping the upper
    half. *)
Lemma lasso_round_trip_witness :
  let X := {| shape1 := 2; rows := [[one; one]] |} in
  let s0 := LassoFeatureSelection.init (PyFloat half)
              LassoFeatureSelection.default_alpha ∅ in
  ∃ s Y Z,
    LassoFeatureSelection.fit
      (fixed_Lasso (Coef1 [one; mul (of_Z (-1)) half])) X None s0 = (Ok tt, s) ∧
    LassoFeatureSelection.transform X s = (Ok Y, s) ∧
    LassoFeatureSelection.inverse_transform Y s = (Ok Z, s) ∧
    rows Y = [[one]] ∧ rows Z = [[one; zero]].
Proof.
  intros X s0.
  eassert (Hfit : LassoFeatureSelection.fit
                    (fixed_Lasso (Coef1 [one; mul (of_Z (-1)) half])) X None s0
                  = (Ok tt, _)) by (vm_compute; reflexivity).
  destruct (lasso_round_trip LinearModel _ LassoFitFacts.LinearModel_contract
              _ X None s0 _ X Hfit
              ltac:(repeat constructor) eq_refl)
    as (ms & Hms & _ & _ & _ & Hrt).
  injection Hms as <-.
  destruct (Hrt ltac:(discriminate)) as (Y & Z & HY & HZ & _).
  eexists _, Y, Z. split; [exact Hfit|]. split; [exact HY|]. split; [exact HZ|].
  vm_compute in HY. injection HY as <-.
  vm_compute in HZ. injection HZ as <-. done.
Defined.

Module WrapperFacts.
Import SelectPercentileWrapper.

Lemma getitem_cols_wf X idx Y : getitem_cols X idx = Ok Y → wf Y.
Proof.
  intros [_ ->]%getitem_cols_inv. unfold wf. cbn [rows shape1].
  apply Forall_fmap, Forall_true. intros r. cbn. apply length_pick.
Qed.

Section WithSelectors.

Context {VT SP : Type} `{Selector VT} `{Selector SP}.
Variable SelectPercentile : score_func → pyval → SP.
Variable score : score_func.

(** [SelectorMixin.transform], when it returns, returns the columns of
    the support. *)
Hypothesis vt_cols : ∀ (s : VT) X Y,
  sel_transform s X = Ok Y → getitem_cols X (sel_support s) = Ok Y.
Hypothesis sp_cols : ∀ (s : SP) X Y,
  sel_transform s X = Ok Y → getitem_cols X (sel_support s) = Ok Y.

Lemma wrapper_transform_cols (s s' : t VT SP) fs X Y :
  my_fs s = Some fs → wf X →
  transform X s = (Ok Y, s') →
  s' = s ∧ shape0 Y = shape0 X ∧ shape1 Y = length (sel_support fs) ∧ wf Y ∧
  ∀ r j i k, sel_support fs !! j = Some i →
             sel_support (var_thres s) !! i = Some k →
             entry Y r j = entry X r k.
Proof.
  intros Hfs Hwf. rewrite (PercentileFacts.wrapper_transform_run X s fs Hfs).
  destruct (sel_transform (var_thres s) X) as [X1|e] eqn:H1; [|done].
  cbn [r_bind]. destruct (sel_transform fs X1) as [Y'|e] eqn:H2; [|done].
  intros [= -> <-]. apply vt_cols in H1. apply sp_cols in H2.
  pose proof (getitem_cols_wf _ _ _ H1) as Hwf1.
  split; [done|]. split; [|split; [|split]].
  - apply getitem_cols_inv in H1 as [_ ->]. apply getitem_cols_inv in H2 as [_ ->].
    unfold shape0. cbn [rows]. by rewrite !length_fmap.
  - by apply getitem_cols_inv in H2 as [_ ->].
  - by eapply getitem_cols_wf.
  - intros r j i k Hj Hi.
    rewrite (getitem_cols_entry X1 _ Y r j i Hwf1 H2 Hj).
    by apply (getitem_cols_entry X _ X1 r i k Hwf H1).
Qed.

(** Where a raising [fit] stopped, and what it left. *)
Lemma wrapper_fit_raise_inv X y (s0 s : t VT SP) e :
  fit SelectPercentile score X y s0 = (Raise e, s) →
  percentile s = percentile s0 ∧
  ((my_fs s = my_fs s0 ∧
    ∃ vt, var_thres s = vt ∧
          (sel_fit X None (var_thres s0) = (Raise e, vt) ∨
           (sel_fit X None (var_thres s0) = (Ok tt, vt) ∧
            sel_transform vt X = Raise e))) ∨
   (∃ X1 fs, my_fs s = Some fs ∧
             sel_fit X None (var_thres s0) = (Ok tt, var_thres s) ∧
             sel_transform (var_thres s) X = Ok X1 ∧
             sel_fit X1 (Some y) (SelectPercentile score (percentile s0))
               = (Raise e, fs))).
Proof.
  unfold fit. run_method.
  destruct (sel_fit X None (var_thres s0)) as [[[]|e0] vt] eqn:Hvt;
    cbv beta iota zeta.
  - cbn [var_thres set_var_thres percentile my_fs].
    destruct (sel_transform vt X) as [X1|e0] eqn:HX1.
    + destruct (sel_fit X1 (Some y) (SelectPercentile score (percentile s0)))
        as [[[]|e0] fs] eqn:Hfs; cbv beta iota zeta; [done|].
      intros [= <- <-]. split; [done|]. right. by exists X1, fs.
    + intros [= <- <-]. split; [done|]. left. split; [done|].
      exists vt. split; [done|]. by right.
  - intros [= <- <-]. split; [done|]. left. split; [done|].
    exists vt. split; [done|]. by left.
Qed.

End WithSelectors.
End WrapperFacts.

(** X13. [transform] of the two percentile wrappers composes the two
    selectors: given that a selector's [transform], when it returns,
    returns the columns of its support, column [j] of the result is the
    column of the input found by going through the support of [my_fs]
    and then through that of [var_thres]; the object is unchanged, and
    the result has the rows of the input and one column for each index
    in the support of [my_fs]. *)
Theorem wrapper_transform_composes
    (VT SP : Type) (vt : Selector VT) (sp : Selector SP)
    (vt_cols : ∀ (s : VT) X Y,
       sel_transform s X = Ok Y → getitem_cols X (sel_support s) = Ok Y)
    (sp_cols : ∀ (s : SP) X Y,
       sel_transform s X = Ok Y → getitem_cols X (sel_support s) = Ok Y)
    (s s' : SelectPercentileWrapper.t VT SP) (fs : SP) (X Y : ndarray) :
  SelectPercentileWrapper.my_fs s = Some fs → wf X →
  FRegressionSelectPercentile.transform X s = (Ok Y, s') →
  FClassifSelectPercentile.transform X s = (Ok Y, s') ∧
  s' = s ∧ shape0 Y = shape0 X ∧ shape1 Y = length (sel_support fs) ∧ wf Y ∧
  ∀ r j i k, sel_support fs !! j = Some i →
             sel_support (SelectPercentileWrapper.var_thres s) !! i = Some k →
             entry Y r j = entry X r k.
Proof.
  intros Hfs Hwf Ht. split; [exact Ht|].
  by apply (WrapperFacts.wrapper_transform_cols vt_cols sp_cols s s' fs X Y).
Qed.

(** An instance of X13: [var_thres] keeps the columns 0 and 2 of three,
    [my_fs] the second of those; the result is column 2 of the input. *)
Lemma wrapper_transform_composes_witness :
  let s := SelectPercentileWrapper.Build
             {| kc_keep := [0%nat; 2%nat]; kc_n_features := Some 3%nat |}
             (PyInt 50)
             (Some {| kc_keep := [1%nat]; kc_n_features := Some 2%nat |}) in
  let X := {| shape1 := 3; rows := [[zero; half; one]] |} in
  ∃ Y, FRegressionSelectPercentile.transform X s = (Ok Y, s) ∧
       entry Y 0 0 = entry X 0 2.
Proof.
  intros s X.
  eassert (Ht : FRegressionSelectPercentile.transform X s = (Ok _, _))
    by (vm_compute; reflexivity).
  assert (Hcols : ∀ (k : KeepColumns) X Y,
            sel_transform k X = Ok Y → getitem_cols X (sel_support k) = Ok Y).
  { intros k X0 Y0. cbn. by case_decide. }
  destruct (wrapper_transform_composes KeepColumns KeepColumns _ _ Hcols Hcols
              s _ _ X _ eq_refl ltac:(repeat constructor) Ht)
    as (_ & Hs & _ & _ & _ & Hentry).
  eexists. split; [rewrite <- Hs at 2; exact Ht|].
  by apply (Hentry 0%nat 0%nat 1%nat 2%nat).
Defined.

(** X14. When [fit] of a percentile wrapper raises, [percentile] is
    unchanged and either [VarianceThreshold] raised, in its [fit]
    (called without [y]) or its [transform]: then [my_fs] is the
    selector of an earlier [fit], or still [None]; or the [fit] of the
    new [SelectPercentile] raised, on the data [var_thres] returned and
    with [y]: then that selector has replaced the earlier one. *)
Theorem wrapper_failing_fit
    (VT SP : Type) (vt : Selector VT) (sp : Selector SP)
    (SelectPercentile : score_func → pyval → SP)
    (X : ndarray) (y : list float64)
    (s0 s : SelectPercentileWrapper.t VT SP) (e : exn) (score : score_func) :
  match score with
  | f_regression_score => FRegressionSelectPercentile.fit SelectPercentile X y s0
  | f_classif_score => FClassifSelectPercentile.fit SelectPercentile X y s0
  end = (Raise e, s) →
  SelectPercentileWrapper.percentile s = SelectPercentileWrapper.percentile s0 ∧
  ((SelectPercentileWrapper.my_fs s = SelectPercentileWrapper.my_fs s0 ∧
    ∃ v, SelectPercentileWrapper.var_thres s = v ∧
         (sel_fit X None (SelectPercentileWrapper.var_thres s0) = (Raise e, v) ∨
          (sel_fit X None (SelectPercentileWrapper.var_thres s0) = (Ok tt, v) ∧
           sel_transform v X = Raise e))) ∨
   (∃ X1 fs,
      SelectPercentileWrapper.my_fs s = Some fs ∧
      sel_fit X None (SelectPercentileWrapper.var_thres s0)
        = (Ok tt, SelectPercentileWrapper.var_thres s) ∧
      sel_transform (SelectPercentileWrapper.var_thres s) X = Ok X1 ∧
      sel_fit X1 (Some y)
        (SelectPercentile score (SelectPercentileWrapper.percentile s0))
        = (Raise e, fs))).
Proof.
  intros Hfit.
  apply (WrapperFacts.wrapper_fit_raise_inv SelectPercentile score X y s0 s e).
  by destruct score.
Qed.

(** An instance of X14: [var_thres] drops every column, and the new
    [SelectPercentile] refuses the empty data; it is left in [my_fs]. *)
Lemma wrapper_failing_fit_witness :
  let X := {| shape1 := 2; rows := [[one; one]] |} in
  let SelectPercentile : score_func → pyval → StrictColumns :=
    λ _ _, {| sc_inner := {| kc_keep := [0%nat]; kc_n_features := None |} |} in
  let s0 := FRegressionSelectPercentile.init
              {| kc_keep := []; kc_n_features := None |}
              SelectPercentileWrapper.default_percentile in
  ∃ e s, FRegressionSelectPercentile.fit (H0:=StrictColumns_selector)
           SelectPercentile X [one] s0
         = (Raise e, s) ∧
         exn_cls e = ValueError ∧
         SelectPercentileWrapper.my_fs s0 = None ∧
         ∃ fs, SelectPercentileWrapper.my_fs s = Some fs.
Proof.
  intros X SelectPercentile s0.
  eassert (Hfit : FRegressionSelectPercentile.fit (H0:=StrictColumns_selector)
                    SelectPercentile X [one] s0
                  = (Raise _, _)) by (vm_compute; reflexivity).
  eexists _, _. split; [exact Hfit|]. split; [reflexivity|].
  split; [reflexivity|].
  destruct (wrapper_failing_fit KeepColumns StrictColumns _ StrictColumns_selector
              SelectPercentile
              X [one] s0 _ _ f_regression_score Hfit)
    as [_ [[Hsame _]|(X1 & fs & Hfs & _)]]; [discriminate Hsame|].
  by exists fs.
Defined.

Module FoldIndexFacts.

(** Python's index [i] into a list of length [n]. *)
Lemma getitem_wrap {A} (a : list A) (i : Z) :
  - Z.of_nat (length a) ≤ i < 0 →
  getitem a i = getitem a (i + Z.of_nat (length a)).
Proof.
  intros Hi. unfold getitem. cbv zeta.
  rewrite (proj2 (Z.ltb_lt i 0)) by lia.
  by rewrite !(proj2 (Z.ltb_ge (i + Z.of_nat (length a)) 0)) by lia.
Qed.

Lemma getitem_out_of_range {A} (a : list A) (i : Z) :
  i < - Z.of_nat (length a) ∨ Z.of_nat (length a) ≤ i →
  ∃ msg, getitem a i = Raise (Exn IndexError msg).
Proof.
  intros Hi. unfold getitem. cbv zeta.
  destruct (Z.ltb_spec i 0).
  - rewrite (proj2 (Z.ltb_lt (i + Z.of_nat (length a)) 0)) by lia. by eexists.
  - rewrite (proj2 (Z.ltb_ge i 0)) by lia.
    rewrite (proj2 (lookup_ge_None a (Z.to_nat i))) by lia. by eexists.
Qed.

End FoldIndexFacts.

(** X15. The fold number of [compare_configurations] is used as the
    Python index [int(fold_nr) - 1] into the outer folds of the
    pipeline: a number above their count, or below one minus their
    count, raises [IndexError], which the handler does not catch; a
    number from one minus the count up to zero counts from the end, so
    that it gives the response of that number plus the count (fold 0 is
    the last fold). The pipeline is looked up before the fold number is
    read: when the lookup raises, the response does not depend on the
    fold number or the form. *)
Theorem compare_configurations_fold_index
    (vm : Investigator.ViewModels) (env : Investigator.Environment)
    (form : list (string * string)) (name fold_nr : string) :
  (∀ pipe nr,
     Investigator.objects_get name = Ok pipe →
     Investigator.int fold_nr = Ok nr →
     let n := Z.of_nat (length (Investigator.outer_folds pipe)) in
     (nr < 1 - n ∨ n < nr →
      ∃ msg, Investigator.compare_configurations form name fold_nr
             = Raise (Exn IndexError msg)) ∧
     (1 - n ≤ nr ≤ 0 →
      ∀ fold_nr', Investigator.int fold_nr' = Ok (nr + n) →
        Investigator.compare_configurations form name fold_nr
        = Investigator.compare_configurations form name fold_nr')) ∧
  (∀ e, Investigator.objects_get name = Raise e →
        ∀ form' fold_nr',
          Investigator.compare_configurations form name fold_nr
          = Investigator.compare_configurations form' name fold_nr').
Proof.
  split.
  - intros pipe nr Hpipe Hint n. split.
    + intros Hout.
      destruct (FoldIndexFacts.getitem_out_of_range
                  (Investigator.outer_folds pipe) (nr - 1)) as [msg Hget];
        [fold n; lia|].
      exists msg. unfold Investigator.compare_configurations, Investigator.try_body.
      rewrite Hpipe. cbn [r_bind]. rewrite Hint. cbn [r_bind].
      by rewrite Hget.
    + intros Hin fold_nr' Hint'.
      unfold Investigator.compare_configurations, Investigator.try_body.
      rewrite Hpipe. cbn [r_bind]. rewrite Hint, Hint'. cbn [r_bind].
      rewrite (FoldIndexFacts.getitem_wrap (Investigator.outer_folds pipe) (nr - 1))
        by (fold n; lia).
      fold n. by replace (nr - 1 + n) with (nr + n - 1) by lia.
  - intros e He form' fold_nr'.
    unfold Investigator.compare_configurations, Investigator.try_body.
    by rewrite He.
Qed.

(** An instance of X15 on the store with two folds: fold 3 raises, and
    fold 0 shows the second fold, as fold 2 does. *)
Lemma compare_configurations_fold_index_witness :
  let compare :=
    @Investigator.compare_configurations plain_view_models two_fold_environment in
  (∃ msg, compare [("config_list", "3")] "heart" "3" = Raise (Exn IndexError msg)) ∧
  compare [("config_list", "3")] "heart" "0"
    = compare [("config_list", "3")] "heart" "2" ∧
  compare [("config_list", "3")] "heart" "0"
    = Ok "configuration/compare.html config_3".
Proof.
  intros compare.
  split; [|split; [|reflexivity]].
  - destruct (compare_configurations_fold_index plain_view_models
                two_fold_environment [("config_list", "3")] "heart" "3")
      as [Hfold _].
    destruct (Hfold two_fold_pipe 3 eq_refl eq_refl) as [Hout _].
    apply Hout. cbn. lia.
  - destruct (compare_configurations_fold_index plain_view_models
                two_fold_environment [("config_list", "3")] "heart" "0")
      as [Hfold _].
    destruct (Hfold two_fold_pipe 0 eq_refl eq_refl) as [_ Hwrap].
    apply Hwrap; [cbn; lia|reflexivity].
Defined.

(** X16. The response of [compare_configurations] depends on the
    submitted [config_list] values only as a set: forms whose values
    for that field have the same members, in whatever order and however
    often, get the same response. The loop builds as many views as
    training traces and as test traces, one for each configuration
    kept, and never more than the fold has configurations. *)
Theorem compare_configurations_selection_as_set
    (vm : Investigator.ViewModels) (env : Investigator.Environment) :
  (∀ (form form' : list (string * string)) (name fold_nr : string),
     (∀ v, v ∈ Investigator.getlist form "config_list" ↔
           v ∈ Investigator.getlist form' "config_list") →
     Investigator.compare_configurations form name fold_nr
     = Investigator.compare_configurations form' name fold_nr) ∧
  (∀ (selected : list string) (configs : list Investigator.MDBConfig),
     let c := Investigator.collect selected configs in
     length (Investigator.config_dict_list c)
       = length (Investigator.config_list c) ∧
     length (Investigator.trace_training_list c)
       = length (Investigator.config_list c) ∧
     length (Investigator.trace_test_list c)
       = length (Investigator.config_list c) ∧
     (length (Investigator.config_list c) ≤ length configs)%nat).
Proof.
  split.
  - intros form form' name fold_nr Hset.
    unfold Investigator.compare_configurations, Investigator.try_body.
    destruct (Investigator.objects_get name) as [pipe|e]; [|done].
    cbn [r_bind].
    destruct (Investigator.int fold_nr) as [nr|e]; [|done].
    cbn [r_bind].
    destruct (getitem (Investigator.outer_folds pipe) (nr - 1))
      as [outer_fold|e]; [|done].
    cbn [r_bind]. cbn zeta.
    rewrite !ControllerFacts.collect_spec.
    cbn [Investigator.config_dict_list Investigator.trace_training_list
         Investigator.trace_test_list].
    by rewrite (list_filter_iff _ _ _
                  (λ c, Hset (Investigator.str (Investigator.config_nr c)))).
  - intros selected configs c. unfold c.
    rewrite ControllerFacts.collect_spec.
    cbn [Investigator.config_dict_list Investigator.trace_training_list
         Investigator.trace_test_list Investigator.config_list].
    rewrite !length_fmap. split_and!; try done. apply length_filter.
Qed.

(** An instance of X16 on the demonstration store: the values 2, 3 and
    3, 2, 3 select the same two configurations. *)
Lemma compare_configurations_selection_as_set_witness :
  Investigator.compare_configurations
    [("config_list", "2"); ("config_list", "3")] "heart" "1"
  = Investigator.compare_configurations
      [("config_list", "3"); ("config_list", "2"); ("config_list", "3")]
      "heart" "1".
Proof.
  destruct (compare_configurations_selection_as_set plain_view_models
              demo_environment) as [Hset _].
  apply Hset. intros v.
  change (v ∈ ["2"; "3"] ↔ v ∈ ["3"; "2"; "3"]).
  rewrite !elem_of_cons, !elem_of_nil. tauto.
Defined.

(** X17. [ModelSelector.set_params] never changes what [fit] has
    selected: [selected_indices], [importance_scores],
    [n_original_features] and [percentile] are as before, whatever the
    parameters and whether or not the estimator accepts them, so that
    [transform] and [inverse_transform] return what they returned
    before; a new threshold only shows after the next [fit]. *)
Theorem set_params_keeps_selection
    (E : Type) (est : Estimator E)
    (params : gmap string pyval) (s s' : ModelSelector.t E) (r : result unit) :
  ModelSelector.set_params params s = (r, s') →
  ModelSelector.selected_indices s' = ModelSelector.selected_indices s ∧
  ModelSelector.importance_scores s' = ModelSelector.importance_scores s ∧
  ModelSelector.n_original_features s' = ModelSelector.n_original_features s ∧
  ModelSelector.percentile s' = ModelSelector.percentile s ∧
  (∀ X, (ModelSelector.transform X s').1 = (ModelSelector.transform X s).1) ∧
  (∀ X, (ModelSelector.inverse_transform X s').1
        = (ModelSelector.inverse_transform X s).1).
Proof.
  rewrite SelectorFacts.selector_set_params_run. cbv zeta.
  destruct (est_set_params _ _) as [r0 e']. intros [= _ <-].
  assert (Hattrs :
    ∀ s1 : ModelSelector.t E,
      s1 = match params !! "threshold" with
           | Some v => ModelSelector.set_threshold v s
           | None => s
           end →
      ModelSelector.selected_indices (ModelSelector.set_estimator_obj e' s1)
        = ModelSelector.selected_indices s ∧
      ModelSelector.importance_scores (ModelSelector.set_estimator_obj e' s1)
        = ModelSelector.importance_scores s ∧
      ModelSelector.n_original_features (ModelSelector.set_estimator_obj e' s1)
        = ModelSelector.n_original_features s ∧
      ModelSelector.percentile (ModelSelector.set_estimator_obj e' s1)
        = ModelSelector.percentile s).
  { intros s1 ->. by destruct (params !! "threshold"). }
  destruct (Hattrs _ eq_refl) as (Hsel & Himp & Hn & Hperc).
  clear Hattrs. revert Hsel Himp Hn Hperc.
  generalize (ModelSelector.set_estimator_obj e'
                match params !! "threshold" with
                | Some v => ModelSelector.set_threshold v s
                | None => s
                end).
  intros s1 Hsel Himp Hn Hperc.
  do 4 (split; [done|]). split.
  - intros X. unfold ModelSelector.transform. run_method. rewrite Hsel.
    destruct (getitem_cols X (ModelSelector.selected_indices s)) as [Y|];
      cbn; [|done].
    by case_decide.
  - intros X. unfold ModelSelector.inverse_transform. run_method.
    rewrite Hsel, Hn. case_decide; [done|].
    destruct (zeros_like_original _ _) as [Xt|]; cbn; [|done].
    by destruct (setitem_cols _ _ _).
Qed.

(** An instance of X17: after a fit that selected the first of two
    features with the threshold 0.5, the threshold is set to 0; the
    selection stays. *)
Lemma set_params_keeps_selection_witness :
  let est := {| fe_importances := [one; zero]; fe_fitted := false;
                fe_params := ∅ |} in
  let X := {| shape1 := 2; rows := [[one; half]] |} in
  ∃ s s',
    ModelSelector.fit X None (ModelSelector.init est (PyFloat half) false)
      = (Ok tt, s) ∧
    ModelSelector.set_params {["threshold" := PyFloat zero]} s = (Ok tt, s') ∧
    ModelSelector.threshold s' = PyFloat zero ∧
    ModelSelector.selected_indices s' = [0%nat] ∧
    (ModelSelector.transform X s').1 = (ModelSelector.transform X s).1.
Proof.
  intros est X.
  eassert (Hfit : ModelSelector.fit X None
                    (ModelSelector.init est (PyFloat half) false)
                  = (Ok tt, _)) by (vm_compute; reflexivity).
  match type of Hfit with
  | _ = (_, ?s) =>
      eassert (Hset : ModelSelector.set_params {["threshold" := PyFloat zero]} s
                      = (Ok tt, _)) by (vm_compute; reflexivity)
  end.
  eexists _, _. split; [exact Hfit|]. split; [exact Hset|].
  split; [reflexivity|].
  destruct (set_params_keeps_selection FixedEstimator _ _ _ _ _ Hset)
    as (Hsel & _ & _ & _ & Htr & _).
  split; [rewrite Hsel; reflexivity|apply Htr].
Defined.

(** X18. What [FRegressionFilterPValue.fit] returns depends on the
    object only through [p_threshold]: an earlier selection has no
    effect on a [fit] that returns, and fitting again on the same data
    changes nothing. *)
Theorem filter_fit_forgets_and_repeats
    (f_regression : ndarray → list float64 → result (list float64 * list float64))
    (X : ndarray) (y : list float64) (s0 s : FRegressionFilterPValue.t) :
  FRegressionFilterPValue.fit f_regression X y s0 = (Ok tt, s) →
  FRegressionFilterPValue.p_threshold s = FRegressionFilterPValue.p_threshold s0 ∧
  FRegressionFilterPValue.fit f_regression X y s = (Ok tt, s) ∧
  ∀ s1, FRegressionFilterPValue.p_threshold s1
          = FRegressionFilterPValue.p_threshold s0 →
        FRegressionFilterPValue.fit f_regression X y s1 = (Ok tt, s).
Proof.
  intros (F & p & Hf & ->)%FilterFacts.filter_fit_inv.
  assert (Hany : ∀ s1, FRegressionFilterPValue.p_threshold s1
                         = FRegressionFilterPValue.p_threshold s0 →
                 FRegressionFilterPValue.fit f_regression X y s1 =
                 (Ok tt, FRegressionFilterPValue.Build
                           (FRegressionFilterPValue.p_threshold s0)
                           (where_ ((λ v, ltb v (FRegressionFilterPValue.p_threshold s0)) <$> p))
                           (Some (shape1 X)))).
  { intros s1 Hp. unfold FRegressionFilterPValue.fit. run_method.
    rewrite Hf. cbn. unfold FRegressionFilterPValue.set_selected_indices.
    cbn. by rewrite Hp. }
  split; [done|]. split; [by apply Hany|done].
Qed.

(** An instance of X18 on the p-values 0.01, 0.5 and 0.02. *)
Lemma filter_fit_forgets_and_repeats_witness :
  let p := [of_ratio 1 100; of_ratio 1 2; of_ratio 2 100] in
  let X3 := {| shape1 := 3; rows := [[one; one; one]] |} in
  ∃ s, FRegressionFilterPValue.fit (fixed_f_regression p) X3 [one]
         (FRegressionFilterPValue.init FRegressionFilterPValue.default_p_threshold)
       = (Ok tt, s) ∧
       FRegressionFilterPValue.fit (fixed_f_regression p) X3 [one] s = (Ok tt, s).
Proof.
  intros p X3.
  eassert (Hfit : FRegressionFilterPValue.fit (fixed_f_regression p) X3 [one]
                    (FRegressionFilterPValue.init
                       FRegressionFilterPValue.default_p_threshold)
                  = (Ok tt, _)) by (vm_compute; reflexivity).
  eexists. split; [exact Hfit|].
  by destruct (filter_fit_forgets_and_repeats _ _ _ _ _ Hfit) as (_ & Hagain & _).
Defined.

(* ===================================================================== *)
(** * The threshold of the percentile mode *)
(* ===================================================================== *)

Module RoundingUpFacts.
Import FloatFacts.

(** Just below an even multiple of the unit, at most half a unit away,
    rounding goes up to it. *)
Lemma rne_up B k d :
  0 < k → 0 < B → Z.even B = true → 0 < d ≤ 2 ^ (k - 1) →
  rne (B * 2 ^ k - d) k = B.
Proof.
  intros Hk HB Heven Hd. unfold rne.
  assert (HP : 2 ^ k = 2 * 2 ^ (k - 1)).
  { rewrite <- Z.pow_succ_r by lia. f_equal. lia. }
  assert (HP1 := pow2_pos (k - 1) ltac:(lia)).
  assert (Hq : (B * 2 ^ k - d) / 2 ^ k = B - 1).
  { symmetry. apply (Z.div_unique _ _ _ (2 ^ k - d)); lia. }
  assert (Hr : (B * 2 ^ k - d) mod 2 ^ k = 2 ^ k - d).
  { symmetry. apply (Z.mod_unique _ _ (B - 1)); lia. }
  rewrite Hq, Hr.
  assert (Hodd : Z.even (B - 1) = false).
  { rewrite Z.even_sub, Heven. reflexivity. }
  destruct (Z.compare_spec (2 * (2 ^ k - d)) (2 ^ k)); [|lia|lia].
  rewrite Hodd. lia.
Qed.

Lemma valid_mantissa m e :
  valid (S754_finite false m e) = true → Z.pos m < 2 ^ prec.
Proof.
  unfold valid, valid_binary, bounded, canonical_mantissa.
  intros [Hc _]%andb_true_iff. apply Z.eqb_eq in Hc.
  destruct (digits2_pos_bounds m) as [_ Hhi].
  assert (Z.pos (digits2_pos m) ≤ prec).
  { unfold fexp, emin, prec, emax in *. lia. }
  assert (2 ^ Z.pos (digits2_pos m) ≤ 2 ^ prec) by (apply pow2_le; lia).
  lia.
Qed.

(** [1 - t], rounded, is one when [0 <= t <= 2^-54]. *)
Lemma one_minus_rounds_to_one t :
  valid t = true → leb zero t = true → leb t pow2_m54 = true →
  sub one t = one.
Proof.
  intros Hv Hlo Hhi.
  destruct t as [s|s| |s mt et]; try done; try (by destruct s).
  destruct s; [done|]. clear Hlo.
  apply leb_finite_pos in Hhi.
  pose proof (valid_mantissa mt et Hv) as Hmt.
  assert (Hprec : prec = 53) by reflexivity.
  set (k := - prec - et).
  assert (Hk : 0 < k) by (unfold k; lia).
  assert (Hd : Z.pos mt ≤ 2 ^ (k - 1)).
  { destruct Hhi as [Hlt|[-> Hle]].
    - assert (2 ^ prec ≤ 2 ^ (k - 1)) by (apply pow2_le; unfold k; lia). lia.
    - unfold k. by replace (- prec - -106 - 1) with 52 by lia. }
  rewrite one_eq. unfold sub. cbn [SFsub cond_Zopp].
  rewrite (Z.min_r (-52) et) by lia.
  pose proof (shl_align_spec 4503599627370496 (-52) et) as H1.
  pose proof (shl_align_spec mt et et) as H2. cbn zeta in H1, H2.
  destruct (shl_align 4503599627370496 (-52) et) as [a ea],
    (shl_align mt et et) as [b eb].
  cbn [fst snd] in *. destruct H1 as [Hea Ha], H2 as [Heb Hb].
  rewrite Z.min_r in Hea by lia. rewrite Z.min_id in Heb. subst ea eb.
  rewrite Z.sub_diag, Z.pow_0_r, Z.mul_1_r in Hb.
  assert (Ha' : Z.pos a = 2 ^ prec * 2 ^ k).
  { rewrite Ha. change (Z.pos 4503599627370496) with (2 ^ 52).
    rewrite <- !pow2_split by (unfold k; lia). f_equal. unfold k. lia. }
  assert (HPk := pow2_pos k ltac:(lia)).
  assert (HPk1 : 2 ^ k = 2 * 2 ^ (k - 1)).
  { rewrite <- Z.pow_succ_r by lia. f_equal. lia. }
  assert (HP53 : 0 < 2 ^ prec) by (apply pow2_pos; lia).
  assert (Hpd : Z.pos a - Z.pos b = 2 ^ prec * 2 ^ k - Z.pos mt) by lia.
  assert (Hpdlo : 2 ^ (prec + k - 1) ≤ 2 ^ prec * 2 ^ k - Z.pos mt).
  { replace (prec + k - 1) with ((prec - 1) + k) by lia.
    rewrite pow2_split by lia.
    change (2 ^ prec) with (2 * 2 ^ (prec - 1)).
    assert (0 < 2 ^ (prec - 1)) by (apply pow2_pos; lia).
    assert (1 * 2 ^ k ≤ 2 ^ (prec - 1) * 2 ^ k)
      by (apply Z.mul_le_mono_nonneg_r; lia).
    lia. }
  assert (Hpdhi : 2 ^ prec * 2 ^ k - Z.pos mt < 2 ^ (prec + k)).
  { rewrite pow2_split by lia. lia. }
  destruct (Z.pos a - Z.pos b) as [|pd|pd] eqn:Hpdeq.
  { assert (0 < 2 ^ (prec + k - 1)) by (apply pow2_pos; lia). lia. }
  2:{ assert (0 < 2 ^ (prec + k - 1)) by (apply pow2_pos; lia). lia. }
  cbn [binary_normalize]. unfold binary_round.
  assert (Hdig : Zdigits2 (Z.pos pd) = prec + k).
  { apply PercentileEdgeFacts.Zdigits2_eq; [lia|]. rewrite Hpd. lia. }
  cbn [Zdigits2] in Hdig. rewrite Hdig.
  assert (Hfe : fexp prec emax (prec + k + et) = - prec).
  { unfold fexp, emin, k, prec, emax. lia. }
  rewrite Hfe.
  pose proof (shl_align_spec pd et (- prec)) as H3. cbn zeta in H3.
  destruct (shl_align pd et (- prec)) as [mz ez]. cbn [fst snd] in H3.
  destruct H3 as [Hez Hmz].
  rewrite Z.min_l in Hez by lia. subst ez.
  rewrite Z.sub_diag, Z.pow_0_r, Z.mul_1_r in Hmz.
  rewrite binary_round_aux_exact by lia.
  unfold round_result. rewrite Hmz. cbn [Zdigits2]. rewrite Hdig.
  assert (Hk1 : Z.max 0 (fexp64 (prec + k + et) - et) = k).
  { unfold fexp64. rewrite Hfe. unfold k. lia. }
  rewrite Hk1, Hpd.
  rewrite (rne_up (2 ^ prec) k (Z.pos mt)); [|lia|lia|reflexivity|lia].
  replace (et + k) with (- prec) by (unfold k; lia).
  reflexivity.
Qed.

Section WithEstimator.

Context {E : Type} `{Estimator E} `{!EstimatorContract E}.

(** In percentile mode a threshold between 0 and [2^-54] puts the index
    one past the end of the sorted scores, and [fit] raises
    [IndexError]. *)
Lemma fit_index_past_end X y (s0 : ModelSelector.t E) e' thr scores :
  ModelSelector.percentile s0 = true →
  as_float (ModelSelector.threshold s0) = Ok thr →
  est_fit X y (ModelSelector.estimator_obj s0) = (Ok tt, e') →
  ModelSelector._get_feature_importances e' = Ok scores →
  valid thr = true → (0 < shape1 X)%nat → Z.of_nat (shape1 X) < 2 ^ 53 →
  leb zero thr = true → leb thr pow2_m54 = true →
  ModelSelector.percentile_index thr (shape1 X) = Ok (Z.of_nat (shape1 X)) ∧
  ∃ msg s', ModelSelector.fit X y s0 = (Raise (Exn IndexError msg), s').
Proof.
  intros Hperc Hthr Hfit Himp Hvalid Hn Hnlt Hlo Hhi.
  pose proof (one_minus_rounds_to_one thr Hvalid Hlo Hhi) as Hsub.
  pose proof (PercentileEdgeFacts.percentile_index_full thr (shape1 X)
                Hsub Hn Hnlt) as Hindex.
  split; [done|].
  pose proof (SelectorFacts.importances_length X y _ e' scores Hfit Himp) as Hlen.
  assert (Hgt : gtb thr one = false).
  { apply PercentileModeFacts.leb_not_gtb.
    apply (FloatOrderFacts.leb_trans thr pow2_m54 one); [done|reflexivity]. }
  destruct (FoldIndexFacts.getitem_out_of_range (sort scores)
              (Z.of_nat (shape1 X))) as [msg Hget].
  { right. rewrite (Permutation_length (sort_Permutation scores)). lia. }
  exists msg. eexists.
  unfold ModelSelector.fit. run_method. SelectorFacts.attrs.
  rewrite Hfit. cbv beta iota zeta. SelectorFacts.attrs.
  rewrite Himp. SelectorFacts.attrs. rewrite Hthr, Hperc. cbn [negb].
  rewrite Hgt, Hindex, Hget. reflexivity.
Qed.

End WithEstimator.

End RoundingUpFacts.

(** C7, as stated, fails: the threshold [2^-60] lies between 0 and 1,
    yet [1 - 2^-60] rounds to one in binary64, so for a single importance
    score the index is [floor(1.0 * 1) = 1], the length of the sorted
    array, and [fit] raises [IndexError]. *)
Lemma percentile_fit_counterexample :
  let est := {| fe_importances := [one]; fe_fitted := false; fe_params := ∅ |} in
  let X := {| shape1 := 1; rows := [[one]] |} in
  valid two_pow_m60 = true ∧
  ltb zero two_pow_m60 = true ∧ leb two_pow_m60 one = true ∧
  length (fe_importances est) = 1%nat ∧
  sub one two_pow_m60 = one ∧
  ModelSelector.percentile_index two_pow_m60 1 = Ok 1 ∧
  (ModelSelector.fit X None (ModelSelector.init est (PyFloat two_pow_m60) true)).1
    = Raise (Exn IndexError "index is out of bounds for axis 0").
Proof. intros est X. repeat split; reflexivity. Qed.

(** The second half of C7 also needs the scores to be numbers: with the
    single score NaN and the threshold 1 the index 0 is in range, but no
    score compares as reaching NaN, and nothing is selected. *)
Lemma percentile_fit_nan_scores :
  let est := {| fe_importances := [S754_nan]; fe_fitted := false;
                fe_params := ∅ |} in
  let X := {| shape1 := 1; rows := [[one]] |} in
  ModelSelector.percentile_index one 1 = Ok 0 ∧
  ∃ s, ModelSelector.fit X None (ModelSelector.init est (PyFloat one) true)
       = (Ok tt, s) ∧
       ModelSelector.selected_indices s = [].
Proof.
  intros est X. split; [reflexivity|].
  eexists. split; [vm_compute; reflexivity|reflexivity].
Qed.

(** C7, amended. For [ModelSelector.fit] with [percentile=True] and a
    threshold that is a number (a float, an int or a bool), once the
    wrapped estimator's [fit] has returned:
    - whenever the threshold is greater than 1, [fit] raises
      [ValueError];
    - for every threshold with [2^-54 < threshold <= 1], when the
      importance scores number [n_features], with
      [0 < n_features < 2^53], and none of them is NaN, the index
      [floor((1 - threshold) * n_features)] into the sorted scores is in
      range, [fit] returns, and the resulting [selected_indices] is not
      empty: it holds every feature of maximal importance;
    The range cannot be extended downwards: for every threshold with
    [0 <= threshold <= 2^-54], [1 - threshold] rounds to one, the index
    is [n_features] and [fit] raises [IndexError]. *)
Theorem percentile_fit_threshold
    (E : Type) (est : Estimator E) (contract : EstimatorContract E)
    (X : ndarray) (y : option (list float64)) (s0 : ModelSelector.t E)
    (e' : E) (thr : float64) :
  ModelSelector.percentile s0 = true →
  as_float (ModelSelector.threshold s0) = Ok thr →
  est_fit X y (ModelSelector.estimator_obj s0) = (Ok tt, e') →
  (gtb thr one = true →
   ∃ msg s', ModelSelector.fit X y s0 = (Raise (Exn ValueError msg), s')) ∧
  (valid thr = true →
   (0 < shape1 X)%nat → Z.of_nat (shape1 X) < 2 ^ 53 →
   ∀ scores,
     ModelSelector._get_feature_importances e' = Ok scores →
     (ltb pow2_m54 thr = true → leb thr one = true →
      Forall (λ v, is_nan v = false) scores →
      ∃ s index bound,
        ModelSelector.fit X y s0 = (Ok tt, s) ∧
        ModelSelector.percentile_index thr (shape1 X) = Ok index ∧
        0 ≤ index < Z.of_nat (length scores) ∧
        sort scores !! Z.to_nat index = Some bound ∧
        ModelSelector.selected_indices s = ModelSelector.at_least scores bound ∧
        ModelSelector.selected_indices s ≠ [] ∧
        ∀ i v, scores !! i = Some v → Forall (λ w, leb w v = true) scores →
               i ∈ ModelSelector.selected_indices s) ∧
     (leb zero thr = true → leb thr pow2_m54 = true →
      ModelSelector.percentile_index thr (shape1 X)
        = Ok (Z.of_nat (length scores)) ∧
      ∃ msg s', ModelSelector.fit X y s0 = (Raise (Exn IndexError msg), s'))).
Proof.
  intros Hperc Hthr Hfit. split.
  - by eapply PercentileModeFacts.fit_threshold_above_one.
  - intros Hvalid Hn Hnlt scores Himp.
    pose proof (SelectorFacts.importances_length X y _ e' scores Hfit Himp) as Hlen.
    split.
    + intros Hlo Hhi Hnan.
      destruct (FloatFacts.percentile_index_in_range thr (shape1 X))
        as (index & Hindex & Hrange); try done.
      rewrite <- Hlen in Hrange.
      destruct (PercentileModeFacts.fit_percentile_index_in_range
                  X y s0 e' thr scores index)
        as (s & bound & Hs & Hbound & Hsel & Hne & Hmax); try done.
      { by apply PercentileModeFacts.leb_not_gtb. }
      exists s, index, bound. split_and!; (done || lia).
    + intros Hlo Hhi. rewrite Hlen.
      by apply (RoundingUpFacts.fit_index_past_end X y s0 e' thr scores).
Qed.

(** An instance of the amended C7: the threshold 0.5 on the scores 1 and
    0 gives the index 1 and selects the first feature; the int threshold
    1 gives the index 0 and selects both; the threshold 0 raises. *)
Lemma percentile_fit_threshold_witness :
  let est := {| fe_importances := [one; zero]; fe_fitted := false;
                fe_params := ∅ |} in
  let X := {| shape1 := 2; rows := [[one; one]] |} in
  (∃ s, ModelSelector.fit X None (ModelSelector.init est (PyFloat half) true)
        = (Ok tt, s) ∧
        ModelSelector.selected_indices s = [0%nat]) ∧
  (∃ s, ModelSelector.fit X None (ModelSelector.init est (PyInt 1) true)
        = (Ok tt, s) ∧
        ModelSelector.selected_indices s = [0%nat; 1%nat]) ∧
  (∃ msg s', ModelSelector.fit X None (ModelSelector.init est (PyInt 0) true)
             = (Raise (Exn IndexError msg), s')).
Proof.
  intros est X.
  eassert (Hest : est_fit X None est = (Ok tt, _)) by (vm_compute; reflexivity).
  split; [|split].
  - destruct (percentile_fit_threshold FixedEstimator _ FixedEstimator_contract
                X None (ModelSelector.init est (PyFloat half) true)
                _ half eq_refl eq_refl Hest) as [_ Hin].
    destruct (Hin eq_refl ltac:(cbn; lia) eq_refl [one; zero] eq_refl)
      as [Hok _].
    destruct (Hok eq_refl eq_refl ltac:(repeat constructor))
      as (s & index & bound & Hfit & _).
    exists s. split; [exact Hfit|].
    vm_compute in Hfit. by injection Hfit as <-.
  - destruct (percentile_fit_threshold FixedEstimator _ FixedEstimator_contract
                X None (ModelSelector.init est (PyInt 1) true)
                _ one eq_refl eq_refl Hest) as [_ Hin].
    destruct (Hin eq_refl ltac:(cbn; lia) eq_refl [one; zero] eq_refl)
      as [Hok _].
    destruct (Hok eq_refl eq_refl ltac:(repeat constructor))
      as (s & index & bound & Hfit & _).
    exists s. split; [exact Hfit|].
    vm_compute in Hfit. by injection Hfit as <-.
  - destruct (percentile_fit_threshold FixedEstimator _ FixedEstimator_contract
                X None (ModelSelector.init est (PyInt 0) true)
                _ zero eq_refl eq_refl Hest) as [_ Hin].
    destruct (Hin eq_refl ltac:(cbn; lia) eq_refl [one; zero] eq_refl)
      as [_ Hout].
    destruct (Hout eq_refl eq_refl) as (_ & msg & s' & Hfit).
    by exists msg, s'.
Defined.
